(** * Carbon footprint calculator: a shallow embedding of [app.py]

    The script is a Streamlit page: every run reads the sidebar widgets,
    normalises units, computes four category subtotals and their total,
    renders them, appends to / reads from a SQLite history table and
    prints rule-based suggestions.

    Python [float] is IEEE-754 binary64 with round-to-nearest-even, which
    is what Rocq's primitive floats are, so numbers are modelled by
    [PrimFloat.float] and every arithmetic operation of the script is the
    corresponding primitive operation.

    Layout of the development:
    - the sidebar, the calculation and the suggestion rules, as pure
      functions into a [result] that carries Python's exceptions;
    - decimal numerals: Python's [repr] of a float (the shortest decimal
      that reads back) and the correctly rounded reading of a numeral;
    - JSON values, [json.dumps] and a recursive-descent [json.loads];
    - the page as a script over a world made of the SQLite file and the
      list of things rendered so far; an exception ends the run, since
      the script has no handler anywhere;
    - the theorems, grouped by subject. *)

From Stdlib Require Import ZArith List String Ascii Bool Lia Floats.
From Stdlib Require Import DecimalString DecimalPos DecimalFacts.
From Stdlib Require Import Sorted Permutation.
Import ListNotations.

Set Warnings "-inexact-float,-register-all".

Local Open Scope string_scope.
Local Open Scope float_scope.

(** ** Python dictionaries

    A [dict] keeps insertion order (which [json.dumps] follows), so it is
    an association list with unique keys; a lookup of a missing key raises
    [KeyError]. *)

Definition dict (V : Type) := list (string * V).

Fixpoint dict_get {V} (d : dict V) (k : string) : option V :=
  match d with
  | [] => None
  | (k', v) :: d' => if String.eqb k' k then Some v else dict_get d' k
  end.

Definition dict_keys {V} (d : dict V) : list string := map fst d.

(** ** Exceptions and the result of a fallible computation *)

Inductive exn :=
| KeyError (k : string)
| ZeroDivisionError
| OperationalError
| JSONDecodeError
| TypeError.

Inductive result (A : Type) :=
| Ok (a : A)
| Raise (e : exn).
Arguments Ok {A} a.
Arguments Raise {A} e.

Definition rbind {A B} (r : result A) (k : A -> result B) : result B :=
  match r with
  | Ok a => k a
  | Raise e => Raise e
  end.

Notation "x <- c ;; k" := (rbind c (fun x => k))
  (at level 61, c at next level, right associativity).

Definition getitem {V} (d : dict V) (k : string) : result V :=
  match dict_get d k with
  | Some v => Ok v
  | None => Raise (KeyError k)
  end.

(** Python's [x / y] on floats raises on a zero divisor (of either sign)
    and is the IEEE quotient otherwise. *)
Definition truediv (x y : float) : result float :=
  if (y =? 0) then Raise ZeroDivisionError else Ok (x / y).

(** ** Emission factors (kg CO2e per unit) *)

Definition EMISSION_FACTORS : dict float :=
  [ ("mile_driven", 0.404);
    ("km_driven", 0.251);
    ("beef_kg", 27.0);
    ("chicken_kg", 6.9);
    ("flight_km", 0.115);
    ("bus_km", 0.089);
    ("shopping_usd", 0.6) ].

(** The third entry of [COUNTRY_GRID_FACTORS] maps to [None]. *)
Definition custom_label : string := "Custom…".

Definition COUNTRY_GRID_FACTORS : dict (option float) :=
  [ ("Global average", Some 0.92);
    ("Nigeria", Some 0.80);
    (custom_label, None) ].

(** ** Sidebar widgets

    One field per widget of the sidebar. A widget that is not shown in a
    run (the miles box when km is selected, the USD box when NGN is
    selected, the custom grid box for a preset) still has a value in the
    session; the script simply does not read it. *)

Record widgets := {
  w_distance_unit : string;        (* radio, options km / miles *)
  w_currency : string;             (* radio, options NGN / USD *)
  w_car_miles : float;             (* number_input, min_value 0.0 *)
  w_car_km : float;                (* number_input, min_value 0.0 *)
  w_flight_km_per_year : float;    (* number_input, min_value 0.0 *)
  w_bus_km_per_week : float;       (* number_input, min_value 0.0 *)
  w_country_choice : string;       (* selectbox over the grid table keys *)
  w_custom_grid_factor : float;    (* number_input, min_value 0.0 *)
  w_kwh_per_month : float;         (* number_input, min_value 0.0 *)
  w_beef_kg_per_week : float;      (* number_input, min_value 0.0 *)
  w_chicken_kg_per_week : float;   (* number_input, min_value 0.0 *)
  w_spend_usd : float;             (* number_input, min_value 0.0 *)
  w_ngn_per_month : float;         (* number_input, min_value 0.0 *)
  w_fx_rate : float;               (* number_input, min_value 1.0 *)
  w_save_clicked : bool            (* button Save this run *)
}.

(** The script's variables once the sidebar has been read (lines 150-250). *)
Record inputs := {
  distance_unit : string;
  currency : string;
  miles_per_week : float;
  km_per_week : float;
  car_per_week_kg : float;
  flight_km_per_year : float;
  bus_km_per_week : float;
  country_choice : string;
  selected_grid_factor : float;
  kwh_per_month : float;
  beef_kg_per_week : float;
  chicken_kg_per_week : float;
  spend_usd : float
}.

(** Lines 166-182: both distances start at 0.0, the selected one is read. *)
Definition read_car (w : widgets) : result (float * float * float) :=
  let miles_per_week := 0.0 in
  let km_per_week := 0.0 in
  if String.eqb (w_distance_unit w) "miles" then
    let miles_per_week := w_car_miles w in
    f <- getitem EMISSION_FACTORS "mile_driven" ;;
    Ok (miles_per_week, km_per_week, miles_per_week * f)
  else
    let km_per_week := w_car_km w in
    f <- getitem EMISSION_FACTORS "km_driven" ;;
    Ok (miles_per_week, km_per_week, km_per_week * f).

(** Lines 198-210. Only the custom entry of the table holds [None], and
    that entry is taken by the first branch. *)
Definition read_grid_factor (w : widgets) : result float :=
  if String.eqb (w_country_choice w) custom_label then
    Ok (w_custom_grid_factor w)
  else
    g <- getitem COUNTRY_GRID_FACTORS (w_country_choice w) ;;
    match g with
    | Some f => Ok f
    | None => Raise TypeError
    end.

(** Lines 233-250. *)
Definition read_spend (w : widgets) : result float :=
  if String.eqb (w_currency w) "USD" then
    Ok (w_spend_usd w)
  else
    let ngn_per_month := w_ngn_per_month w in
    let fx_rate := w_fx_rate w in
    truediv ngn_per_month fx_rate.

Definition read_sidebar (w : widgets) : result inputs :=
  car <- read_car w ;;
  let '(miles, km, car_kg) := car in
  grid <- read_grid_factor w ;;
  spend <- read_spend w ;;
  Ok {| distance_unit := w_distance_unit w;
        currency := w_currency w;
        miles_per_week := miles;
        km_per_week := km;
        car_per_week_kg := car_kg;
        flight_km_per_year := w_flight_km_per_year w;
        bus_km_per_week := w_bus_km_per_week w;
        country_choice := w_country_choice w;
        selected_grid_factor := grid;
        kwh_per_month := w_kwh_per_month w;
        beef_kg_per_week := w_beef_kg_per_week w;
        chicken_kg_per_week := w_chicken_kg_per_week w;
        spend_usd := spend |}.

(** ** Calculations (lines 285-301) *)

Record totals := {
  transport_total : float;
  electricity_total : float;
  diet_total : float;
  shopping_total : float;
  grand_total_kg : float;
  grand_total_t : float
}.

Definition calculate (i : inputs) : result totals :=
  f_flight <- getitem EMISSION_FACTORS "flight_km" ;;
  f_bus <- getitem EMISSION_FACTORS "bus_km" ;;
  let transport_total :=
    car_per_week_kg i * 52 +
    flight_km_per_year i * f_flight +
    bus_km_per_week i * 52 * f_bus in
  let electricity_total := kwh_per_month i * 12 * selected_grid_factor i in
  f_beef <- getitem EMISSION_FACTORS "beef_kg" ;;
  f_chicken <- getitem EMISSION_FACTORS "chicken_kg" ;;
  let diet_total :=
    beef_kg_per_week i * 52 * f_beef +
    chicken_kg_per_week i * 52 * f_chicken in
  f_shop <- getitem EMISSION_FACTORS "shopping_usd" ;;
  let shopping_total := spend_usd i * 12 * f_shop in
  let grand_total_kg :=
    transport_total + electricity_total + diet_total + shopping_total in
  let grand_total_t := grand_total_kg / 1000 in
  Ok {| transport_total := transport_total;
        electricity_total := electricity_total;
        diet_total := diet_total;
        shopping_total := shopping_total;
        grand_total_kg := grand_total_kg;
        grand_total_t := grand_total_t |}.

(** The projections shown as metrics and written to the CSV export. *)
Definition daily_kg (t : totals) : float := grand_total_kg t / 365.
Definition weekly_kg (t : totals) : float := grand_total_kg t / 52.
Definition monthly_kg (t : totals) : float := grand_total_kg t / 12.

(** ** Suggestions (lines 454-469) *)

Definition msg_beef : string :=
  "Reduce beef intake or swap with chicken/plant-based options.".
Definition msg_car : string :=
  "Combine trips, carpool, or consider public transport for some journeys.".
Definition msg_power : string :=
  "Improve home efficiency: LED bulbs, efficient appliances, and switch off standby loads.".
Definition msg_flight : string :=
  "Consider train alternatives for short-haul or offset essential flights.".
Definition msg_fallback : string :=
  "Nice balance of activities — keep tracking to find small improvements.".

(** Python's [x > y] on floats. *)
Definition gt (x y : float) : bool := y <? x.

Definition is_empty {A} (l : list A) : bool :=
  match l with [] => true | _ => false end.

Definition suggestions (i : inputs) : list string :=
  let suggestions : list string := [] in
  let suggestions :=
    if gt (beef_kg_per_week i) 0.5 then (suggestions ++ [msg_beef])%list else suggestions in
  let suggestions :=
    if String.eqb (distance_unit i) "miles" then
      if gt (miles_per_week i) 100 then (suggestions ++ [msg_car])%list else suggestions
    else
      if gt (km_per_week i) 160 then (suggestions ++ [msg_car])%list else suggestions in
  let suggestions :=
    if gt (kwh_per_month i) 200 then (suggestions ++ [msg_power])%list else suggestions in
  let suggestions :=
    if gt (flight_km_per_year i) 3000 then (suggestions ++ [msg_flight])%list else suggestions in
  let suggestions :=
    if is_empty suggestions then (suggestions ++ [msg_fallback])%list else suggestions in
  suggestions.

(** One pass of the script up to the totals. *)
Definition run_totals (w : widgets) : result totals :=
  i <- read_sidebar w ;;
  calculate i.

(** The shopping subtotal of a run. *)
Definition shopping_of (w : widgets) : result float :=
  t <- run_totals w ;;
  Ok (shopping_total t).

(** ** Ways of filling the sidebar, used to state properties *)

(** The user selects NGN and types an amount and an exchange rate. *)
Definition enter_ngn (w : widgets) (amount rate : float) : widgets :=
  {| w_distance_unit := w_distance_unit w;
     w_currency := "NGN";
     w_car_miles := w_car_miles w;
     w_car_km := w_car_km w;
     w_flight_km_per_year := w_flight_km_per_year w;
     w_bus_km_per_week := w_bus_km_per_week w;
     w_country_choice := w_country_choice w;
     w_custom_grid_factor := w_custom_grid_factor w;
     w_kwh_per_month := w_kwh_per_month w;
     w_beef_kg_per_week := w_beef_kg_per_week w;
     w_chicken_kg_per_week := w_chicken_kg_per_week w;
     w_spend_usd := w_spend_usd w;
     w_ngn_per_month := amount;
     w_fx_rate := rate;
     w_save_clicked := w_save_clicked w |}.

(** The user selects USD and types an amount. *)
Definition enter_usd (w : widgets) (amount : float) : widgets :=
  {| w_distance_unit := w_distance_unit w;
     w_currency := "USD";
     w_car_miles := w_car_miles w;
     w_car_km := w_car_km w;
     w_flight_km_per_year := w_flight_km_per_year w;
     w_bus_km_per_week := w_bus_km_per_week w;
     w_country_choice := w_country_choice w;
     w_custom_grid_factor := w_custom_grid_factor w;
     w_kwh_per_month := w_kwh_per_month w;
     w_beef_kg_per_week := w_beef_kg_per_week w;
     w_chicken_kg_per_week := w_chicken_kg_per_week w;
     w_spend_usd := amount;
     w_ngn_per_month := w_ngn_per_month w;
     w_fx_rate := w_fx_rate w;
     w_save_clicked := w_save_clicked w |}.

(** The widget defaults of the script ([value=] arguments, first option of
    each radio and select box). *)
Definition default_widgets : widgets :=
  {| w_distance_unit := "km";
     w_currency := "NGN";
     w_car_miles := 50.0;
     w_car_km := 80.0;
     w_flight_km_per_year := 1000.0;
     w_bus_km_per_week := 10.0;
     w_country_choice := "Global average";
     w_custom_grid_factor := 0.60;
     w_kwh_per_month := 150.0;
     w_beef_kg_per_week := 0.3;
     w_chicken_kg_per_week := 0.5;
     w_spend_usd := 100.0;
     w_ngn_per_month := 150000.0;
     w_fx_rate := 1500.0;
     w_save_clicked := false |}.

(** 80 km by car, 1000 km of flights, 10 km by bus, the global average
    grid, 150 kWh, 0.3 kg of beef, 0.5 kg of chicken and 100 USD. *)
Definition typical_widgets : widgets :=
  {| w_distance_unit := "km";
     w_currency := "USD";
     w_car_miles := 50.0;
     w_car_km := 80.0;
     w_flight_km_per_year := 1000.0;
     w_bus_km_per_week := 10.0;
     w_country_choice := "Global average";
     w_custom_grid_factor := 0.60;
     w_kwh_per_month := 150.0;
     w_beef_kg_per_week := 0.3;
     w_chicken_kg_per_week := 0.5;
     w_spend_usd := 100.0;
     w_ngn_per_month := 150000.0;
     w_fx_rate := 1500.0;
     w_save_clicked := true |}.

(** Every quantity typed as zero (units, currency and grid choice left at
    their defaults). *)
Definition zero_widgets : widgets :=
  {| w_distance_unit := "km";
     w_currency := "NGN";
     w_car_miles := 0;
     w_car_km := 0;
     w_flight_km_per_year := 0;
     w_bus_km_per_week := 0;
     w_country_choice := "Global average";
     w_custom_grid_factor := 0;
     w_kwh_per_month := 0;
     w_beef_kg_per_week := 0;
     w_chicken_kg_per_week := 0;
     w_spend_usd := 0;
     w_ngn_per_month := 0;
     w_fx_rate := 1500.0;
     w_save_clicked := false |}.

(** No suggestion rule fires: every tested quantity is at or below its
    threshold, the car distance being the one of the selected unit. *)
Definition below_thresholds (i : inputs) : Prop :=
  (beef_kg_per_week i <=? 0.5) = true /\
  (if String.eqb (distance_unit i) "miles"
   then miles_per_week i <=? 100
   else km_per_week i <=? 160) = true /\
  (kwh_per_month i <=? 200) = true /\
  (flight_km_per_year i <=? 3000) = true.

(** ** Sign and finiteness of a float

    On the decoded form: [sf_nonneg] is [0 <= x] (a zero of either sign, a
    positive finite number or plus infinity). *)

Definition sf_nonneg (x : spec_float) : bool :=
  match x with
  | S754_zero _ => true
  | S754_infinity s => negb s
  | S754_nan => false
  | S754_finite s _ _ => negb s
  end.

(** A positive finite number. *)
Definition sf_posfin (x : spec_float) : bool :=
  match x with
  | S754_finite false _ _ => true
  | _ => false
  end.

(** Not an infinity (and not NaN). *)
Definition sf_finite (x : spec_float) : bool :=
  match x with
  | S754_zero _ | S754_finite _ _ _ => true
  | _ => false
  end.


Definition nonneg (x : float) : Prop := (0 <=? x) = true.

(** A float is positive and finite when it decodes to a positive finite
    number; for a literal this is decided by evaluation. *)
Definition posfin (c : float) : Prop := sf_posfin (Prim2SF c) = true.

(** What a [number_input] with the given [min_value] can return: a finite
    float that is at least the minimum. *)
Definition number_input_ok (min_value x : float) : Prop :=
  (min_value <=? x) = true /\ (x <? infinity) = true.

Definition widgets_ok (w : widgets) : Prop :=
  number_input_ok 0 (w_car_miles w) /\
  number_input_ok 0 (w_car_km w) /\
  number_input_ok 0 (w_flight_km_per_year w) /\
  number_input_ok 0 (w_bus_km_per_week w) /\
  number_input_ok 0 (w_custom_grid_factor w) /\
  number_input_ok 0 (w_kwh_per_month w) /\
  number_input_ok 0 (w_beef_kg_per_week w) /\
  number_input_ok 0 (w_chicken_kg_per_week w) /\
  number_input_ok 0 (w_spend_usd w) /\
  number_input_ok 0 (w_ngn_per_month w) /\
  number_input_ok 1 (w_fx_rate w).

(** Not NaN. *)
Definition not_nan (x : float) : Prop := is_nan x = false.

(** None of the six figures of a result is NaN. *)
Definition totals_not_nan (t : totals) : Prop :=
  not_nan (transport_total t) /\
  not_nan (electricity_total t) /\
  not_nan (diet_total t) /\
  not_nan (shopping_total t) /\
  not_nan (grand_total_kg t) /\
  not_nan (grand_total_t t).

(** Python's [grand_total_kg == transport_total + electricity_total +
    diet_total + shopping_total]. *)
Definition total_equals_sum (t : totals) : Prop :=
  (grand_total_kg t =?
     transport_total t + electricity_total t + diet_total t
     + shopping_total t) = true.

(** Every figure the page shows about a run is at least zero. *)
Definition outputs_nonneg (t : totals) : Prop :=
  nonneg (transport_total t) /\
  nonneg (electricity_total t) /\
  nonneg (diet_total t) /\
  nonneg (shopping_total t) /\
  nonneg (grand_total_kg t) /\
  nonneg (grand_total_t t) /\
  nonneg (daily_kg t) /\
  nonneg (weekly_kg t) /\
  nonneg (monthly_kg t).

(** A household typing an astronomically large consumption together with
    a custom grid factor of zero. *)
Definition overflow_widgets : widgets :=
  {| w_distance_unit := "km";
     w_currency := "USD";
     w_car_miles := 0;
     w_car_km := 0;
     w_flight_km_per_year := 0;
     w_bus_km_per_week := 0;
     w_country_choice := custom_label;
     w_custom_grid_factor := 0;
     w_kwh_per_month := 1e308;
     w_beef_kg_per_week := 0;
     w_chicken_kg_per_week := 0;
     w_spend_usd := 0;
     w_ngn_per_month := 0;
     w_fx_rate := 1500.0;
     w_save_clicked := false |}.

(** Miles selected, 120 miles typed, and a stale 500 in the hidden km
    box. *)
Definition miles_120 : widgets :=
  {| w_distance_unit := "miles";
     w_currency := "USD";
     w_car_miles := 120;
     w_car_km := 500;
     w_flight_km_per_year := 0;
     w_bus_km_per_week := 0;
     w_country_choice := "Nigeria";
     w_custom_grid_factor := 0.60;
     w_kwh_per_month := 0;
     w_beef_kg_per_week := 0;
     w_chicken_kg_per_week := 0;
     w_spend_usd := 0;
     w_ngn_per_month := 0;
     w_fx_rate := 1500.0;
     w_save_clicked := false |}.

(** * Numbers in JSON text

    [json.dumps] writes a float with [float.__repr__] and [json.loads]
    reads a number with [int()] or [float()]. Both are modelled on exact
    integer arithmetic: reading is the correctly rounded conversion of a
    decimal to binary64 (round to nearest, ties to even), writing is the
    shortest decimal that reads back as the same float. *)

(** ** Decimal digits *)

Definition is_digit (c : ascii) : bool :=
  let n := nat_of_ascii c in (48 <=? n)%nat && (n <=? 57)%nat.

Definition digit_val (c : ascii) : Z := Z.of_nat (nat_of_ascii c) - 48.

Fixpoint Z_of_digits (acc : Z) (s : string) : Z :=
  match s with
  | EmptyString => acc
  | String c s' => Z_of_digits (10 * acc + digit_val c) s'
  end.

Definition digits_of_Z (n : Z) : string :=
  match n with
  | Zpos p => NilEmpty.string_of_uint (Pos.to_uint p)
  | _ => "0"
  end.

Fixpoint zeros (n : nat) : string :=
  match n with
  | O => ""
  | S n' => String "0" (zeros n')
  end.

Fixpoint take (n : nat) (s : string) : string :=
  match n, s with
  | S n', String c s' => String c (take n' s')
  | _, _ => ""
  end.

Fixpoint drop (n : nat) (s : string) : string :=
  match n, s with
  | S n', String _ s' => drop n' s'
  | _, _ => s
  end.

(** ** A number as the JSON grammar splits it

    An optional minus sign, the integer digits (a single 0, or a run of
    digits that does not start with 0), an optional fraction (a dot and
    at least one digit), an optional exponent (e or E, an optional sign,
    at least one digit). *)

Record number_token := {
  nt_neg : bool;
  nt_int : string;
  nt_frac : option string;
  nt_exp : option (bool * string)
}.

Definition token_to_string (t : number_token) : string :=
  (if nt_neg t then "-" else "") ++ nt_int t ++
  match nt_frac t with Some f => "." ++ f | None => "" end ++
  match nt_exp t with
  | Some (neg, ds) => "e" ++ (if neg then "-" else "+") ++ ds
  | None => ""
  end.

(** ** Reading: decimal to binary64, correctly rounded *)

(** The fraction [p / (q * 2^e)] with integer numerator and denominator. *)
Definition scale2 (p q e : Z) : Z * Z :=
  if (0 <=? e)%Z then (p, q * 2 ^ e)%Z else (p * 2 ^ (- e), q)%Z.

(** [floor (log2 (p / q))] for positive [p] and [q]. *)
Definition ilog2_ratio (p q : Z) : Z :=
  let d0 := (Z.log2 p - Z.log2 q)%Z in
  let '(a, b) := scale2 p q d0 in
  if (b <=? a)%Z then d0 else (d0 - 1)%Z.

(** The integer nearest to [a / b], ties to even. *)
Definition round_half_even (a b : Z) : Z :=
  let m := (a / b)%Z in
  let r := (a mod b)%Z in
  match (2 * r ?= b)%Z with
  | Lt => m
  | Gt => (m + 1)%Z
  | Eq => if Z.even m then m else (m + 1)%Z
  end.

(** The binary64 nearest to [p / q] (both positive), with the given sign:
    the exponent is the canonical one for the magnitude, a mantissa that
    rounds up to [2^53] moves to the next binade, and a result beyond the
    largest exponent is infinite. *)
Definition round_ratio (neg : bool) (p q : Z) : spec_float :=
  let d := ilog2_ratio p q in
  let e := fexp prec emax (d + 1) in
  let '(a, b) := scale2 p q e in
  let m := round_half_even a b in
  let '(m, e) :=
    if (m =? 2 ^ prec)%Z then (2 ^ (prec - 1), e + 1)%Z else (m, e) in
  match m with
  | Zpos mp =>
      if (e <=? emax - prec)%Z then S754_finite neg mp e
      else S754_infinity neg
  | _ => S754_zero neg
  end.

(** The binary64 nearest to [n * 10^k], [n >= 0]. *)
Definition decimal_to_sf (neg : bool) (n k : Z) : spec_float :=
  if (n <=? 0)%Z then S754_zero neg
  else if (0 <=? k)%Z then round_ratio neg (n * 10 ^ k) 1
  else round_ratio neg n (10 ^ (- k)).

Definition exp_value (e : option (bool * string)) : Z :=
  match e with
  | Some (neg, ds) => if neg then (- Z_of_digits 0 ds)%Z else Z_of_digits 0 ds
  | None => 0%Z
  end.

Definition frac_digits (f : option string) : string :=
  match f with Some ds => ds | None => "" end.

(** [float(s)] on a number of the grammar. *)
Definition sf_of_token (t : number_token) : spec_float :=
  let ds := nt_int t ++ frac_digits (nt_frac t) in
  decimal_to_sf (nt_neg t) (Z_of_digits 0 ds)
    (exp_value (nt_exp t) - Z.of_nat (String.length (frac_digits (nt_frac t)))).

Definition float_of_token (t : number_token) : float :=
  SF2Prim (sf_of_token t).

(** [int(s)] on the integer part. *)
Definition int_of_token (t : number_token) : Z :=
  let n := Z_of_digits 0 (nt_int t) in
  if nt_neg t then (- n)%Z else n.

(** ** Writing: the shortest decimal that reads back *)

(** [repr] layout of the digit string [ds] whose decimal point sits
    [decpt] digits after its start: exponent form when [decpt <= -4] or
    [decpt > 16], positional form with at least one fraction digit
    otherwise. *)
Definition exp_digits (e : Z) : string :=
  let ds := digits_of_Z (Z.abs e) in
  if (Z.abs e <? 10)%Z then "0" ++ ds else ds.

Definition layout (neg : bool) (ds : string) (decpt : Z) : number_token :=
  let n := Z.of_nat (String.length ds) in
  if ((decpt <=? -4) || (16 <? decpt))%Z then
    {| nt_neg := neg;
       nt_int := take 1 ds;
       nt_frac := if (1 <? n)%Z then Some (drop 1 ds) else None;
       nt_exp := Some ((decpt - 1 <? 0)%Z, exp_digits (decpt - 1)) |}
  else if (decpt <=? 0)%Z then
    {| nt_neg := neg;
       nt_int := "0";
       nt_frac := Some (zeros (Z.to_nat (- decpt)) ++ ds);
       nt_exp := None |}
  else if (n <=? decpt)%Z then
    {| nt_neg := neg;
       nt_int := ds ++ zeros (Z.to_nat (decpt - n));
       nt_frac := Some "0";
       nt_exp := None |}
  else
    {| nt_neg := neg;
       nt_int := take (Z.to_nat decpt) ds;
       nt_frac := Some (drop (Z.to_nat decpt) ds);
       nt_exp := None |}.

(** The decimal [n * 10^k] laid out as [repr] does. *)
Definition decimal_token (neg : bool) (n k : Z) : number_token :=
  let ds := digits_of_Z n in
  layout neg ds (Z.of_nat (String.length ds) + k).

(** [floor (log10 (a / b))] for positive [a] and [b]. *)
Definition ndigits (n : Z) : Z := Z.of_nat (String.length (digits_of_Z n)).

Definition ilog10_ratio (a b : Z) : Z :=
  if (b <=? a)%Z then (ndigits (a / b) - 1)%Z
  else
    let c := ((b + a - 1) / a)%Z in      (* ceiling of b / a, at least 2 *)
    (- ndigits (c - 1))%Z.

(** The fraction [a / (b * 10^k)]. *)
Definition scale10 (a b k : Z) : Z * Z :=
  if (0 <=? k)%Z then (a, b * 10 ^ k)%Z else (a * 10 ^ (- k), b)%Z.

(** The two decimals of [p] digits around [a / b], nearest first (the even
    one on a tie), each with its power of ten. *)
Definition candidates (a b : Z) (p : nat) : list (Z * Z) :=
  let k := (ilog10_ratio a b - (Z.of_nat p - 1))%Z in
  let '(a', b') := scale10 a b k in
  let lo := (a' / b')%Z in
  let r := (a' mod b')%Z in
  let hi := (lo + 1)%Z in
  let hi_k := if (hi =? 10 ^ Z.of_nat p)%Z then (hi / 10, k + 1)%Z else (hi, k) in
  match (2 * r ?= b')%Z with
  | Lt => [(lo, k); hi_k]
  | Gt => [hi_k; (lo, k)]
  | Eq => if Z.even lo then [(lo, k); hi_k] else [hi_k; (lo, k)]
  end.

Definition sf_eqb (x y : spec_float) : bool :=
  match x, y with
  | S754_finite s1 m1 e1, S754_finite s2 m2 e2 =>
      Bool.eqb s1 s2 && Pos.eqb m1 m2 && Z.eqb e1 e2
  | _, _ => false
  end.

(** The first candidate that reads back as the float of sign [neg],
    mantissa [m] and exponent [e]. *)
Fixpoint first_reading_back (neg : bool) (m : positive) (e : Z)
    (cs : list (Z * Z)) : option number_token :=
  match cs with
  | [] => None
  | (n, k) :: cs' =>
      let t := decimal_token neg n k in
      if sf_eqb (sf_of_token t) (S754_finite neg m e) then Some t
      else first_reading_back neg m e cs'
  end.

(** The exact decimal expansion of [m * 2^e]:
    [m * 2^e] itself, or [m * 5^(-e) * 10^e] for a negative [e]. *)
Definition exact_decimal (m : positive) (e : Z) : Z * Z :=
  if (0 <=? e)%Z then (Zpos m * 2 ^ e, 0)%Z
  else (Zpos m * 5 ^ (- e), e)%Z.

(** Try [p], [p + 1], ... digits; the exact expansion, which always reads
    back, bounds the search. *)
Fixpoint shortest_from (fuel p : nat) (neg : bool) (m : positive) (e : Z)
  : number_token :=
  match fuel with
  | O => let '(n, k) := exact_decimal m e in decimal_token neg n k
  | S fuel' =>
      let '(a, b) := scale2 (Zpos m) 1 (- e) in
      match first_reading_back neg m e (candidates a b p) with
      | Some t => t
      | None => shortest_from fuel' (S p) neg m e
      end
  end.

Definition shortest_token (neg : bool) (m : positive) (e : Z)
  : number_token :=
  let '(n, _) := exact_decimal m e in
  shortest_from (String.length (digits_of_Z n)) 1 neg m e.

(** [float.__repr__]. *)
Definition float_repr (x : float) : string :=
  match Prim2SF x with
  | S754_zero s => if s then "-0.0" else "0.0"
  | S754_infinity s => if s then "-inf" else "inf"
  | S754_nan => "nan"
  | S754_finite s m e => token_to_string (shortest_token s m e)
  end.

(** ** Shapes of digit strings and tokens, used to state properties *)

Fixpoint all_digits (s : string) : bool :=
  match s with
  | EmptyString => true
  | String c s' => is_digit c && all_digits s'
  end.

(** The digits of a positive number do not start with 0. *)
Definition no_leading_zero (d : Decimal.uint) : Prop :=
  match d with
  | Decimal.Nil | Decimal.D0 _ => False
  | _ => True
  end.

(** A text that cannot continue a number: it is empty, or starts with
    something other than a digit, a dot or an exponent mark. *)
Definition delimited (s : string) : Prop :=
  match s with
  | EmptyString => True
  | String c _ =>
      is_digit c = false /\ c <> "."%char /\ c <> "e"%char /\ c <> "E"%char
  end.

(** The integer part as the grammar has it: a lone 0, or digits that do
    not start with 0. *)
Definition int_part_ok (s : string) : Prop :=
  all_digits s = true /\
  match s with
  | EmptyString => False
  | String c r => c = "0"%char -> r = EmptyString
  end.

Definition digits_ok (s : string) : Prop :=
  all_digits s = true /\ s <> EmptyString.

Definition token_ok (t : number_token) : Prop :=
  int_part_ok (nt_int t) /\
  match nt_frac t with Some f => digits_ok f | None => True end /\
  match nt_exp t with Some (_, ds) => digits_ok ds | None => True end.

Definition sf_sign (x : spec_float) : bool :=
  match x with
  | S754_zero s | S754_infinity s | S754_finite s _ _ => s
  | S754_nan => false
  end.

(** ** Notions used to reason about reading and writing *)

(** A text that does not start with a digit. *)
Definition not_digit_start (s : string) : Prop :=
  match s with
  | EmptyString => True
  | String c _ => is_digit c = false
  end.

(** The part of a token after its integer digits. *)
Definition tail_string (frac : option string) (ex : option (bool * string))
  : string :=
  match frac with Some f => "." ++ f | None => "" end ++
  match ex with
  | Some (neg, ds) => "e" ++ (if neg then "-" else "+") ++ ds
  | None => ""
  end.

(** [2^x <= p / q]. *)
Definition ge_pow2 (p q x : Z) : Prop :=
  (q * 2 ^ Z.max x 0 <= p * 2 ^ Z.max (- x) 0)%Z.

(** The value [m * 2^e] handed over as the fraction [p / q]. *)
Definition same_value (p q : Z) (m : positive) (e : Z) : Prop :=
  (p * 2 ^ Z.max (- e) 0 = Z.pos m * (q * 2 ^ Z.max e 0))%Z.

(** The decimal [n * 10^k] has the value [m * 2^e]. *)
Definition decimal_is (n k : Z) (m : positive) (e : Z) : Prop :=
  (n * 10 ^ Z.max k 0 * 2 ^ Z.max (- e) 0
   = Z.pos m * 2 ^ Z.max e 0 * 10 ^ Z.max (- k) 0)%Z.

(** Which layout applies. *)
Definition uses_exponent (decpt : Z) : bool :=
  ((decpt <=? -4) || (16 <? decpt))%Z.


(** * JSON

    The values [json.loads] builds and [json.dumps] accepts. A Python
    [str] is represented by its UTF-8 encoding.

    Binary64 has many NaNs (a sign bit and a payload), a primitive float
    only one: which NaN a float is, is not represented. [json.dumps]
    writes every NaN as the same text and [json.loads] reads that text
    as one fixed NaN, so the bits of a NaN need not survive, and no NaN
    compares equal to any float. A float is therefore said to be read
    back as itself only when it is not NaN. *)

Inductive json :=
| JNull
| JBool (b : bool)
| JInt (n : Z)
| JFloat (x : float)
| JStr (s : string)
| JList (l : list json)
| JDict (d : list (string * json)).

(** [d[k] = v]: the value of an existing key is replaced in place, a new
    key goes to the end. *)
Fixpoint dict_set {V} (d : dict V) (k : string) (v : V) : dict V :=
  match d with
  | [] => [(k, v)]
  | (k', v') :: d' =>
      if String.eqb k' k then (k', v) :: d' else (k', v') :: dict_set d' k v
  end.

(** [obj[k]] on a parsed value: only a dict can be indexed by a string. *)
Definition json_getitem (j : json) (k : string) : result json :=
  match j with
  | JDict d => getitem d k
  | _ => Raise TypeError
  end.

(** ** Writing *)

Definition hex_digit (n : N) : ascii :=
  match n with
  | 0 => "0" | 1 => "1" | 2 => "2" | 3 => "3" | 4 => "4" | 5 => "5"
  | 6 => "6" | 7 => "7" | 8 => "8" | 9 => "9" | 10 => "a" | 11 => "b"
  | 12 => "c" | 13 => "d" | 14 => "e" | _ => "f"
  end%N%char.

(** Backslash, u and four lowercase hex digits. *)
Definition u_escape (cp : N) : string :=
  String "\" (String "u"
    (String (hex_digit (N.land (N.shiftr cp 12) 15))
    (String (hex_digit (N.land (N.shiftr cp 8) 15))
    (String (hex_digit (N.land (N.shiftr cp 4) 15))
    (String (hex_digit (N.land cp 15)) ""))))).

(** A code point above the basic plane is written as a surrogate pair. *)
Definition escape_code_point (cp : N) : string :=
  if (cp <? 65536)%N then u_escape cp
  else
    let v := (cp - 65536)%N in
    u_escape (55296 + N.land (N.shiftr v 10) 1023) ++
    u_escape (56320 + N.land v 1023).

Definition cont (c : ascii) : N := N.land (N_of_ascii c) 63.

(** The characters of a string with [ensure_ascii]: printable ASCII as it
    is, the short escapes, and a [u] escape for everything else; a
    multi-byte UTF-8 sequence is one code point. *)
Fixpoint escape_chars (fuel : nat) (s : string) : string :=
  match fuel, s with
  | S fuel', String c s' =>
      let n := N_of_ascii c in
      if (n =? 34)%N then String "\" (String "034" (escape_chars fuel' s'))
      else if (n =? 92)%N then String "\" (String "\" (escape_chars fuel' s'))
      else if (n =? 10)%N then String "\" (String "n" (escape_chars fuel' s'))
      else if (n =? 13)%N then String "\" (String "r" (escape_chars fuel' s'))
      else if (n =? 9)%N then String "\" (String "t" (escape_chars fuel' s'))
      else if (n =? 8)%N then String "\" (String "b" (escape_chars fuel' s'))
      else if (n =? 12)%N then String "\" (String "f" (escape_chars fuel' s'))
      else if ((32 <=? n) && (n <=? 126))%N then String c (escape_chars fuel' s')
      else if (n <? 128)%N then u_escape n ++ escape_chars fuel' s'
      else if (n <? 224)%N then
        match s' with
        | String c1 r =>
            escape_code_point (N.land n 31 * 64 + cont c1)
            ++ escape_chars fuel' r
        | _ => escape_code_point 65533
        end
      else if (n <? 240)%N then
        match s' with
        | String c1 (String c2 r) =>
            escape_code_point (N.land n 15 * 4096 + cont c1 * 64 + cont c2)
            ++ escape_chars fuel' r
        | _ => escape_code_point 65533
        end
      else
        match s' with
        | String c1 (String c2 (String c3 r)) =>
            escape_code_point
              (N.land n 7 * 262144 + cont c1 * 4096 + cont c2 * 64 + cont c3)
            ++ escape_chars fuel' r
        | _ => escape_code_point 65533
        end
  | _, _ => ""
  end.

Definition encode_string (s : string) : string :=
  String "034" (escape_chars (String.length s) s ++ String "034" "").

(** A float: [repr], with the three JavaScript names for the values JSON
    has no syntax for. *)
Definition encode_float (x : float) : string :=
  match Prim2SF x with
  | S754_nan => "NaN"
  | S754_infinity s => if s then "-Infinity" else "Infinity"
  | _ => float_repr x
  end.

Definition encode_int (n : Z) : string :=
  match n with
  | Zneg p => "-" ++ digits_of_Z (Zpos p)
  | _ => digits_of_Z n
  end.

Definition newline : string := String (ascii_of_nat 10) "".

Fixpoint spaces (n : nat) : string :=
  match n with
  | O => ""
  | S n' => String " " (spaces n')
  end.

(** [json.dumps(obj, indent=indent)] at nesting level [lvl]: without an
    indent items are separated by a comma and a space; with one, by a
    comma and a new line indented to the level. *)
Fixpoint dumps_at (indent : option nat) (lvl : nat) (j : json) : string :=
  let open :=
    match indent with
    | Some n => newline ++ spaces (n * S lvl)
    | None => ""
    end in
  let sep :=
    match indent with
    | Some n => "," ++ newline ++ spaces (n * S lvl)
    | None => ", "
    end in
  let close :=
    match indent with
    | Some n => newline ++ spaces (n * lvl)
    | None => ""
    end in
  match j with
  | JNull => "null"
  | JBool b => if b then "true" else "false"
  | JInt n => encode_int n
  | JFloat x => encode_float x
  | JStr s => encode_string s
  | JList [] => "[]"
  | JList (x :: l) =>
      "[" ++ open ++ dumps_at indent (S lvl) x ++
      (fix items (l : list json) : string :=
         match l with
         | [] => ""
         | y :: l' => sep ++ dumps_at indent (S lvl) y ++ items l'
         end) l ++ close ++ "]"
  | JDict [] => "{}"
  | JDict ((k, v) :: d) =>
      "{" ++ open ++ encode_string k ++ ": " ++ dumps_at indent (S lvl) v ++
      (fix items (d : list (string * json)) : string :=
         match d with
         | [] => ""
         | (k', v') :: d' =>
             sep ++ encode_string k' ++ ": " ++ dumps_at indent (S lvl) v'
             ++ items d'
         end) d ++ close ++ "}"
  end.

Definition json_dumps (j : json) : string := dumps_at None 0 j.
Definition json_dumps_indent (n : nat) (j : json) : string :=
  dumps_at (Some n) 0 j.

(** ** Reading *)

Definition is_ws (c : ascii) : bool :=
  let n := nat_of_ascii c in
  (n =? 32)%nat || (n =? 9)%nat || (n =? 10)%nat || (n =? 13)%nat.

Fixpoint skip_ws (s : string) : string :=
  match s with
  | String c s' => if is_ws c then skip_ws s' else s
  | EmptyString => s
  end.

(** [s] without the prefix [p], when it starts with it. *)
Fixpoint strip_prefix (p s : string) : option string :=
  match p, s with
  | EmptyString, _ => Some s
  | String a p', String b s' =>
      if Ascii.eqb a b then strip_prefix p' s' else None
  | _, _ => None
  end.

(** The longest run of digits at the start of [s], and what follows. *)
Fixpoint span_digits (s : string) : string * string :=
  match s with
  | String c s' =>
      if is_digit c then
        let '(ds, r) := span_digits s' in (String c ds, r)
      else ("", s)
  | EmptyString => ("", "")
  end.

Definition lex_int (s : string) : option (string * string) :=
  match s with
  | String c r =>
      if Ascii.eqb c "0" then Some ("0", r)
      else
        match span_digits s with
        | (EmptyString, _) => None
        | (ds, r') => Some (ds, r')
        end
  | EmptyString => None
  end.

Definition lex_frac (s : string) : option string * string :=
  match s with
  | String c r =>
      if Ascii.eqb c "." then
        match span_digits r with
        | (EmptyString, _) => (None, s)
        | (ds, r') => (Some ds, r')
        end
      else (None, s)
  | EmptyString => (None, s)
  end.

(** An optional sign. *)
Definition lex_sign (s : string) : bool * string :=
  match s with
  | String c r =>
      if Ascii.eqb c "-" then (true, r)
      else if Ascii.eqb c "+" then (false, r)
      else (false, s)
  | EmptyString => (false, s)
  end.

Definition lex_exp (s : string) : option (bool * string) * string :=
  match s with
  | String c r =>
      if (Ascii.eqb c "e" || Ascii.eqb c "E")%char then
        let '(neg, r1) := lex_sign r in
        match span_digits r1 with
        | (EmptyString, _) => (None, s)
        | (ds, r') => (Some (neg, ds), r')
        end
      else (None, s)
  | EmptyString => (None, s)
  end.

(** The longest number at the start of [s]. *)
Definition lex_number (s : string) : option (number_token * string) :=
  let '(neg, s1) :=
    match s with
    | String c s1 => if Ascii.eqb c "-" then (true, s1) else (false, s)
    | EmptyString => (false, s)
    end in
  match lex_int s1 with
  | None => None
  | Some (ds, r) =>
      let '(frac, r1) := lex_frac r in
      let '(ex, r2) := lex_exp r1 in
      Some ({| nt_neg := neg; nt_int := ds; nt_frac := frac; nt_exp := ex |},
            r2)
  end.

(** A number with a fraction or an exponent is a float, any other is an
    int. *)
Definition number_value (t : number_token) : json :=
  match nt_frac t, nt_exp t with
  | None, None => JInt (int_of_token t)
  | _, _ => JFloat (float_of_token t)
  end.

Definition hex_val (c : ascii) : option N :=
  let n := N_of_ascii c in
  if ((48 <=? n) && (n <=? 57))%N then Some (n - 48)%N
  else if ((97 <=? n) && (n <=? 102))%N then Some (n - 87)%N
  else if ((65 <=? n) && (n <=? 70))%N then Some (n - 55)%N
  else None.

Definition hex4 (s : string) : option (N * string) :=
  match s with
  | String a (String b (String c (String d r))) =>
      match hex_val a, hex_val b, hex_val c, hex_val d with
      | Some x, Some y, Some z, Some w =>
          Some (x * 4096 + y * 256 + z * 16 + w, r)%N
      | _, _, _, _ => None
      end
  | _ => None
  end.

Definition byte (n : N) : ascii := ascii_of_N n.

(** The UTF-8 encoding of a code point. *)
Definition utf8 (cp : N) : string :=
  if (cp <? 128)%N then String (byte cp) ""
  else if (cp <? 2048)%N then
    String (byte (192 + N.shiftr cp 6))
      (String (byte (128 + N.land cp 63)) "")
  else if (cp <? 65536)%N then
    String (byte (224 + N.shiftr cp 12))
      (String (byte (128 + N.land (N.shiftr cp 6) 63))
        (String (byte (128 + N.land cp 63)) ""))
  else
    String (byte (240 + N.shiftr cp 18))
      (String (byte (128 + N.land (N.shiftr cp 12) 63))
        (String (byte (128 + N.land (N.shiftr cp 6) 63))
          (String (byte (128 + N.land cp 63)) ""))).

(** The characters of a string up to its closing quote (the opening one
    is already consumed). An unescaped control character, an unknown
    escape and a missing closing quote are errors. *)
Fixpoint scan_string (fuel : nat) (s : string) : result (string * string) :=
  match fuel, s with
  | S fuel', String c s' =>
      let n := N_of_ascii c in
      if (n =? 34)%N then Ok ("", s')
      else if (n =? 92)%N then
        match s' with
        | String e r =>
            let plain (x : ascii) :=
              rr <- scan_string fuel' r ;;
              Ok (String x (fst rr), snd rr) in
            let m := N_of_ascii e in
            if (m =? 34)%N then plain "034"%char
            else if (m =? 92)%N then plain "\"%char
            else if (m =? 47)%N then plain "/"%char
            else if (m =? 98)%N then plain (byte 8)
            else if (m =? 102)%N then plain (byte 12)
            else if (m =? 110)%N then plain (byte 10)
            else if (m =? 114)%N then plain (byte 13)
            else if (m =? 116)%N then plain (byte 9)
            else if (m =? 117)%N then
              match hex4 r with
              | Some (u, r1) =>
                  let pair :=
                    if ((55296 <=? u) && (u <=? 56319))%N then
                      match r1 with
                      | String "\" (String "u" r2) =>
                          match hex4 r2 with
                          | Some (u2, r3) =>
                              if ((56320 <=? u2) && (u2 <=? 57343))%N
                              then Some (65536 + (u - 55296) * 1024
                                         + (u2 - 56320), r3)%N
                              else None
                          | None => None
                          end
                      | _ => None
                      end
                    else None in
                  let '(cp, r') :=
                    match pair with Some x => x | None => (u, r1) end in
                  rr <- scan_string fuel' r' ;;
                  Ok (utf8 cp ++ fst rr, snd rr)
              | None => Raise JSONDecodeError
              end
            else Raise JSONDecodeError
        | EmptyString => Raise JSONDecodeError
        end
      else if (n <? 32)%N then Raise JSONDecodeError
      else
        rr <- scan_string fuel' s' ;;
        Ok (String c (fst rr), snd rr)
  | _, _ => Raise JSONDecodeError
  end.

(** What follows the opening brace or bracket, or a comma. *)
Definition starts_with (c : ascii) (s : string) : option string :=
  match s with
  | String c' r => if Ascii.eqb c' c then Some r else None
  | EmptyString => None
  end.

(** A null, a boolean, a number or one of the three float names. *)
Definition parse_atom (s : string) : result (json * string) :=
  match strip_prefix "null" s, strip_prefix "true" s,
        strip_prefix "false" s with
  | Some r, _, _ => Ok (JNull, r)
  | _, Some r, _ => Ok (JBool true, r)
  | _, _, Some r => Ok (JBool false, r)
  | None, None, None =>
      match lex_number s with
      | Some (t, r) => Ok (number_value t, r)
      | None =>
          match strip_prefix "NaN" s, strip_prefix "Infinity" s,
                strip_prefix "-Infinity" s with
          | Some r, _, _ => Ok (JFloat nan, r)
          | _, Some r, _ => Ok (JFloat infinity, r)
          | _, _, Some r => Ok (JFloat neg_infinity, r)
          | None, None, None => Raise JSONDecodeError
          end
      end
  end.

(** One value at the start of [s], and the rest of the text. *)
Fixpoint parse_value (fuel : nat) (s : string) : result (json * string) :=
  match fuel with
  | O => Raise JSONDecodeError
  | S fuel' =>
      match starts_with "034" s, starts_with "{" s, starts_with "[" s with
      | Some r, _, _ =>
          rr <- scan_string (String.length r) r ;;
          Ok (JStr (fst rr), snd rr)
      | _, Some r, _ =>
          let r := skip_ws r in
          match starts_with "}" r with
          | Some r' => Ok (JDict [], r')
          | None => parse_members fuel' [] r
          end
      | _, _, Some r =>
          let r := skip_ws r in
          match starts_with "]" r with
          | Some r' => Ok (JList [], r')
          | None => parse_elements fuel' [] r
          end
      | None, None, None => parse_atom s
      end
  end

(** The members of an object from a key on: [s] must start with the
    quote of a key. *)
with parse_members (fuel : nat) (acc : list (string * json)) (s : string)
  : result (json * string) :=
  match fuel with
  | O => Raise JSONDecodeError
  | S fuel' =>
      match starts_with "034" s with
      | Some r =>
          kr <- scan_string (String.length r) r ;;
          match starts_with ":" (skip_ws (snd kr)) with
          | Some r1 =>
              vr <- parse_value fuel' (skip_ws r1) ;;
              let acc := dict_set acc (fst kr) (fst vr) in
              let r2 := skip_ws (snd vr) in
              match starts_with "}" r2, starts_with "," r2 with
              | Some r3, _ => Ok (JDict acc, r3)
              | _, Some r3 => parse_members fuel' acc (skip_ws r3)
              | None, None => Raise JSONDecodeError
              end
          | None => Raise JSONDecodeError
          end
      | None => Raise JSONDecodeError
      end
  end

(** The elements of an array from a value on. *)
with parse_elements (fuel : nat) (acc : list json) (s : string)
  : result (json * string) :=
  match fuel with
  | O => Raise JSONDecodeError
  | S fuel' =>
      vr <- parse_value fuel' s ;;
      let acc := (acc ++ [fst vr])%list in
      let r := skip_ws (snd vr) in
      match starts_with "]" r, starts_with "," r with
      | Some r', _ => Ok (JList acc, r')
      | _, Some r' => parse_elements fuel' acc (skip_ws r')
      | None, None => Raise JSONDecodeError
      end
  end.

(** [json.loads]: one value, white space allowed around it, nothing
    else. *)
Definition json_loads (s : string) : result json :=
  vr <- parse_value (S (String.length s)) (skip_ws s) ;;
  match skip_ws (snd vr) with
  | EmptyString => Ok (fst vr)
  | _ => Raise JSONDecodeError
  end.

(** ** The values the script writes, used to state properties *)

(** A printable ASCII character other than the quote and the backslash:
    written as it is. *)
Definition plain_char (c : ascii) : bool :=
  let n := N_of_ascii c in
  ((32 <=? n) && (n <=? 126) && negb (n =? 34) && negb (n =? 92))%N.

Fixpoint plain (s : string) : bool :=
  match s with
  | EmptyString => true
  | String c s' => plain_char c && plain s'
  end.

(** The characters of [s] as written, and the closing quote. *)
Definition string_body (s : string) : string :=
  escape_chars (String.length s) s ++ String "034" "".

(** A string that is read back from what is written for it. *)
Definition string_ok (s : string) : Prop :=
  forall rest,
    scan_string (String.length (string_body s ++ rest)) (string_body s ++ rest)
    = Ok (s, rest).

(** Floats, strings and dicts of those with distinct keys: what the
    payloads of the script are made of. *)
Fixpoint payload_like (j : json) : Prop :=
  match j with
  | JFloat _ => True
  | JStr s => string_ok s
  | JDict d =>
      NoDup (map fst d) /\
      (fix all (d : list (string * json)) : Prop :=
         match d with
         | [] => True
         | (k, v) :: d' => string_ok k /\ payload_like v /\ all d'
         end) d
  | _ => False
  end.

(** Nesting and members: the steps the reader needs. *)
Fixpoint steps (j : json) : nat :=
  match j with
  | JDict d =>
      S ((fix sum (d : list (string * json)) : nat :=
            match d with
            | [] => O
            | (_, v) :: d' => S (steps v + sum d')
            end) d)
  | _ => 1
  end.

Definition opening (indent : option nat) (lvl : nat) : string :=
  match indent with
  | Some n => newline ++ spaces (n * S lvl)
  | None => ""
  end.

Definition separator (indent : option nat) (lvl : nat) : string :=
  match indent with
  | Some n => "," ++ newline ++ spaces (n * S lvl)
  | None => ", "
  end.

Definition closing (indent : option nat) (lvl : nat) : string :=
  match indent with
  | Some n => newline ++ spaces (n * lvl)
  | None => ""
  end.

(** The members of a dict after the first one, as written. *)
Fixpoint items_text (indent : option nat) (lvl : nat)
    (d : list (string * json)) : string :=
  match d with
  | [] => ""
  | (k, v) :: d' =>
      separator indent lvl ++ encode_string k ++ ": " ++
      dumps_at indent (S lvl) v ++ items_text indent lvl d'
  end.

Fixpoint members_steps (d : list (string * json)) : nat :=
  match d with
  | [] => O
  | (_, v) :: d' => S (steps v + members_steps d')
  end.

Fixpoint members_ok (d : list (string * json)) : Prop :=
  match d with
  | [] => True
  | (k, v) :: d' => string_ok k /\ payload_like v /\ members_ok d'
  end.

Fixpoint ws_only (s : string) : bool :=
  match s with
  | EmptyString => true
  | String c s' => is_ws c && ws_only s'
  end.

(** What is needed of a written token: it lexes back, it is read as a
    float, and that float is the one written. *)
Definition reads_back (t : number_token) (x : spec_float) : Prop :=
  token_ok t /\ nt_neg t = sf_sign x /\
  number_value t = JFloat (float_of_token t) /\ sf_of_token t = x.

(** Every payload-like value of at most [n] steps, followed by a
    delimiter, is read back as itself. *)
Definition reads_back_within (indent : option nat) (n : nat) : Prop :=
  forall j, (steps j <= n)%nat -> payload_like j ->
  forall fuel lvl rest, (steps j <= fuel)%nat -> delimited rest ->
    parse_value fuel (dumps_at indent lvl j ++ rest) = Ok (j, rest).

(** The text of a value is at least as long as the steps needed to read
    it, so the reader never runs short. *)
Definition long_enough_within (indent : option nat) (n : nat) : Prop :=
  forall j, (steps j <= n)%nat -> payload_like j ->
  forall lvl, (steps j <= String.length (dumps_at indent lvl j))%nat.


(** * The history store (lines 347-375)

    A SQLite file with one table [runs (id INTEGER PRIMARY KEY
    AUTOINCREMENT, timestamp TEXT, inputs_json TEXT, totals_json TEXT)]. *)

Record row := {
  r_id : Z;
  r_timestamp : string;
  r_inputs_json : string;
  r_totals_json : string
}.

(** The file cannot be opened; or it has no [runs] table yet; or it holds
    the rows of the table together with the largest id ever handed out
    (what AUTOINCREMENT keeps in [sqlite_sequence]). *)
Inductive store :=
| Unavailable
| NoTable
| Runs (rows : list row) (seq : Z).

Definition stored_rows (s : store) : option (list row) :=
  match s with
  | Unavailable => None
  | NoTable => Some []
  | Runs rows _ => Some rows
  end.

(** The primary key: no two rows share an id. *)
Definition store_ok (s : store) : Prop :=
  match s with
  | Runs rows _ => NoDup (map r_id rows)
  | _ => True
  end.

(** ** What a run shows

    The calls into the UI library, with the values they are given (the
    library formats and draws them). *)

Record hist_row := {
  h_timestamp : string;
  annual_kg : json;
  transport_kg : json;
  electricity_kg : json;
  diet_kg : json;
  shopping_kg : json
}.

Inductive event :=
| Subheader (title : string)
| Summary (kg t : float)
| Metric (label : string) (kg : float)
| BarChart (bars : list (string * float))
| SavedNotice
| DownloadCSV (columns : list (string * float))
| DownloadJSON (text : string)
| HistoryTable (frame : list hist_row)
| TrendChart (frame : list hist_row)
| NoHistoryInfo
| Bullet (text : string).

(** ** The script as a computation

    A run threads the store and the list of things shown so far, and stops
    at the first exception: what was shown before it stays on the page. *)

Record world := { db : store; shown : list event }.

Definition script (A : Type) : Type := world -> world * result A.

Definition ret {A} (a : A) : script A := fun w => (w, Ok a).

Definition bind {A B} (c : script A) (k : A -> script B) : script B :=
  fun w =>
    match c w with
    | (w', Ok a) => k a w'
    | (w', Raise e) => (w', Raise e)
    end.

Notation "x <~ c ;; k" := (bind c (fun x => k))
  (at level 61, c at next level, right associativity).
Notation "c ;;; k" := (bind c (fun _ => k))
  (at level 61, right associativity).

Definition lift {A} (r : result A) : script A := fun w => (w, r).

Definition emit (e : event) : script unit :=
  fun w => ({| db := db w; shown := shown w ++ [e] |}, Ok tt).

Fixpoint for_each {A} (l : list A) (body : A -> script unit) : script unit :=
  match l with
  | [] => ret tt
  | x :: l' => body x ;;; for_each l' body
  end.

(** ** Store operations *)

(** [init_db]: open the file and create the table when it is missing. *)
Definition init_db : script (list row * Z) :=
  fun w =>
    match db w with
    | Unavailable => (w, Raise OperationalError)
    | NoTable => ({| db := Runs [] 0; shown := shown w |}, Ok ([], 0%Z))
    | Runs rows seq => (w, Ok (rows, seq))
    end.

Fixpoint max_id (rows : list row) : Z :=
  match rows with
  | [] => 0%Z
  | r :: rows' => Z.max (r_id r) (max_id rows')
  end.

(** AUTOINCREMENT: one more than the largest id in the table or ever
    handed out. Ids are unbounded here; SQLite's are signed 64-bit
    integers and it refuses the insert once the largest one is in
    use. *)
Definition next_id (rows : list row) (seq : Z) : Z :=
  (Z.max (max_id rows) seq + 1)%Z.

(** [save_run]; [now] is [datetime.utcnow().isoformat()]. This is the
    insert on a store that accepts it. A store that opens and lists can
    still refuse a write (a read-only file, the largest id in use, a
    full disk), and the insert then raises the storage error and leaves
    no row: those refusals are not represented, so what is said of a
    save is said of a save that returned. *)
Definition save_run (now : string) (inputs totals : json) : script unit :=
  conn <~ init_db ;;
  let '(rows, seq) := conn in
  let id := next_id rows seq in
  let r := {| r_id := id; r_timestamp := now;
              r_inputs_json := json_dumps inputs;
              r_totals_json := json_dumps totals |} in
  fun w => ({| db := Runs (rows ++ [r]) id; shown := shown w |}, Ok tt).

(** [ORDER BY id DESC]. *)
Fixpoint insert_desc (r : row) (l : list row) : list row :=
  match l with
  | [] => [r]
  | x :: l' =>
      if (r_id x <=? r_id r)%Z then r :: l else x :: insert_desc r l'
  end.

Fixpoint order_by_id_desc (l : list row) : list row :=
  match l with
  | [] => []
  | r :: l' => insert_desc r (order_by_id_desc l')
  end.

(** [load_runs]: every row, largest id first. *)
Definition load_runs : script (list row) :=
  conn <~ init_db ;;
  ret (order_by_id_desc (fst conn)).

(** ** Payloads (lines 377-397) *)

Definition inputs_payload (i : inputs) : json :=
  JDict [ ("distance_unit", JStr (distance_unit i));
          ("car_per_week_kg", JFloat (car_per_week_kg i));
          ("flight_km_per_year", JFloat (flight_km_per_year i));
          ("bus_km_per_week", JFloat (bus_km_per_week i));
          ("grid_factor_choice", JStr (country_choice i));
          ("selected_grid_factor", JFloat (selected_grid_factor i));
          ("kwh_per_month", JFloat (kwh_per_month i));
          ("beef_kg_per_week", JFloat (beef_kg_per_week i));
          ("chicken_kg_per_week", JFloat (chicken_kg_per_week i));
          ("currency", JStr (currency i));
          ("spend_usd", JFloat (spend_usd i)) ].

Definition totals_payload (t : totals) : json :=
  JDict [ ("transport_total", JFloat (transport_total t));
          ("electricity_total", JFloat (electricity_total t));
          ("diet_total", JFloat (diet_total t));
          ("shopping_total", JFloat (shopping_total t));
          ("grand_total_kg", JFloat (grand_total_kg t));
          ("grand_total_t", JFloat (grand_total_t t)) ].

(** The JSON download. *)
Definition export_json (i : inputs) (t : totals) : string :=
  json_dumps_indent 2
    (JDict [ ("inputs", inputs_payload i); ("totals", totals_payload t) ]).

(** The single row of the CSV download. *)
Definition export_csv (t : totals) : list (string * float) :=
  [ ("Transport_kg", transport_total t);
    ("Electricity_kg", electricity_total t);
    ("Diet_kg", diet_total t);
    ("Shopping_kg", shopping_total t);
    ("Annual_kg", grand_total_kg t);
    ("Annual_tonnes", grand_total_t t);
    ("Daily_kg", grand_total_kg t / 365);
    ("Weekly_kg", grand_total_kg t / 52);
    ("Monthly_kg", grand_total_kg t / 12) ].

(** ** History (lines 422-446) *)

(** The body of the loop over the stored rows. *)
Definition parse_history_row (r : row) : result hist_row :=
  totals <- json_loads (r_totals_json r) ;;
  a <- json_getitem totals "grand_total_kg" ;;
  tr <- json_getitem totals "transport_total" ;;
  el <- json_getitem totals "electricity_total" ;;
  di <- json_getitem totals "diet_total" ;;
  sh <- json_getitem totals "shopping_total" ;;
  Ok {| h_timestamp := r_timestamp r;
        annual_kg := a;
        transport_kg := tr;
        electricity_kg := el;
        diet_kg := di;
        shopping_kg := sh |}.

Fixpoint parse_history (rows : list row) (parsed : list hist_row)
  : result (list hist_row) :=
  match rows with
  | [] => Ok parsed
  | r :: rows' =>
      h <- parse_history_row r ;;
      parse_history rows' (parsed ++ [h])
  end.

(** The trend chart is drawn from the same frame (ordered by timestamp
    for the plot). *)
Definition render_history : script unit :=
  emit (Subheader "📈 History") ;;;
  history_df <~ load_runs ;;
  if negb (is_empty history_df) then
    hist_df <~ lift (parse_history history_df []) ;;
    emit (HistoryTable hist_df) ;;;
    emit (TrendChart hist_df)
  else
    emit NoHistoryInfo.

(** ** The page, top to bottom *)

Definition render_summary (t : totals) : script unit :=
  emit (Subheader "Summary") ;;;
  emit (Summary (grand_total_kg t) (grand_total_t t)) ;;;
  emit (Metric "Daily" (grand_total_kg t / 365)) ;;;
  emit (Metric "Weekly" (grand_total_kg t / 52)) ;;;
  emit (Metric "Monthly" (grand_total_kg t / 12)) ;;;
  emit (Metric "Annual" (grand_total_kg t)).

Definition render_breakdown (t : totals) : script unit :=
  emit (Subheader "🌱 Breakdown by category") ;;;
  emit (BarChart [ ("Transport", transport_total t);
                   ("Electricity", electricity_total t);
                   ("Diet", diet_total t);
                   ("Shopping", shopping_total t) ]).

Definition render_save_download (now : string) (clicked : bool)
    (i : inputs) (t : totals) : script unit :=
  emit (Subheader "💾 Save & Download") ;;;
  (if clicked then
     save_run now (inputs_payload i) (totals_payload t) ;;;
     emit SavedNotice
   else ret tt) ;;;
  emit (DownloadCSV (export_csv t)) ;;;
  emit (DownloadJSON (export_json i t)).

Definition render_suggestions (i : inputs) : script unit :=
  emit (Subheader "💡 Suggestions") ;;;
  for_each (suggestions i) (fun s => emit (Bullet s)).

Definition page (now : string) (w : widgets) : script unit :=
  i <~ lift (read_sidebar w) ;;
  t <~ lift (calculate i) ;;
  render_summary t ;;;
  render_breakdown t ;;;
  render_save_download now (w_save_clicked w) i t ;;;
  render_history ;;;
  render_suggestions i.

(** ** Notions used to state properties of the page *)

(** Largest id first, no two equal. *)
Definition newest_first (l : list row) : Prop :=
  StronglySorted (fun a b => (r_id b < r_id a)%Z) l.

(** The stores the script itself can produce: a new file, then one
    [save_run] after another. *)
Inductive reachable : store -> Prop :=
| reach_new : reachable NoTable
| reach_save (s : store) (now : string) (i t : json) (sh : list event)
    (w' : world) :
    reachable s ->
    save_run now i t {| db := s; shown := sh |} = (w', Ok tt) ->
    reachable (db w').

(** The weak form: ids never increase along the list. *)
Definition non_increasing (l : list row) : Prop :=
  StronglySorted (fun a b => (r_id b <= r_id a)%Z) l.

(** The rows whose payload can be read, read. *)
Fixpoint parsed_rows (rows : list row) : list hist_row :=
  match rows with
  | [] => []
  | r :: rows' =>
      match parse_history_row r with
      | Ok h => h :: parsed_rows rows'
      | Raise _ => parsed_rows rows'
      end
  end.

(** The exception of the first row whose payload cannot be read. *)
Fixpoint first_error (rows : list row) : option exn :=
  match rows with
  | [] => None
  | r :: rows' =>
      match parse_history_row r with
      | Ok _ => first_error rows'
      | Raise e => Some e
      end
  end.

Definition summary_events (t : totals) : list event :=
  [ Subheader "Summary";
    Summary (grand_total_kg t) (grand_total_t t);
    Metric "Daily" (grand_total_kg t / 365);
    Metric "Weekly" (grand_total_kg t / 52);
    Metric "Monthly" (grand_total_kg t / 12);
    Metric "Annual" (grand_total_kg t);
    Subheader "🌱 Breakdown by category";
    BarChart [ ("Transport", transport_total t);
               ("Electricity", electricity_total t);
               ("Diet", diet_total t);
               ("Shopping", shopping_total t) ] ].

Definition download_events (i : inputs) (t : totals) : list event :=
  [ DownloadCSV (export_csv t); DownloadJSON (export_json i t) ].

(** A run that meets an unusable store and still completes, telling the
    user there is no history. *)
Definition degrades_gracefully (now : string) (w : widgets) : Prop :=
  exists shown',
    page now w {| db := Unavailable; shown := [] |}
      = ({| db := Unavailable; shown := shown' |}, Ok tt) /\
    In NoHistoryInfo shown'.


(** ** Sample store contents *)

Definition sample_totals : totals :=
  {| transport_total := 1205.4399999999998;
     electricity_total := 1656.0;
     diet_total := 600.6;
     shopping_total := 720.0;
     grand_total_kg := 4182.039999999999;
     grand_total_t := 4.182039999999999 |}.

Definition good_row (id : Z) : row :=
  {| r_id := id;
     r_timestamp := "2024-05-01T10:00:00";
     r_inputs_json := "{}";
     r_totals_json := json_dumps (totals_payload sample_totals) |}.

(** A row whose payload was cut short. *)
Definition truncated_row (id : Z) : row :=
  {| r_id := id;
     r_timestamp := "2024-05-02T10:00:00";
     r_inputs_json := "{}";
     r_totals_json := "{" |}.

(** A row whose payload is valid JSON without the expected keys. *)
Definition keyless_row (id : Z) : row :=
  {| r_id := id;
     r_timestamp := "2024-05-03T10:00:00";
     r_inputs_json := "{}";
     r_totals_json := "{}" |}.

(** The radios and the select box hold one of their options. *)
Definition options_ok (w : widgets) : Prop :=
  In (w_distance_unit w) ["km"; "miles"] /\
  In (w_currency w) ["NGN"; "USD"] /\
  In (w_country_choice w) (dict_keys COUNTRY_GRID_FACTORS).

(** None of the numbers of the inputs payload is NaN. *)
Definition inputs_not_nan (i : inputs) : Prop :=
  not_nan (car_per_week_kg i) /\
  not_nan (flight_km_per_year i) /\
  not_nan (bus_km_per_week i) /\
  not_nan (selected_grid_factor i) /\
  not_nan (kwh_per_month i) /\
  not_nan (beef_kg_per_week i) /\
  not_nan (chicken_kg_per_week i) /\
  not_nan (spend_usd i).

(** [y] is the number [x]: it compares equal to it (Python's [==]) and
    is the same binary64 value, the sign of a zero included. *)
Definition same_number (x y : float) : Prop :=
  (x =? y) = true /\ x = y.

(** The totals payload, written and read, gives back every figure as
    the same number. *)
Definition totals_read_back_same (t : totals) : Prop :=
  exists j,
    json_loads (json_dumps (totals_payload t)) = Ok j /\
    forall k x,
      json_getitem (totals_payload t) k = Ok (JFloat x) ->
      exists y, json_getitem j k = Ok (JFloat y) /\ same_number x y.

(** What the JSON download holds before it is written. *)
Definition export_document (i : inputs) (t : totals) : json :=
  JDict [ ("inputs", inputs_payload i); ("totals", totals_payload t) ].

(** A row as [save_run] writes it. *)
Definition saved_row (id : Z) (now : string) (i : inputs) (t : totals) : row :=
  {| r_id := id;
     r_timestamp := now;
     r_inputs_json := json_dumps (inputs_payload i);
     r_totals_json := json_dumps (totals_payload t) |}.

(** * The figures of the summary (lines 309-315)

    The f-strings of the summary format a float with [.2f], [.0f] or
    [,.0f]: the decimal with that many fraction digits nearest to the
    float (a tie on the exact binary value goes to the even last digit),
    a minus sign whenever the sign bit is set, no point when there are no
    fraction digits, and with the comma option a comma every three
    integer digits. Not-a-number and the infinities are written by
    name. *)

(** The integer nearest to [m * 2^e * 10^prec]. *)
Definition fixed_units (prec : nat) (m : positive) (e : Z) : Z :=
  let '(a, b) := scale2 (Zpos m * 10 ^ Z.of_nat prec) 1 (- e) in
  round_half_even a b.

Definition pad_left (n : nat) (ds : string) : string :=
  zeros (n - String.length ds) ++ ds.

(** A comma before every digit that has a multiple of three digits
    behind it. *)
Fixpoint group3 (s : string) : string :=
  match s with
  | EmptyString => ""
  | String c s' =>
      String c
        (if (negb (String.length s' =? 0) && (String.length s' mod 3 =? 0))%nat
         then String "," (group3 s')
         else group3 s')
  end.

(** [n] units of [10^-prec] written with [prec] fraction digits. *)
Definition fixed_text (grouping : bool) (prec : nat) (n : Z) : string :=
  let ds := pad_left (S prec) (digits_of_Z n) in
  let k := (String.length ds - prec)%nat in
  let ip := take k ds in
  (if grouping then group3 ip else ip) ++
  (if (prec =? 0)%nat then "" else "." ++ drop k ds).

(** [format(x, ".<prec>f")], and [format(x, ",.<prec>f")] with
    [grouping]. *)
Definition format_f (grouping : bool) (prec : nat) (x : float) : string :=
  match Prim2SF x with
  | S754_nan => "nan"
  | S754_infinity s => if s then "-inf" else "inf"
  | S754_zero s => (if s then "-" else "") ++ fixed_text grouping prec 0
  | S754_finite s m e =>
      (if s then "-" else "") ++ fixed_text grouping prec (fixed_units prec m e)
  end.

(** Line 309: the sentence of the summary. *)
Definition summary_text (t : totals) : string :=
  "Estimated annual footprint: " ++ format_f true 0 (grand_total_kg t) ++
  " kg CO₂e (" ++ format_f false 2 (grand_total_t t) ++ " tonnes)".

(** Lines 312-315: label and value of the four metrics. *)
Definition metric_texts (t : totals) : list (string * string) :=
  [ ("Daily", format_f false 2 (grand_total_kg t / 365) ++ " kg CO₂e");
    ("Weekly", format_f false 2 (grand_total_kg t / 52) ++ " kg CO₂e");
    ("Monthly", format_f false 2 (grand_total_kg t / 12) ++ " kg CO₂e");
    ("Annual", format_f false 0 (grand_total_kg t) ++ " kg CO₂e") ].

(** * Further notions used to state properties *)

(** ** The sidebar *)

(** Python's [x == 0]: a zero of either sign. *)
Definition is_zero (x : float) : Prop := (x =? 0) = true.

(** Two sidebars that agree on every widget the script reads: the radios,
    the select box, the boxes that are always read, the car box of the
    selected unit, the custom grid box when the custom entry is selected,
    the spend boxes of the selected currency, and the save button. *)
Definition same_visible (w w' : widgets) : Prop :=
  w_distance_unit w = w_distance_unit w' /\
  w_currency w = w_currency w' /\
  w_country_choice w = w_country_choice w' /\
  (if String.eqb (w_distance_unit w) "miles"
   then w_car_miles w = w_car_miles w'
   else w_car_km w = w_car_km w') /\
  w_flight_km_per_year w = w_flight_km_per_year w' /\
  w_bus_km_per_week w = w_bus_km_per_week w' /\
  (if String.eqb (w_country_choice w) custom_label
   then w_custom_grid_factor w = w_custom_grid_factor w'
   else True) /\
  w_kwh_per_month w = w_kwh_per_month w' /\
  w_beef_kg_per_week w = w_beef_kg_per_week w' /\
  w_chicken_kg_per_week w = w_chicken_kg_per_week w' /\
  (if String.eqb (w_currency w) "USD"
   then w_spend_usd w = w_spend_usd w'
   else w_ngn_per_month w = w_ngn_per_month w' /\
        w_fx_rate w = w_fx_rate w') /\
  w_save_clicked w = w_save_clicked w'.

(** [miles_120] with other values left in the boxes that are not shown. *)
Definition miles_120_other_hidden : widgets :=
  {| w_distance_unit := "miles";
     w_currency := "USD";
     w_car_miles := 120;
     w_car_km := 0;
     w_flight_km_per_year := 0;
     w_bus_km_per_week := 0;
     w_country_choice := "Nigeria";
     w_custom_grid_factor := 7.5;
     w_kwh_per_month := 0;
     w_beef_kg_per_week := 0;
     w_chicken_kg_per_week := 0;
     w_spend_usd := 0;
     w_ngn_per_month := 250000;
     w_fx_rate := 0;
     w_save_clicked := false |}.

(** Every quantity the script reads is zero. *)
Definition zero_quantities (w : widgets) : Prop :=
  is_zero (if String.eqb (w_distance_unit w) "miles"
           then w_car_miles w else w_car_km w) /\
  is_zero (w_flight_km_per_year w) /\
  is_zero (w_bus_km_per_week w) /\
  is_zero (w_kwh_per_month w) /\
  is_zero (w_beef_kg_per_week w) /\
  is_zero (w_chicken_kg_per_week w) /\
  is_zero (if String.eqb (w_currency w) "USD"
           then w_spend_usd w else w_ngn_per_month w).

(** ** Suggestions *)

(** The four rule messages in the order the script tests the rules. *)
Definition rule_messages : list string :=
  [msg_beef; msg_car; msg_power; msg_flight].

(** [l] is [l'] with some elements left out. *)
Inductive subseq {A : Type} : list A -> list A -> Prop :=
| subseq_nil (l' : list A) : subseq [] l'
| subseq_keep (x : A) (l l' : list A) : subseq l l' -> subseq (x :: l) (x :: l')
| subseq_drop (x : A) (l l' : list A) : subseq l l' -> subseq l (x :: l').

(** Whether the car rule fires. *)
Definition car_rule (i : inputs) : bool :=
  if String.eqb (distance_unit i) "miles"
  then gt (miles_per_week i) 100
  else gt (km_per_week i) 160.

(** ** The store and the page *)

(** The store once [init_db] has run on it. *)
Definition opened (s : store) : store :=
  match s with
  | NoTable => Runs [] 0
  | _ => s
  end.

(** The largest id handed out so far, as the store records it. *)
Definition store_seq (s : store) : Z :=
  match s with
  | Runs _ seq => seq
  | _ => 0%Z
  end.

(** What the history section shows for the stored rows, and how it
    ends. *)
Definition history_outcome (rows : list row) : list event * result unit :=
  if is_empty rows then
    ([Subheader "📈 History"; NoHistoryInfo], Ok tt)
  else
    let listing := order_by_id_desc rows in
    match first_error listing with
    | None =>
        ([ Subheader "📈 History";
           HistoryTable (parsed_rows listing);
           TrendChart (parsed_rows listing) ], Ok tt)
    | Some e => ([Subheader "📈 History"], Raise e)
    end.

(** The suggestions section. *)
Definition suggestion_events (i : inputs) : list event :=
  Subheader "💡 Suggestions" :: map Bullet (suggestions i).

(** The rows of the store after the save section of a run. *)
Definition rows_after_save (now : string) (clicked : bool)
    (i : inputs) (t : totals) (s : store) (rows : list row) : list row :=
  if clicked then
    (rows ++ [saved_row (next_id rows (store_seq s)) now i t])%list
  else rows.

(** A row the history loop can read. *)
Definition readable (r : row) : Prop :=
  exists h, parse_history_row r = Ok h.


(** The line of the history table for a run saved at [now]. *)
Definition history_line (now : string) (t : totals) : hist_row :=
  {| h_timestamp := now;
     annual_kg := JFloat (grand_total_kg t);
     transport_kg := JFloat (transport_total t);
     electricity_kg := JFloat (electricity_total t);
     diet_kg := JFloat (diet_total t);
     shopping_kg := JFloat (shopping_total t) |}.

(** ** JSON values and figures *)

(** Floats, strings of printable ASCII characters without quote and
    backslash, and dicts of those under distinct keys of that kind. *)
Fixpoint plain_payload (j : json) : Prop :=
  match j with
  | JFloat _ => True
  | JStr s => plain s = true
  | JDict d =>
      NoDup (map fst d) /\
      (fix all (d : list (string * json)) : Prop :=
         match d with
         | [] => True
         | (k, v) :: d' => plain k = true /\ plain_payload v /\ all d'
         end) d
  | _ => False
  end.

(** No float of the value is NaN. *)
Fixpoint nan_free (j : json) : Prop :=
  match j with
  | JFloat x => not_nan x
  | JList l =>
      (fix all (l : list json) : Prop :=
         match l with
         | [] => True
         | v :: l' => nan_free v /\ all l'
         end) l
  | JDict d =>
      (fix all (d : list (string * json)) : Prop :=
         match d with
         | [] => True
         | (_, v) :: d' => nan_free v /\ all d'
         end) d
  | _ => True
  end.

Fixpoint plain_members (d : list (string * json)) : Prop :=
  match d with
  | [] => True
  | (k, v) :: d' => plain k = true /\ plain_payload v /\ plain_members d'
  end.

(** A small nested document. *)
Definition sample_document : json :=
  JDict [ ("unit", JStr "km");
          ("factor", JFloat 0.251);
          ("totals", JDict [ ("kg", JFloat 4182.039999999999);
                             ("t", JFloat 4.182039999999999) ]) ].

(** A text without its commas. *)
Fixpoint remove_commas (s : string) : string :=
  match s with
  | EmptyString => ""
  | String c s' =>
      if Ascii.eqb c "," then remove_commas s' else String c (remove_commas s')
  end.

(** The pieces of a text between its commas. *)
Fixpoint split_commas (s : string) : list string :=
  match s with
  | EmptyString => [""]
  | String c s' =>
      if Ascii.eqb c "," then "" :: split_commas s'
      else
        match split_commas s' with
        | g :: gs => String c g :: gs
        | [] => [String c ""]
        end
  end.

(** [n] is an integer nearest to [m * 2^e * 10^prec], the even one when
    two are equally near. *)
Definition nearest_units (prec : nat) (m : positive) (e n : Z) : Prop :=
  let a := (Zpos m * 10 ^ Z.of_nat prec * 2 ^ Z.max e 0)%Z in
  let b := (2 ^ Z.max (- e) 0)%Z in
  (2 * Z.abs (a - n * b) <= b)%Z /\
  ((2 * Z.abs (a - n * b) = b)%Z -> Z.even n = true).

(** ** The keys the history loop reads *)

Definition history_keys : list string :=
  [ "grand_total_kg"; "transport_total"; "electricity_total";
    "diet_total"; "shopping_total" ].

(** The first of the keys that a dict lacks. *)
Definition first_missing (d : list (string * json)) (keys : list string)
  : option string :=
  find (fun k => match dict_get d k with None => true | Some _ => false end)
       keys.

(** A payload written by another tool: no total in tonnes, one more key,
    another order. *)
Definition foreign_payload : json :=
  JDict [ ("note", JStr "imported");
          ("shopping_total", JFloat 720);
          ("diet_total", JFloat 600.6);
          ("electricity_total", JFloat 1656);
          ("transport_total", JFloat 1205.4399999999998);
          ("grand_total_kg", JFloat 4182.039999999999) ].

Definition foreign_row (id : Z) : row :=
  {| r_id := id;
     r_timestamp := "2024-05-05T08:00:00";
     r_inputs_json := "{}";
     r_totals_json := json_dumps foreign_payload |}.

(** * Facts about binary64 comparison

    The primitive comparisons are specified by [SFcompare] on the decoded
    float; the lemmas below are what the script's [>] tests need. *)

Lemma SFcompare_swap (x y : spec_float) :
  SFcompare y x = option_map CompOpp (SFcompare x y).
Proof.
  destruct x as [sx|sx| |sx mx ex], y as [sy|sy| |sy my ey]; simpl;
    try reflexivity;
    try (destruct sx; reflexivity);
    try (destruct sy; reflexivity);
    try (destruct sx, sy; reflexivity).
  destruct sx, sy; simpl; try reflexivity.
  - rewrite (Z.compare_antisym ex ey).
    destruct (ex ?= ey)%Z; simpl; try reflexivity.
    rewrite CompOpp_involutive. f_equal.
    exact (Pos.compare_cont_antisym my mx Eq).
  - rewrite (Z.compare_antisym ex ey).
    destruct (ex ?= ey)%Z; simpl; try reflexivity.
    f_equal. exact (eq_sym (Pos.compare_cont_antisym mx my Eq)).
Qed.

(** [x <= y] rules out [x > y]. *)
Lemma leb_not_gt (x y : float) : (x <=? y) = true -> gt x y = false.
Proof.
  unfold gt. rewrite leb_spec, ltb_spec. unfold SFleb, SFltb.
  rewrite (SFcompare_swap (Prim2SF x) (Prim2SF y)).
  destruct (SFcompare (Prim2SF x) (Prim2SF y)) as [[]|]; simpl; congruence.
Qed.

Lemma eqb_refl_not_nan (x : float) :
  is_nan x = false -> (x =? x) = true.
Proof.
  unfold is_nan. intros H. apply negb_false_iff in H. exact H.
Qed.

(** A float that is at least one is not a zero. *)
Lemma one_leb_nonzero (r : float) : (1 <=? r) = true -> (r =? 0) = false.
Proof.
  rewrite leb_spec, eqb_spec. unfold SFleb, SFeqb.
  change (Prim2SF 1) with (S754_finite false 4503599627370496 (-52)).
  change (Prim2SF 0) with (S754_zero false).
  destruct (Prim2SF r) as [s|s| |s m e]; simpl; try congruence;
    destruct s; simpl; congruence.
Qed.

(** * Signs of binary64 results *)

Lemma iter_pos_inv {A} (P : A -> Prop) (f : A -> A) :
  (forall a, P a -> P (f a)) ->
  forall p a, P a -> P (iter_pos f p a).
Proof.
  intros Hf. induction p as [p IH|p IH|]; intros a Ha; simpl; auto.
Qed.

Lemma shr_1_nonneg (mrs : shr_record) :
  (0 <= shr_m mrs)%Z -> (0 <= shr_m (shr_1 mrs))%Z.
Proof.
  destruct mrs as [m r s]. simpl.
  destruct m as [|[p|p|]|p]; simpl; lia.
Qed.

Lemma shr_nonneg (mrs : shr_record) (e n : Z) :
  (0 <= shr_m mrs)%Z -> (0 <= shr_m (fst (shr mrs e n)))%Z.
Proof.
  intros H. unfold shr. destruct n as [|p|p]; simpl; auto.
  apply (iter_pos_inv (fun r => (0 <= shr_m r)%Z)); auto using shr_1_nonneg.
Qed.

Lemma shr_fexp_nonneg (m e : Z) (l : location) :
  (0 <= m)%Z -> (0 <= shr_m (fst (shr_fexp prec emax m e l)))%Z.
Proof.
  intros H. unfold shr_fexp. apply shr_nonneg.
  destruct l as [|[]]; simpl; exact H.
Qed.

Lemma round_nearest_even_nonneg (m : Z) (l : location) :
  (0 <= m)%Z -> (0 <= round_nearest_even m l)%Z.
Proof.
  intros H. destruct l as [|[]]; simpl; try lia.
  destruct (Z.even m); lia.
Qed.

(** Rounding a non-negative mantissa with sign [+] gives a non-negative
    float: a zero, a positive finite number or plus infinity. *)
Lemma binary_round_aux_nonneg (m e : Z) (l : location) :
  (0 <= m)%Z -> sf_nonneg (binary_round_aux prec emax false m e l) = true.
Proof.
  intros H. unfold binary_round_aux.
  pose proof (shr_fexp_nonneg m e l H) as H1.
  destruct (shr_fexp prec emax m e l) as [mrs' e']. simpl in H1.
  pose proof (shr_fexp_nonneg _ e' loc_Exact
    (round_nearest_even_nonneg _ (loc_of_shr_record mrs') H1)) as H2.
  destruct (shr_fexp prec emax
    (round_nearest_even (shr_m mrs') (loc_of_shr_record mrs')) e' loc_Exact)
    as [mrs'' e'']. simpl in H2.
  destruct (shr_m mrs'') as [|p|p]; try reflexivity; try lia.
  destruct (e'' <=? emax - prec)%Z; reflexivity.
Qed.

Lemma binary_round_nonneg (m : positive) (e : Z) :
  sf_nonneg (binary_round prec emax false m e) = true.
Proof.
  unfold binary_round.
  destruct (shl_align m e (fexp prec emax (Z.pos (digits2_pos m) + e)))
    as [mz ez].
  apply binary_round_aux_nonneg. lia.
Qed.

Lemma SFmul_nonneg (x y : spec_float) :
  sf_nonneg x = true -> sf_nonneg y = true ->
  sf_finite x = true -> sf_finite y = true ->
  sf_nonneg (SF64mul x y) = true.
Proof.
  destruct x as [sx|sx| |sx mx ex], y as [sy|sy| |sy my ey]; simpl;
    try discriminate; try reflexivity; intros Hx Hy _ _.
  apply negb_true_iff in Hx, Hy. subst sx sy. simpl.
  apply binary_round_aux_nonneg. lia.
Qed.

(** Multiplying by a positive finite factor keeps [0 <= x], also for an
    infinite [x]. *)
Lemma SFmul_nonneg_posfin (x y : spec_float) :
  sf_nonneg x = true -> sf_posfin y = true ->
  sf_nonneg (SF64mul x y) = true.
Proof.
  destruct x as [sx|sx| |sx mx ex], y as [sy|sy| |[] my ey]; simpl;
    try discriminate; try reflexivity; intros Hx _;
    try (rewrite xorb_false_r; exact Hx).
  apply negb_true_iff in Hx. subst sx. simpl.
  apply binary_round_aux_nonneg. lia.
Qed.

Lemma SFadd_nonneg (x y : spec_float) :
  sf_nonneg x = true -> sf_nonneg y = true ->
  sf_nonneg (SF64add x y) = true.
Proof.
  destruct x as [sx|sx| |sx mx ex], y as [sy|sy| |sy my ey]; simpl;
    try discriminate; try reflexivity; intros Hx Hy;
    try (apply negb_true_iff in Hx; subst sx);
    try (apply negb_true_iff in Hy; subst sy);
    try reflexivity.
  - destruct sx, sy; reflexivity.
  - simpl.
    apply binary_round_nonneg.
Qed.

(** Dividing by a positive finite divisor keeps [0 <= x]. *)
Lemma SFdiv_nonneg_posfin (x y : spec_float) :
  sf_nonneg x = true -> sf_posfin y = true ->
  sf_nonneg (SF64div x y) = true.
Proof.
  destruct x as [sx|sx| |sx mx ex], y as [sy|sy| |[] my ey]; simpl;
    try discriminate; try reflexivity; intros Hx _;
    try (rewrite xorb_false_r; exact Hx).
  apply negb_true_iff in Hx. subst sx. simpl.
  unfold SFdiv_core_binary.
  set (s := (ex - ey - _)%Z).
  set (m' := match s with Z.pos _ => _ | Z0 => _ | Z.neg _ => _ end).
  assert (Hm' : (0 <= m')%Z).
  { subst m'. destruct s; try lia. apply Z.shiftl_nonneg. lia. }
  pose proof (Z_div_mod m' (Z.pos my) ltac:(lia)) as Hd.
  destruct (Z.div_eucl m' (Z.pos my)) as [q r].
  apply binary_round_aux_nonneg. nia.
Qed.

(** * The same facts on primitive floats *)

Lemma nonneg_spec (x : float) : nonneg x <-> sf_nonneg (Prim2SF x) = true.
Proof.
  unfold nonneg. rewrite leb_spec. unfold SFleb.
  change (Prim2SF 0) with (S754_zero false).
  destruct (Prim2SF x) as [s|s| |s m e]; simpl; try tauto;
    destruct s; simpl; split; congruence.
Qed.

Lemma number_input_finite (lo x : float) :
  nonneg lo -> number_input_ok lo x ->
  sf_nonneg (Prim2SF x) = true /\ sf_finite (Prim2SF x) = true.
Proof.
  intros Hlo [H1 H2]. apply nonneg_spec in Hlo.
  revert H1 H2. rewrite leb_spec, ltb_spec. unfold SFleb, SFltb.
  change (Prim2SF infinity) with (S754_infinity false).
  destruct (Prim2SF lo) as [sl|sl| |sl ml el]; simpl in Hlo; try discriminate;
    destruct (Prim2SF x) as [s|s| |s m e]; simpl;
    try (apply negb_true_iff in Hlo; subst sl);
    try destruct s; simpl; intros; try discriminate; auto;
    destruct sl; discriminate.
Qed.

Lemma mul_nonneg_posfin (x c : float) :
  nonneg x -> posfin c -> nonneg (x * c).
Proof.
  rewrite !nonneg_spec, mul_spec. apply SFmul_nonneg_posfin.
Qed.

Lemma mul_nonneg_finite (x y : float) :
  nonneg x -> nonneg y ->
  sf_finite (Prim2SF x) = true -> sf_finite (Prim2SF y) = true ->
  nonneg (x * y).
Proof.
  rewrite !nonneg_spec, mul_spec. apply SFmul_nonneg.
Qed.

Lemma add_nonneg (x y : float) : nonneg x -> nonneg y -> nonneg (x + y).
Proof.
  rewrite !nonneg_spec, add_spec. apply SFadd_nonneg.
Qed.

Lemma div_nonneg_posfin (x c : float) :
  nonneg x -> posfin c -> nonneg (x / c).
Proof.
  rewrite !nonneg_spec, div_spec. apply SFdiv_nonneg_posfin.
Qed.

Lemma below_infinity_finite (x : float) :
  nonneg x -> (x <? infinity) = true -> sf_finite (Prim2SF x) = true.
Proof.
  intros H. apply nonneg_spec in H. revert H.
  rewrite ltb_spec. unfold SFltb.
  change (Prim2SF infinity) with (S754_infinity false).
  destruct (Prim2SF x) as [s|s| |s m e]; simpl; try discriminate; auto.
  destruct s; simpl; discriminate.
Qed.

Lemma positive_finite_posfin (x : float) :
  (0 <? x) = true -> (x <? infinity) = true -> posfin x.
Proof.
  unfold posfin. rewrite !ltb_spec. unfold SFltb.
  change (Prim2SF 0) with (S754_zero false).
  change (Prim2SF infinity) with (S754_infinity false).
  destruct (Prim2SF x) as [s|s| |s m e]; simpl; try discriminate;
    destruct s; simpl; try discriminate; auto.
Qed.

Lemma at_least_one_posfin (x : float) : number_input_ok 1 x -> posfin x.
Proof.
  intros [H1 H2]. apply positive_finite_posfin; [ | exact H2 ].
  revert H1. rewrite leb_spec, ltb_spec. unfold SFleb, SFltb.
  change (Prim2SF 1) with (S754_finite false 4503599627370496 (-52)).
  change (Prim2SF 0) with (S754_zero false).
  destruct (Prim2SF x) as [s|s| |s m e]; simpl; try discriminate;
    destruct s; simpl; try discriminate; auto.
Qed.

(** * The calculator *)

(** The factor table has every key the script reads. *)
Lemma emission_factor_values :
  getitem EMISSION_FACTORS "mile_driven" = Ok 0.404 /\
  getitem EMISSION_FACTORS "km_driven" = Ok 0.251 /\
  getitem EMISSION_FACTORS "flight_km" = Ok 0.115 /\
  getitem EMISSION_FACTORS "bus_km" = Ok 0.089 /\
  getitem EMISSION_FACTORS "beef_kg" = Ok 27.0 /\
  getitem EMISSION_FACTORS "chicken_kg" = Ok 6.9 /\
  getitem EMISSION_FACTORS "shopping_usd" = Ok 0.6.
Proof. repeat split; reflexivity. Qed.

(** C1: the four subtotals and the totals are computed by the fixed
    formulas: transport = car * 52 + flight * 0.115 + bus * 52 * 0.089,
    electricity = kwh * 12 * grid factor, diet = beef * 52 * 27.0 +
    chicken * 52 * 6.9, shopping = spend * 12 * 0.6, and the total in
    tonnes is the total in kg divided by 1000. The calculation never
    raises. *)
Theorem calculate_formulas (i : inputs) :
  exists t, calculate i = Ok t /\
    transport_total t =
      car_per_week_kg i * 52 + flight_km_per_year i * 0.115
      + bus_km_per_week i * 52 * 0.089 /\
    electricity_total t = kwh_per_month i * 12 * selected_grid_factor i /\
    diet_total t =
      beef_kg_per_week i * 52 * 27.0 + chicken_kg_per_week i * 52 * 6.9 /\
    shopping_total t = spend_usd i * 12 * 0.6 /\
    grand_total_t t = grand_total_kg t / 1000.
Proof.
  eexists. split; [ reflexivity | ]. simpl. repeat split.
Qed.

(** The total in kg is the float that the sum of the four subtotals
    evaluates to, whatever the inputs. *)
Lemma grand_total_is_sum (i : inputs) :
  exists t, calculate i = Ok t /\
    grand_total_kg t =
      transport_total t + electricity_total t + diet_total t
      + shopping_total t.
Proof.
  eexists. split; reflexivity.
Qed.

(** The typical run, float for float: about 1205.44 kg of transport,
    1656 kg of electricity, 600.6 kg of diet and 720 kg of shopping, 4.18
    tonnes in all. The decimals are the shortest that denote each
    float. *)
Lemma typical_run :
  run_totals typical_widgets
  = Ok {| transport_total := 1205.4399999999998;
          electricity_total := 1656.0;
          diet_total := 600.6;
          shopping_total := 720.0;
          grand_total_kg := 4182.039999999999;
          grand_total_t := 4.182039999999999 |}.
Proof. reflexivity. Qed.

(** Python's [==] agrees with that identity whenever the total is a
    number: only a NaN total compares unequal to the sum. *)
Lemma grand_total_eqb_sum (i : inputs) (t : totals) :
  calculate i = Ok t ->
  is_nan (grand_total_kg t) = false ->
  (grand_total_kg t =?
     transport_total t + electricity_total t + diet_total t
     + shopping_total t) = true.
Proof.
  intros H Hn. injection H as <-. simpl in *.
  now apply eqb_refl_not_nan.
Qed.

(** * Currency normalisation *)

Lemma read_spend_ngn (w : widgets) (n r : float) :
  (1 <=? r) = true -> read_spend (enter_ngn w n r) = Ok (n / r).
Proof.
  intros H. unfold read_spend, truediv. simpl.
  now rewrite (one_leb_nonzero r H).
Qed.

Lemma read_spend_usd (w : widgets) (u : float) :
  read_spend (enter_usd w u) = Ok u.
Proof. reflexivity. Qed.

(** C7: an NGN amount [n] at rate [r >= 1] gives the same shopping
    subtotal as the USD amount [n / r] typed directly; the conversion
    itself yields [n / r] and never raises. *)
Theorem ngn_usd_same_shopping (w : widgets) (n r : float) :
  (1 <=? r) = true ->
  read_spend (enter_ngn w n r) = Ok (n / r) /\
  shopping_of (enter_ngn w n r) = shopping_of (enter_usd w (n / r)).
Proof.
  intros H. split; [ now apply read_spend_ngn | ].
  unfold shopping_of, run_totals, read_sidebar.
  rewrite (read_spend_ngn w n r H), read_spend_usd.
  change (read_car (enter_ngn w n r)) with (read_car w).
  change (read_car (enter_usd w (n / r))) with (read_car w).
  change (read_grid_factor (enter_ngn w n r)) with (read_grid_factor w).
  change (read_grid_factor (enter_usd w (n / r))) with (read_grid_factor w).
  destruct (read_car w) as [[[mi km] kg]|e]; simpl; [ | reflexivity ].
  destruct (read_grid_factor w) as [g|e]; simpl; reflexivity.
Qed.

Lemma ngn_usd_same_shopping_witness :
  (1 <=? 1500) = true /\
  shopping_of (enter_ngn default_widgets 150000 1500) = Ok 720 /\
  shopping_of (enter_usd default_widgets 100) = Ok 720.
Proof.
  split; [ reflexivity | ].
  destruct (ngn_usd_same_shopping default_widgets 150000 1500 eq_refl)
    as [_ H].
  split; [ rewrite H | ]; reflexivity.
Defined.

(** * Suggestions *)

Lemma suggestions_cases (i : inputs) :
  suggestions i =
    let fired :=
      ((if gt (beef_kg_per_week i) 0.5 then [msg_beef] else []) ++
       (if (if String.eqb (distance_unit i) "miles"
            then gt (miles_per_week i) 100
            else gt (km_per_week i) 160)
        then [msg_car] else []) ++
       (if gt (kwh_per_month i) 200 then [msg_power] else []) ++
       (if gt (flight_km_per_year i) 3000 then [msg_flight] else []))%list in
    if is_empty fired then [msg_fallback] else fired.
Proof.
  unfold suggestions.
  destruct (gt (beef_kg_per_week i) 0.5),
    (String.eqb (distance_unit i) "miles"),
    (gt (miles_per_week i) 100), (gt (km_per_week i) 160),
    (gt (kwh_per_month i) 200), (gt (flight_km_per_year i) 3000);
    reflexivity.
Qed.

(** C5: when no rule fires (beef <= 0.5, car distance of the selected unit
    at or below 100 miles / 160 km, electricity <= 200, flights <= 3000)
    the suggestion list is exactly the fallback message. *)
Theorem quiet_inputs_get_fallback (i : inputs) :
  below_thresholds i -> suggestions i = [msg_fallback].
Proof.
  intros (Hb & Hc & Hk & Hf). unfold suggestions.
  rewrite (leb_not_gt _ _ Hb), (leb_not_gt _ _ Hk), (leb_not_gt _ _ Hf).
  destruct (String.eqb (distance_unit i) "miles");
    rewrite (leb_not_gt _ _ Hc); reflexivity.
Qed.

(** All-zero inputs: the sidebar is read without error and the only
    suggestion is the fallback. *)
Lemma quiet_inputs_get_fallback_witness :
  exists i, read_sidebar zero_widgets = Ok i /\
    below_thresholds i /\ suggestions i = [msg_fallback].
Proof.
  eexists. split; [ reflexivity | ].
  assert (H : below_thresholds
    {| distance_unit := "km"; currency := "NGN"; miles_per_week := 0;
       km_per_week := 0; car_per_week_kg := 0 * 0.251;
       flight_km_per_year := 0; bus_km_per_week := 0;
       country_choice := "Global average"; selected_grid_factor := 0.92;
       kwh_per_month := 0; beef_kg_per_week := 0;
       chicken_kg_per_week := 0; spend_usd := 0 / 1500.0 |})
    by (repeat split; reflexivity).
  split; [ exact H | exact (quiet_inputs_get_fallback _ H) ].
Defined.

(** What the sidebar stage leaves in the script's variables. *)
Lemma read_sidebar_fields (w : widgets) (i : inputs) :
  read_sidebar w = Ok i ->
  distance_unit i = w_distance_unit w /\
  miles_per_week i =
    (if String.eqb (w_distance_unit w) "miles" then w_car_miles w else 0) /\
  km_per_week i =
    (if String.eqb (w_distance_unit w) "miles" then 0 else w_car_km w) /\
  car_per_week_kg i =
    (if String.eqb (w_distance_unit w) "miles"
     then w_car_miles w * 0.404 else w_car_km w * 0.251) /\
  flight_km_per_year i = w_flight_km_per_year w /\
  bus_km_per_week i = w_bus_km_per_week w /\
  kwh_per_month i = w_kwh_per_month w /\
  beef_kg_per_week i = w_beef_kg_per_week w /\
  chicken_kg_per_week i = w_chicken_kg_per_week w /\
  read_grid_factor w = Ok (selected_grid_factor i) /\
  read_spend w = Ok (spend_usd i).
Proof.
  unfold read_sidebar, read_car.
  destruct (String.eqb (w_distance_unit w) "miles"); simpl;
    destruct (read_grid_factor w) as [g|e]; simpl; try discriminate;
    destruct (read_spend w) as [u|e]; simpl; try discriminate;
    intros H; injection H as <-; simpl; repeat split.
Qed.

Lemma in_car_message (i : inputs) :
  In msg_car (suggestions i) <->
  (if String.eqb (distance_unit i) "miles"
   then gt (miles_per_week i) 100
   else gt (km_per_week i) 160) = true.
Proof.
  rewrite suggestions_cases.
  destruct (gt (beef_kg_per_week i) 0.5),
    (if String.eqb (distance_unit i) "miles"
     then gt (miles_per_week i) 100 else gt (km_per_week i) 160),
    (gt (kwh_per_month i) 200), (gt (flight_km_per_year i) 3000);
    cbv [app is_empty In]; split; intros H; try reflexivity; auto;
    try discriminate;
    repeat (destruct H as [H|H]; try discriminate H); try contradiction.
Qed.

(** C6: the car rule looks at the distance of the selected unit only.
    With miles selected it fires iff the miles box exceeds 100 and the km
    quantity is 0.0; with km selected it fires iff the km box exceeds 160
    and the miles quantity is 0.0. The box of the other unit plays no
    part. *)
Theorem car_rule_follows_selected_unit (w : widgets) (i : inputs) :
  read_sidebar w = Ok i ->
  (w_distance_unit w = "miles" ->
     miles_per_week i = w_car_miles w /\ km_per_week i = 0 /\
     (In msg_car (suggestions i) <-> gt (w_car_miles w) 100 = true)) /\
  (w_distance_unit w = "km" ->
     km_per_week i = w_car_km w /\ miles_per_week i = 0 /\
     (In msg_car (suggestions i) <-> gt (w_car_km w) 160 = true)).
Proof.
  intros H.
  destruct (read_sidebar_fields w i H) as (Hu & Hm & Hk & _).
  split; intros Hunit; rewrite Hunit in Hm, Hk; simpl in Hm, Hk;
    rewrite in_car_message, Hu, Hunit, Hm, Hk; simpl; tauto.
Qed.

Lemma car_rule_follows_selected_unit_witness :
  exists i, read_sidebar miles_120 = Ok i /\
    km_per_week i = 0 /\ In msg_car (suggestions i).
Proof.
  eexists. split; [ reflexivity | ].
  match goal with |- km_per_week ?i = _ /\ _ =>
    destruct (car_rule_follows_selected_unit miles_120 i eq_refl) as [Hmi _]
  end.
  destruct (Hmi eq_refl) as (_ & Hk & Hin).
  split; [ exact Hk | apply Hin; reflexivity ].
Defined.

(** * Signs of the results *)

(** A preset grid factor is one of the two positive table entries; a
    custom one is whatever the custom box holds. *)
Lemma read_grid_factor_cases (w : widgets) (g : float) :
  read_grid_factor w = Ok g ->
  g = w_custom_grid_factor w \/ g = 0.92 \/ g = 0.80.
Proof.
  cbv [read_grid_factor getitem dict_get COUNTRY_GRID_FACTORS rbind].
  destruct (String.eqb (w_country_choice w) custom_label);
    [ intros H; injection H as <-; auto | ].
  destruct (String.eqb "Global average" (w_country_choice w));
    [ intros H; injection H as <-; auto | ].
  destruct (String.eqb "Nigeria" (w_country_choice w));
    [ intros H; injection H as <-; auto | ].
  destruct (String.eqb custom_label (w_country_choice w)); discriminate.
Qed.

(** The table lookup never yields the empty entry: the only run that
    could multiply by [None] is the one the custom branch has taken. *)
Lemma read_grid_factor_no_type_error (w : widgets) :
  read_grid_factor w <> Raise TypeError.
Proof.
  cbv [read_grid_factor getitem dict_get COUNTRY_GRID_FACTORS rbind].
  destruct (String.eqb (w_country_choice w) custom_label) eqn:E;
    [ discriminate | ].
  destruct (String.eqb "Global average" (w_country_choice w));
    [ discriminate | ].
  destruct (String.eqb "Nigeria" (w_country_choice w));
    [ discriminate | ].
  rewrite String.eqb_sym, E. discriminate.
Qed.

Lemma grid_factor_nonneg_finite (w : widgets) (g : float) :
  number_input_ok 0 (w_custom_grid_factor w) ->
  read_grid_factor w = Ok g ->
  sf_nonneg (Prim2SF g) = true /\ sf_finite (Prim2SF g) = true.
Proof.
  intros Hc H. destruct (read_grid_factor_cases w g H) as [->|[->| ->]].
  - now apply (number_input_finite 0).
  - split; reflexivity.
  - split; reflexivity.
Qed.

Lemma spend_nonneg (w : widgets) (u : float) :
  number_input_ok 0 (w_spend_usd w) ->
  number_input_ok 0 (w_ngn_per_month w) ->
  number_input_ok 1 (w_fx_rate w) ->
  read_spend w = Ok u -> nonneg u.
Proof.
  intros Hu Hn Hr. unfold read_spend, truediv.
  destruct (String.eqb (w_currency w) "USD").
  - intros H; injection H as <-. exact (proj1 Hu).
  - destruct (w_fx_rate w =? 0); [ discriminate | ].
    intros H; injection H as <-.
    apply div_nonneg_posfin; [ exact (proj1 Hn) | now apply at_least_one_posfin ].
Qed.

Lemma car_kg_nonneg (w : widgets) (i : inputs) :
  number_input_ok 0 (w_car_miles w) -> number_input_ok 0 (w_car_km w) ->
  read_sidebar w = Ok i -> nonneg (car_per_week_kg i).
Proof.
  intros Hm Hk H.
  destruct (read_sidebar_fields w i H) as (_ & _ & _ & -> & _).
  destruct (String.eqb (w_distance_unit w) "miles");
    apply mul_nonneg_posfin; try reflexivity;
    [ exact (proj1 Hm) | exact (proj1 Hk) ].
Qed.

(** The electricity subtotal is at least zero as soon as the yearly
    consumption does not overflow, or the grid factor is positive. *)
Lemma electricity_nonneg (kwh g : float) :
  number_input_ok 0 kwh ->
  sf_nonneg (Prim2SF g) = true -> sf_finite (Prim2SF g) = true ->
  (kwh * 12 <? infinity) = true \/ (0 <? g) = true ->
  nonneg (kwh * 12 * g).
Proof.
  intros Hk Hg Hf Hcase.
  assert (H12 : nonneg (kwh * 12))
    by (apply mul_nonneg_posfin; [ exact (proj1 Hk) | reflexivity ]).
  destruct Hcase as [Hfin|Hpos].
  - apply mul_nonneg_finite; auto.
    + now apply nonneg_spec.
    + now apply below_infinity_finite.
  - apply mul_nonneg_posfin; [ exact H12 | ].
    revert Hpos Hf. unfold posfin. rewrite ltb_spec. unfold SFltb.
    change (Prim2SF 0) with (S754_zero false).
    destruct (Prim2SF g) as [s|s| |s m e]; simpl; try discriminate;
      destruct s; simpl; try discriminate; auto.
Qed.

(** C10 (amended): for a run whose widget values are finite and at least
    their minimum (0.0, and 1.0 for the exchange rate), and whose yearly
    consumption [kwh * 12] does not overflow or whose grid factor is
    positive, the four subtotals, the totals in kg and tonnes and the
    daily, weekly and monthly projections are all at least zero. *)
Theorem outputs_nonneg_without_overflow (w : widgets) (i : inputs) (t : totals) :
  widgets_ok w ->
  read_sidebar w = Ok i ->
  calculate i = Ok t ->
  (kwh_per_month i * 12 <? infinity) = true
  \/ (0 <? selected_grid_factor i) = true ->
  outputs_nonneg t.
Proof.
  intros (Hmi & Hkm & Hfl & Hbus & Hcg & Hkwh & Hbeef & Hch & Husd & Hngn & Hfx)
    Hread Hcalc Hel.
  pose proof (car_kg_nonneg w i Hmi Hkm Hread) as Hcar.
  destruct (read_sidebar_fields w i Hread)
    as (_ & _ & _ & _ & Efl & Ebus & Ekwh & Ebeef & Ech & Egrid & Espend).
  pose proof (grid_factor_nonneg_finite w _ Hcg Egrid) as [Hg Hgf].
  pose proof (spend_nonneg w _ Husd Hngn Hfx Espend) as Hsp.
  injection Hcalc as <-. unfold outputs_nonneg, daily_kg, weekly_kg, monthly_kg.
  simpl.
  assert (Htr : nonneg (car_per_week_kg i * 52 + flight_km_per_year i * 0.115
                        + bus_km_per_week i * 52 * 0.089)).
  { rewrite Efl, Ebus.
    repeat first [ apply add_nonneg | apply mul_nonneg_posfin ];
      try reflexivity; try assumption;
      [ exact (proj1 Hfl) | exact (proj1 Hbus) ]. }
  assert (Hele : nonneg (kwh_per_month i * 12 * selected_grid_factor i)).
  { apply electricity_nonneg; auto. now rewrite Ekwh. }
  assert (Hdiet : nonneg (beef_kg_per_week i * 52 * 27.0
                          + chicken_kg_per_week i * 52 * 6.9)).
  { rewrite Ebeef, Ech.
    repeat first [ apply add_nonneg | apply mul_nonneg_posfin ];
      try reflexivity; [ exact (proj1 Hbeef) | exact (proj1 Hch) ]. }
  assert (Hshop : nonneg (spend_usd i * 12 * 0.6)).
  { repeat apply mul_nonneg_posfin; try reflexivity. exact Hsp. }
  assert (Hsum : nonneg (car_per_week_kg i * 52 + flight_km_per_year i * 0.115
                         + bus_km_per_week i * 52 * 0.089
                         + kwh_per_month i * 12 * selected_grid_factor i
                         + (beef_kg_per_week i * 52 * 27.0
                            + chicken_kg_per_week i * 52 * 6.9)
                         + spend_usd i * 12 * 0.6))
    by (apply add_nonneg; [ apply add_nonneg; [ apply add_nonneg | ] | ];
        assumption).
  repeat split; try assumption;
    apply div_nonneg_posfin; try assumption; reflexivity.
Qed.

(** Under the same conditions the total in kg is a number. *)
Lemma grand_total_nonneg (w : widgets) (i : inputs) (t : totals) :
  widgets_ok w ->
  read_sidebar w = Ok i ->
  calculate i = Ok t ->
  (kwh_per_month i * 12 <? infinity) = true
  \/ (0 <? selected_grid_factor i) = true ->
  nonneg (grand_total_kg t).
Proof.
  intros (Hmi & Hkm & Hfl & Hbus & Hcg & Hkwh & Hbeef & Hch & Husd & Hngn & Hfx)
    Hread Hcalc Hel.
  pose proof (car_kg_nonneg w i Hmi Hkm Hread) as Hcar.
  destruct (read_sidebar_fields w i Hread)
    as (_ & _ & _ & _ & Efl & Ebus & Ekwh & Ebeef & Ech & Egrid & Espend).
  pose proof (grid_factor_nonneg_finite w _ Hcg Egrid) as [Hg Hgf].
  pose proof (spend_nonneg w _ Husd Hngn Hfx Espend) as Hsp.
  injection Hcalc as <-. simpl.
  apply add_nonneg; [ apply add_nonneg; [ apply add_nonneg | ] | ].
  - rewrite Efl, Ebus.
    repeat first [ apply add_nonneg | apply mul_nonneg_posfin ];
      try reflexivity; try assumption;
      [ exact (proj1 Hfl) | exact (proj1 Hbus) ].
  - apply electricity_nonneg; auto. now rewrite Ekwh.
  - rewrite Ebeef, Ech.
    repeat first [ apply add_nonneg | apply mul_nonneg_posfin ];
      try reflexivity; [ exact (proj1 Hbeef) | exact (proj1 Hch) ].
  - repeat apply mul_nonneg_posfin; try reflexivity. exact Hsp.
Qed.

Lemma nonneg_not_nan (x : float) : nonneg x -> is_nan x = false.
Proof.
  intros H. apply nonneg_spec in H. unfold is_nan.
  rewrite eqb_spec. destruct (Prim2SF x) as [s|s| |s m e];
    try discriminate H; unfold SFeqb; simpl.
  - reflexivity.
  - now destruct s.
  - destruct s; [ discriminate H | ].
    rewrite Z.compare_refl, Pos.compare_cont_refl. reflexivity.
Qed.

(** C2 (amended): for a run whose widget values are finite and at least
    their minimum (0.0, and 1.0 for the exchange rate), and whose yearly
    consumption [kwh * 12] does not overflow or whose grid factor is
    positive, the total in kg is the very float that the sum of the
    four subtotals evaluates to, and Python's [==] between the two is
    true: no tolerance is needed. *)
Theorem grand_total_equals_sum_without_overflow
    (w : widgets) (i : inputs) (t : totals) :
  widgets_ok w ->
  read_sidebar w = Ok i ->
  calculate i = Ok t ->
  (kwh_per_month i * 12 <? infinity) = true
  \/ (0 <? selected_grid_factor i) = true ->
  grand_total_kg t =
    transport_total t + electricity_total t + diet_total t
    + shopping_total t /\
  total_equals_sum t.
Proof.
  intros Hw Hread Hcalc Hel.
  pose proof (grand_total_nonneg w i t Hw Hread Hcalc Hel) as Hn.
  apply nonneg_not_nan in Hn.
  split.
  - injection Hcalc as <-. reflexivity.
  - unfold total_equals_sum. now apply (grand_total_eqb_sum i).
Qed.

Lemma default_widgets_ok : widgets_ok default_widgets.
Proof. repeat split. Qed.

Lemma outputs_nonneg_without_overflow_witness :
  exists i t,
    read_sidebar default_widgets = Ok i /\ calculate i = Ok t /\
    outputs_nonneg t.
Proof.
  eexists. eexists. split; [ reflexivity | ]. split; [ reflexivity | ].
  apply (outputs_nonneg_without_overflow default_widgets _ _
           default_widgets_ok eq_refl eq_refl).
  left. reflexivity.
Defined.

Lemma grand_total_equals_sum_without_overflow_witness :
  exists i t,
    read_sidebar default_widgets = Ok i /\ calculate i = Ok t /\
    total_equals_sum t.
Proof.
  eexists. eexists. split; [ reflexivity | ]. split; [ reflexivity | ].
  apply (grand_total_equals_sum_without_overflow default_widgets _ _
           default_widgets_ok eq_refl eq_refl).
  left. reflexivity.
Defined.

(** C10 as stated fails: 1e308 kWh a month with a custom grid factor of
    0.0 are valid non-negative inputs, yet [1e308 * 12] overflows to
    infinity and [infinity * 0.0] is NaN, so the electricity subtotal and
    every total derived from it are not numbers, hence not [>= 0]. *)
Lemma overflow_breaks_nonneg :
  ~ (forall w i t,
       widgets_ok w -> read_sidebar w = Ok i -> calculate i = Ok t ->
       outputs_nonneg t).
Proof.
  intros H.
  assert (Hok : widgets_ok overflow_widgets) by (repeat split).
  destruct (H overflow_widgets _ _ Hok eq_refl eq_refl) as (_ & He & _).
  vm_compute in He. discriminate He.
Qed.

(** C2 as stated fails at the same inputs: they are valid and not
    negative, the electricity subtotal is NaN, so is the total, and a
    NaN compares unequal to everything, the sum it was computed from
    included: [grand_total_kg == transport + electricity + diet +
    shopping] is False. *)
Lemma overflow_total_differs_from_sum :
  ~ (forall w i t,
       widgets_ok w -> read_sidebar w = Ok i -> calculate i = Ok t ->
       total_equals_sum t).
Proof.
  intros H.
  assert (Hok : widgets_ok overflow_widgets) by (repeat split).
  pose proof (H overflow_widgets _ _ Hok eq_refl eq_refl) as He.
  vm_compute in He. discriminate He.
Qed.

(** What the script computes there. *)
Lemma overflow_run :
  exists t, run_totals overflow_widgets = Ok t /\
    is_nan (electricity_total t) = true /\
    is_nan (grand_total_kg t) = true /\
    (0 <=? electricity_total t) = false.
Proof. eexists. split; [ reflexivity | ]. repeat split. Qed.

(** * The history store *)

Section Ordering.

Local Open Scope Z_scope.

Lemma insert_desc_perm (r : row) (l : list row) :
  Permutation (insert_desc r l) (r :: l).
Proof.
  induction l as [|x l IH]; simpl; [ reflexivity | ].
  destruct (r_id x <=? r_id r); [ reflexivity | ].
  rewrite IH. apply perm_swap.
Qed.

Lemma order_by_id_desc_perm (l : list row) :
  Permutation (order_by_id_desc l) l.
Proof.
  induction l as [|r l IH]; simpl; [ reflexivity | ].
  rewrite insert_desc_perm. now apply perm_skip.
Qed.

Lemma insert_desc_sorted (r : row) (l : list row) :
  non_increasing l -> non_increasing (insert_desc r l).
Proof.
  unfold non_increasing. induction l as [|x l IH]; simpl; intros Hs.
  - constructor; constructor.
  - apply StronglySorted_inv in Hs. destruct Hs as [Hl Hx].
    destruct (r_id x <=? r_id r) eqn:E.
    + apply Z.leb_le in E. constructor.
      * constructor; assumption.
      * constructor; [ exact E | ].
        rewrite Forall_forall in *. intros y Hy.
        specialize (Hx y Hy). lia.
    + apply Z.leb_gt in E. constructor; [ now apply IH | ].
      rewrite Forall_forall in *. intros y Hy.
      apply (Permutation_in _ (insert_desc_perm r l)) in Hy.
      destruct Hy as [<-|Hy]; [ lia | now apply Hx ].
Qed.

Lemma order_by_id_desc_sorted (l : list row) :
  non_increasing (order_by_id_desc l).
Proof.
  induction l as [|r l IH]; simpl.
  - constructor.
  - now apply insert_desc_sorted.
Qed.

(** With distinct ids a non-increasing list is strictly decreasing. *)
Lemma non_increasing_strict (l : list row) :
  NoDup (map r_id l) -> non_increasing l -> newest_first l.
Proof.
  unfold non_increasing, newest_first.
  induction l as [|x l IH]; simpl; intros Hd Hs; [ constructor | ].
  apply StronglySorted_inv in Hs. destruct Hs as [Hl Hx].
  apply NoDup_cons_iff in Hd. destruct Hd as [Hn Hd].
  constructor; [ now apply IH | ].
  rewrite Forall_forall in *. intros y Hy.
  specialize (Hx y Hy).
  assert (r_id y <> r_id x).
  { intros E. apply Hn. rewrite <- E. now apply in_map. }
  lia.
Qed.

Lemma order_by_id_desc_newest_first (l : list row) :
  NoDup (map r_id l) -> newest_first (order_by_id_desc l).
Proof.
  intros Hd. apply non_increasing_strict.
  - apply (Permutation_NoDup (l := map r_id l)); [ | exact Hd ].
    apply Permutation_map. symmetry. apply order_by_id_desc_perm.
  - apply order_by_id_desc_sorted.
Qed.

End Ordering.

(** C8: [load_runs] returns every stored row, ordered by strictly
    decreasing id; with no rows (an empty table, or no table yet) it
    returns the empty list, not an error. Nothing is shown and no row is
    changed. *)
Theorem load_runs_newest_first (w : world) (rows : list row) :
  stored_rows (db w) = Some rows ->
  store_ok (db w) ->
  exists w' l,
    load_runs w = (w', Ok l) /\
    shown w' = shown w /\
    stored_rows (db w') = Some rows /\
    Permutation l rows /\
    newest_first l /\
    (rows = [] -> l = []).
Proof.
  intros Hrows Hok. unfold load_runs, bind, init_db, ret.
  destruct w as [s sh]. simpl in *.
  destruct s as [| |rs seq]; simpl in *; try discriminate.
  - injection Hrows as <-. eexists. eexists. split; [ reflexivity | ].
    simpl. repeat split; auto. constructor.
  - injection Hrows as <-. eexists. eexists. split; [ reflexivity | ].
    simpl. repeat split.
    + apply order_by_id_desc_perm.
    + now apply order_by_id_desc_newest_first.
    + intros ->. reflexivity.
Qed.

Lemma load_runs_newest_first_witness :
  exists l,
    snd (load_runs {| db := Runs [good_row 1; good_row 3; good_row 2] 3;
                      shown := [] |}) = Ok l /\
    map r_id l = [3; 2; 1]%Z /\ newest_first l.
Proof.
  destruct (load_runs_newest_first
              {| db := Runs [good_row 1; good_row 3; good_row 2] 3;
                 shown := [] |}
              [good_row 1; good_row 3; good_row 2] eq_refl)
    as (w' & l & Hload & _ & _ & _ & Hsorted & _).
  - simpl. repeat constructor; simpl; intuition discriminate.
  - exists l. rewrite Hload. split; [ reflexivity | ].
    split; [ | exact Hsorted ].
    injection Hload as _ <-. reflexivity.
Defined.

(** ** Saving keeps the primary key and hands out a fresh, larger id *)

Lemma max_id_bound (rows : list row) (r : row) :
  In r rows -> (r_id r <= max_id rows)%Z.
Proof.
  induction rows as [|x rows IH]; simpl; [ tauto | ].
  intros [->|H]; [ lia | specialize (IH H); lia ].
Qed.

Lemma save_run_appends (now : string) (i t : json) (w : world)
    (rows : list row) :
  stored_rows (db w) = Some rows -> store_ok (db w) ->
  exists r w',
    save_run now i t w = (w', Ok tt) /\
    stored_rows (db w') = Some (rows ++ [r])%list /\
    store_ok (db w') /\
    shown w' = shown w /\
    r_totals_json r = json_dumps t /\
    Forall (fun x => (r_id x < r_id r)%Z) rows.
Proof.
  intros Hrows Hok. destruct w as [s sh]. simpl in *.
  unfold save_run, bind, init_db. simpl.
  destruct s as [| |rs seq]; simpl in *; try discriminate;
    injection Hrows as <-.
  - eexists. eexists. split; [ reflexivity | ]. simpl.
    repeat split; auto. repeat constructor. simpl. tauto.
  - eexists. eexists. split; [ reflexivity | ]. simpl.
    assert (Hlt : Forall (fun x => (r_id x < next_id rs seq)%Z) rs).
    { rewrite Forall_forall. intros x Hx.
      pose proof (max_id_bound rs x Hx). unfold next_id. lia. }
    repeat split; auto.
    rewrite map_app. simpl.
    apply (Permutation_NoDup (l := next_id rs seq :: map r_id rs)).
    + apply Permutation_cons_append.
    + constructor; [ | exact Hok ].
      rewrite in_map_iff. intros (x & E & Hx).
      rewrite Forall_forall in Hlt. specialize (Hlt x Hx). lia.
Qed.

(** Every store the script produces respects the primary key. *)
Lemma reachable_store_ok (s : store) : reachable s -> store_ok s.
Proof.
  induction 1 as [|s now i t sh w' Hs IH Hsave]; [ exact I | ].
  destruct s as [| |rows seq].
  - unfold save_run, bind, init_db in Hsave. simpl in Hsave. discriminate.
  - destruct (save_run_appends now i t {| db := NoTable; shown := sh |} []
                eq_refl I) as (r & w2 & E & _ & Hok & _).
    rewrite E in Hsave. now injection Hsave as <-.
  - destruct (save_run_appends now i t {| db := Runs rows seq; shown := sh |}
                rows eq_refl IH) as (r & w2 & E & _ & Hok & _).
    rewrite E in Hsave. now injection Hsave as <-.
Qed.

(** Two saves on a new store: ids 1 and 2, listed newest first. *)
Lemma two_saves_then_list :
  let start := {| db := NoTable; shown := [] |} in
  let w1 := fst (save_run "2024-05-01T10:00:00" (JDict []) (JDict []) start) in
  let w2 := fst (save_run "2024-05-01T10:05:00" (JDict []) (JDict []) w1) in
  option_map (map r_id) (stored_rows (db w2)) = Some [1; 2]%Z /\
  match snd (load_runs w2) with
  | Ok l => map r_id l = [2; 1]%Z
  | Raise _ => False
  end.
Proof. split; reflexivity. Qed.

(** * An unusable store *)

Lemma init_db_unavailable (w : world) :
  db w = Unavailable -> init_db w = (w, Raise OperationalError).
Proof. intros H. unfold init_db. now rewrite H. Qed.

Lemma save_run_unavailable (now : string) (i t : json) (w : world) :
  db w = Unavailable -> save_run now i t w = (w, Raise OperationalError).
Proof.
  intros H. unfold save_run, bind. now rewrite (init_db_unavailable w H).
Qed.

Lemma load_runs_unavailable (w : world) :
  db w = Unavailable -> load_runs w = (w, Raise OperationalError).
Proof.
  intros H. unfold load_runs, bind. now rewrite (init_db_unavailable w H).
Qed.

(** The page on an unusable store: everything up to the first store
    access is shown, then the storage error ends the run. *)
Lemma page_on_unavailable_store
    (now : string) (w : widgets) (i : inputs) (t : totals) :
  read_sidebar w = Ok i ->
  calculate i = Ok t ->
  page now w {| db := Unavailable; shown := [] |}
    = ({| db := Unavailable;
          shown :=
            (summary_events t ++ [Subheader "💾 Save & Download"] ++
             (if w_save_clicked w then []
              else download_events i t ++ [Subheader "📈 History"]))%list |},
       Raise OperationalError).
Proof.
  intros Hread Hcalc. unfold page, bind, lift. rewrite Hread, Hcalc.
  destruct (w_save_clicked w); reflexivity.
Qed.

(** C3 (amended): with an unusable store [save_run] and [load_runs] raise
    the storage error and leave everything as it was; the script does not
    catch it, so the run stops with that error at its first store access
    (the save when the button was pressed, the history listing otherwise).
    The summary and the breakdown, computed and shown before, stay on the
    page; neither the history nor the suggestions are rendered. *)
Theorem unavailable_store_stops_run
    (now : string) (w : widgets) (i : inputs) (t : totals) :
  read_sidebar w = Ok i ->
  calculate i = Ok t ->
  (forall p q wd, db wd = Unavailable ->
     save_run now p q wd = (wd, Raise OperationalError)) /\
  (forall wd, db wd = Unavailable ->
     load_runs wd = (wd, Raise OperationalError)) /\
  page now w {| db := Unavailable; shown := [] |}
    = ({| db := Unavailable;
          shown :=
            (summary_events t ++ [Subheader "💾 Save & Download"] ++
             (if w_save_clicked w then []
              else download_events i t ++ [Subheader "📈 History"]))%list |},
       Raise OperationalError).
Proof.
  intros Hread Hcalc.
  split; [ intros; now apply save_run_unavailable | ].
  split; [ intros; now apply load_runs_unavailable | ].
  now apply page_on_unavailable_store.
Qed.

Lemma unavailable_store_stops_run_witness :
  exists sh,
    page "2024-05-04T09:00:00" default_widgets
      {| db := Unavailable; shown := [] |}
      = ({| db := Unavailable; shown := sh |}, Raise OperationalError) /\
    ~ In NoHistoryInfo sh /\
    ~ In (Subheader "💡 Suggestions") sh.
Proof.
  eexists. split.
  - exact (proj2 (proj2 (unavailable_store_stops_run
             "2024-05-04T09:00:00" default_widgets _ _ eq_refl eq_refl))).
  - simpl. split; intros H;
      repeat (destruct H as [H|H]; try discriminate H); exact H.
Defined.

(** C3 as stated fails: with an unusable store the run of the default
    page does not complete and never tells the user there is no history;
    it ends with the storage error. *)
Lemma unavailable_store_not_graceful :
  ~ degrades_gracefully "2024-05-04T09:00:00" default_widgets.
Proof.
  intros (sh & H & _).
  rewrite (page_on_unavailable_store
             "2024-05-04T09:00:00" default_widgets _ _ eq_refl eq_refl) in H.
  discriminate H.
Qed.

(** * Reading the history back *)

Lemma parse_history_spec (rows : list row) (acc : list hist_row) :
  parse_history rows acc =
    match first_error rows with
    | None => Ok (acc ++ parsed_rows rows)%list
    | Some e => Raise e
    end.
Proof.
  revert acc. induction rows as [|r rows IH]; intros acc; simpl.
  - now rewrite List.app_nil_r.
  - destruct (parse_history_row r) as [h|e]; simpl; [ | reflexivity ].
    rewrite IH. destruct (first_error rows); [ reflexivity | ].
    now rewrite <- List.app_assoc.
Qed.

Lemma insert_desc_not_empty (r : row) (l : list row) :
  is_empty (insert_desc r l) = false.
Proof.
  destruct l as [|x l]; simpl; [ reflexivity | ].
  now destruct (r_id x <=? r_id r)%Z.
Qed.

Lemma order_by_id_desc_not_empty (rows : list row) :
  rows <> [] -> is_empty (order_by_id_desc rows) = false.
Proof.
  destruct rows as [|r rows]; [ congruence | ].
  intros _. simpl. apply insert_desc_not_empty.
Qed.




(** A payload that is valid JSON but lacks the keys stops the run with a
    key error in the same way. *)
Lemma keyless_row_raises :
  parse_history [good_row 2; keyless_row 1] []
  = Raise (KeyError "grand_total_kg").
Proof. vm_compute. reflexivity. Qed.

(** * Digit strings *)

Section Digits.

Local Open Scope Z_scope.

Lemma Z_of_digits_app (acc : Z) (s1 s2 : string) :
  Z_of_digits acc (s1 ++ s2) = Z_of_digits (Z_of_digits acc s1) s2.
Proof.
  revert acc. induction s1 as [|c s1 IH]; intros acc; simpl; auto.
Qed.

Lemma Z_of_digits_zeros (acc : Z) (n : nat) :
  Z_of_digits acc (zeros n) = acc * 10 ^ Z.of_nat n.
Proof.
  revert acc. induction n as [|n IH]; intros acc.
  - simpl. lia.
  - cbn [zeros Z_of_digits]. rewrite IH.
    change (digit_val "0") with 0.
    rewrite Nat2Z.inj_succ, Z.pow_succ_r by lia. ring.
Qed.

Lemma Z_of_digits_uint_acc (d : Decimal.uint) (acc : positive) :
  Z_of_digits (Z.pos acc) (NilEmpty.string_of_uint d)
  = Z.pos (Pos.of_uint_acc d acc).
Proof.
  revert acc. induction d; intros acc;
    cbn [NilEmpty.string_of_uint Z_of_digits Pos.of_uint_acc];
    try reflexivity;
    rewrite <- IHd; f_equal;
    match goal with |- context [digit_val ?c] =>
      let v := eval vm_compute in (digit_val c) in
      change (digit_val c) with v
    end; lia.
Qed.

Lemma Z_of_digits_uint (d : Decimal.uint) :
  Z_of_digits 0 (NilEmpty.string_of_uint d) = Z.of_N (Pos.of_uint d).
Proof.
  induction d; cbn [NilEmpty.string_of_uint Z_of_digits Pos.of_uint];
    try reflexivity; try exact IHd;
    match goal with |- context [digit_val ?c] =>
      let v := eval vm_compute in (digit_val c) in
      change (digit_val c) with v
    end; cbn [Z.mul Z.add Z.of_N]; apply Z_of_digits_uint_acc.
Qed.

Lemma Z_of_digits_of_pos (p : positive) :
  Z_of_digits 0 (digits_of_Z (Z.pos p)) = Z.pos p.
Proof.
  unfold digits_of_Z. rewrite Z_of_digits_uint.
  now rewrite DecimalPos.Unsigned.of_to.
Qed.

Lemma Z_of_digits_of_Z (n : Z) :
  0 <= n -> Z_of_digits 0 (digits_of_Z n) = n.
Proof.
  destruct n as [|p|p]; intros H; try lia; [ reflexivity | ].
  apply Z_of_digits_of_pos.
Qed.

Lemma all_digits_uint (d : Decimal.uint) :
  all_digits (NilEmpty.string_of_uint d) = true.
Proof. induction d; simpl; auto. Qed.

Lemma all_digits_of_Z (n : Z) : all_digits (digits_of_Z n) = true.
Proof.
  destruct n; try reflexivity. apply all_digits_uint.
Qed.

Lemma all_digits_app (s1 s2 : string) :
  all_digits (s1 ++ s2) = all_digits s1 && all_digits s2.
Proof.
  induction s1 as [|c s1 IH]; simpl; [ reflexivity | ].
  now rewrite IH, andb_assoc.
Qed.

Lemma all_digits_zeros (n : nat) : all_digits (zeros n) = true.
Proof. induction n; simpl; auto. Qed.

Lemma take_drop (n : nat) (s : string) : take n s ++ drop n s = s.
Proof.
  revert s. induction n as [|n IH]; intros [|c s]; simpl; auto.
  now rewrite IH.
Qed.

Lemma length_app (s1 s2 : string) :
  String.length (s1 ++ s2) = (String.length s1 + String.length s2)%nat.
Proof. induction s1; simpl; auto. Qed.

Lemma length_zeros (n : nat) : String.length (zeros n) = n.
Proof. induction n; simpl; auto. Qed.

Lemma length_drop (n : nat) (s : string) :
  String.length (drop n s) = (String.length s - n)%nat.
Proof.
  revert s. induction n as [|n IH]; intros [|c s]; simpl; auto.
Qed.

Lemma all_digits_take (n : nat) (s : string) :
  all_digits s = true -> all_digits (take n s) = true.
Proof.
  revert s. induction n as [|n IH]; intros [|c s]; simpl; auto.
  intros H. apply andb_true_iff in H as [H1 H2]. rewrite H1. now apply IH.
Qed.

Lemma all_digits_drop (n : nat) (s : string) :
  all_digits s = true -> all_digits (drop n s) = true.
Proof.
  revert s. induction n as [|n IH]; intros [|c s]; simpl; auto.
  intros H. apply andb_true_iff in H as [H1 H2]. now apply IH.
Qed.

Lemma to_uint_no_leading_zero (p : positive) :
  no_leading_zero (Pos.to_uint p).
Proof.
  pose proof (DecimalPos.Unsigned.to_uint_nonnil p) as Hnil.
  pose proof (DecimalPos.Unsigned.to_uint_nonzero p) as Hzero.
  assert (Hu : Pos.to_uint p = Decimal.unorm (Pos.to_uint p)).
  { change (Pos.to_uint p) with (N.to_uint (N.pos p)) at 1.
    rewrite <- (DecimalPos.Unsigned.of_to p) at 1.
    apply DecimalPos.Unsigned.to_of. }
  destruct (Pos.to_uint p) as [|u| | | | | | | | |]; simpl; auto.
  rewrite unorm_D0 in Hu.
  destruct u as [|u| | | | | | | | |]; [ now elim Hzero | .. ];
    match type of Hu with _ = Decimal.unorm ?v =>
      assert (Hv : v <> Decimal.Nil) by discriminate;
      pose proof (nb_digits_unorm v Hv) as Hlen;
      rewrite <- Hu in Hlen; simpl in Hlen; lia
    end.
Qed.

Lemma digits_of_pos_int_part (p : positive) :
  int_part_ok (digits_of_Z (Z.pos p)).
Proof.
  split; [ apply all_digits_of_Z | ].
  unfold digits_of_Z. pose proof (to_uint_no_leading_zero p) as H.
  destruct (Pos.to_uint p); simpl in *; try contradiction; discriminate.
Qed.

Lemma digits_of_pos_nonempty (p : positive) :
  digits_of_Z (Z.pos p) <> "".
Proof.
  pose proof (digits_of_pos_int_part p) as [_ H].
  destruct (digits_of_Z (Z.pos p)); [ contradiction | discriminate ].
Qed.

Lemma digits_of_pos_head (p : positive) :
  exists c r, digits_of_Z (Z.pos p) = String c r /\ c <> "0"%char.
Proof.
  unfold digits_of_Z. pose proof (to_uint_no_leading_zero p) as H.
  destruct (Pos.to_uint p); simpl in *; try contradiction;
    eexists; eexists; (split; [ reflexivity | discriminate ]).
Qed.

Lemma take_all (n : nat) (s : string) :
  (String.length s <= n)%nat -> take n s = s.
Proof.
  revert s. induction n as [|n IH]; intros [|c s]; simpl; intros H;
    try reflexivity; try lia.
  rewrite IH; [ reflexivity | lia ].
Qed.

End Digits.

(** * Lexing a written number gives back its parts *)

Lemma digit_cases (c : ascii) :
  is_digit c = true ->
  In c ["0"; "1"; "2"; "3"; "4"; "5"; "6"; "7"; "8"; "9"]%char.
Proof.
  destruct c as [[] [] [] [] [] [] [] []]; simpl; intros H;
    try discriminate H; tauto.
Qed.

(** A digit is none of the marks of the grammar. *)
Lemma digit_not_mark (c : ascii) :
  is_digit c = true ->
  Ascii.eqb c "-" = false /\ Ascii.eqb c "+" = false /\
  Ascii.eqb c "." = false /\ Ascii.eqb c "e" = false /\
  Ascii.eqb c "E" = false /\ Ascii.eqb c "034" = false /\
  Ascii.eqb c "{" = false /\ Ascii.eqb c "[" = false /\
  Ascii.eqb c "n" = false /\ Ascii.eqb c "t" = false /\
  Ascii.eqb c "f" = false.
Proof.
  intros H. apply digit_cases in H. simpl in H.
  repeat (destruct H as [<-|H]; [ repeat split; reflexivity | ]).
  contradiction.
Qed.

Lemma delimited_not_digit (s : string) : delimited s -> not_digit_start s.
Proof. destruct s; simpl; tauto. Qed.

Lemma span_digits_app (ds r : string) :
  all_digits ds = true -> not_digit_start r ->
  span_digits (ds ++ r) = (ds, r).
Proof.
  intros Hd Hr. induction ds as [|c ds IH]; simpl in *.
  - destruct r as [|c r]; simpl in *; [ reflexivity | now rewrite Hr ].
  - apply andb_true_iff in Hd as [Hc Hd]. rewrite Hc, (IH Hd). reflexivity.
Qed.

Lemma lex_int_app (ds r : string) :
  int_part_ok ds -> not_digit_start r -> lex_int (ds ++ r) = Some (ds, r).
Proof.
  intros [Hd Hz] Hr. destruct ds as [|c ds]; [ contradiction | ].
  cbn [append lex_int]. destruct (Ascii.eqb_spec c "0") as [->|Hc].
  - now rewrite (Hz eq_refl).
  - change (String c (ds ++ r)) with (String c ds ++ r).
    now rewrite (span_digits_app _ _ Hd Hr).
Qed.

Lemma lex_frac_some (f r : string) :
  digits_ok f -> not_digit_start r ->
  lex_frac ("." ++ f ++ r) = (Some f, r).
Proof.
  intros [Hd Hn] Hr. cbn [append lex_frac]. simpl (Ascii.eqb "." ".").
  rewrite (span_digits_app _ _ Hd Hr).
  destruct f; [ congruence | reflexivity ].
Qed.

Lemma lex_frac_none (r : string) :
  match r with String c _ => Ascii.eqb c "." = false | _ => True end ->
  lex_frac r = (None, r).
Proof.
  destruct r as [|c r]; simpl; [ reflexivity | ]. now intros ->.
Qed.

Lemma lex_exp_some (neg : bool) (ds r : string) :
  digits_ok ds -> not_digit_start r ->
  lex_exp ("e" ++ (if neg then "-" else "+") ++ ds ++ r)
  = (Some (neg, ds), r).
Proof.
  intros [Hd Hn] Hr. destruct neg; cbn [append lex_exp lex_sign];
    simpl (Ascii.eqb _ _); cbn [orb];
    rewrite (span_digits_app _ _ Hd Hr);
    (destruct ds; [ congruence | reflexivity ]).
Qed.

Lemma lex_exp_none (r : string) :
  match r with
  | String c _ => Ascii.eqb c "e" = false /\ Ascii.eqb c "E" = false
  | _ => True
  end ->
  lex_exp r = (None, r).
Proof.
  destruct r as [|c r]; simpl; [ reflexivity | ]. now intros [-> ->].
Qed.

Lemma delimited_eqb (r : string) :
  delimited r ->
  match r with
  | String c _ =>
      Ascii.eqb c "." = false /\ Ascii.eqb c "e" = false /\
      Ascii.eqb c "E" = false
  | _ => True
  end.
Proof.
  destruct r as [|c r]; simpl; [ tauto | ].
  intros (_ & H1 & H2 & H3). repeat split; now apply Ascii.eqb_neq.
Qed.

Lemma append_assoc (a b c : string) : (a ++ b) ++ c = a ++ (b ++ c).
Proof. induction a; simpl; congruence. Qed.

Lemma append_nil_r (a : string) : a ++ "" = a.
Proof. induction a; simpl; congruence. Qed.

Lemma lex_tail (frac : option string) (ex : option (bool * string))
    (r : string) :
  match frac with Some f => digits_ok f | None => True end ->
  match ex with Some (_, ds) => digits_ok ds | None => True end ->
  delimited r ->
  let '(frac', r1) := lex_frac (tail_string frac ex ++ r) in
  let '(ex', r2) := lex_exp r1 in
  (frac', ex', r2) = (frac, ex, r).
Proof.
  intros Hf He Hr. unfold tail_string.
  pose proof (delimited_not_digit r Hr) as Hnd.
  pose proof (delimited_eqb r Hr) as Hmark.
  destruct frac as [f|], ex as [[neg ds]|]; rewrite ?append_assoc.
  - rewrite lex_frac_some; [ | assumption | reflexivity ].
    rewrite lex_exp_some; auto.
  - change ("" ++ r) with r. rewrite (lex_frac_some f r); auto.
    rewrite lex_exp_none; [ reflexivity | ].
    destruct r; tauto.
  - cbn [append]. rewrite lex_frac_none by reflexivity.
    change (String "e" ((if neg then "-" else "+") ++ ds ++ r))
      with ("e" ++ (if neg then "-" else "+") ++ ds ++ r).
    rewrite lex_exp_some; auto.
  - cbn [append]. rewrite lex_frac_none by (destruct r; tauto).
    rewrite lex_exp_none; [ reflexivity | destruct r; tauto ].
Qed.

Lemma token_to_string_split (t : number_token) (r : string) :
  token_to_string t ++ r
  = (if nt_neg t then "-" else "") ++ nt_int t
    ++ tail_string (nt_frac t) (nt_exp t) ++ r.
Proof.
  unfold token_to_string, tail_string.
  now rewrite !append_assoc.
Qed.

Lemma tail_not_digit (frac : option string) (ex : option (bool * string))
    (r : string) :
  delimited r -> not_digit_start (tail_string frac ex ++ r).
Proof.
  intros Hr. unfold tail_string.
  destruct frac as [f|], ex as [[neg ds]|]; cbn [append]; try reflexivity.
  now apply delimited_not_digit.
Qed.

(** Lexing a well-formed token followed by a delimiter gives back the
    token and stops at the delimiter. *)
Lemma lex_number_token (t : number_token) (r : string) :
  token_ok t -> delimited r ->
  lex_number (token_to_string t ++ r) = Some (t, r).
Proof.
  intros (Hi & Hf & He) Hr. rewrite token_to_string_split.
  unfold lex_number.
  assert (Hsign :
    match (if nt_neg t then "-" else "") ++ nt_int t
          ++ tail_string (nt_frac t) (nt_exp t) ++ r with
    | String c s1 =>
        if Ascii.eqb c "-" then (true, s1)
        else (false, (if nt_neg t then "-" else "") ++ nt_int t
                     ++ tail_string (nt_frac t) (nt_exp t) ++ r)
    | EmptyString => (false, (if nt_neg t then "-" else "") ++ nt_int t
                     ++ tail_string (nt_frac t) (nt_exp t) ++ r)
    end = (nt_neg t, nt_int t ++ tail_string (nt_frac t) (nt_exp t) ++ r)).
  { destruct (nt_neg t); cbn [append]; [ reflexivity | ].
    destruct Hi as [Hd Hz].
    destruct (nt_int t) as [|c ds]; [ contradiction | ]. cbn [append].
    simpl in Hd. apply andb_true_iff in Hd as [Hc _].
    now rewrite (proj1 (digit_not_mark c Hc)). }
  rewrite Hsign.
  rewrite (lex_int_app _ _ Hi (tail_not_digit _ _ r Hr)).
  pose proof (lex_tail (nt_frac t) (nt_exp t) r Hf He Hr) as Ht.
  destruct (lex_frac (tail_string (nt_frac t) (nt_exp t) ++ r)) as [frac' r1].
  destruct (lex_exp r1) as [ex' r2].
  injection Ht as -> -> ->. now destruct t.
Qed.

(** * Reading a decimal that is exactly a binary64 number

    The rounding of [p / q] is studied through the comparison of [p / q]
    with powers of two, written on integers. *)

Section Rounding.

Local Open Scope Z_scope.

Lemma scale2_eq (p q e : Z) :
  scale2 p q e = (p * 2 ^ Z.max (- e) 0, q * 2 ^ Z.max e 0).
Proof.
  unfold scale2. destruct (Z.leb_spec 0 e).
  - rewrite (Z.max_r (- e)), (Z.max_l e) by lia. now rewrite Z.mul_1_r.
  - rewrite (Z.max_l (- e)), (Z.max_r e) by lia. now rewrite Z.mul_1_r.
Qed.

Lemma pow2_pos (x : Z) : 0 <= x -> 0 < 2 ^ x.
Proof. intros. now apply Z.pow_pos_nonneg. Qed.

Lemma ge_pow2_alt (p q u v : Z) :
  0 <= u -> 0 <= v ->
  ge_pow2 p q (u - v) <-> q * 2 ^ u <= p * 2 ^ v.
Proof.
  intros Hu Hv. unfold ge_pow2.
  destruct (Z.le_gt_cases 0 (u - v)) as [H|H].
  - rewrite (Z.max_l (u - v)), (Z.max_r (- (u - v))) by lia.
    replace u with ((u - v) + v) at 2 by ring.
    rewrite Z.pow_add_r by lia.
    pose proof (pow2_pos v Hv). pose proof (pow2_pos (u - v) H).
    rewrite Z.mul_1_r. split; intros; nia.
  - rewrite (Z.max_r (u - v)), (Z.max_l (- (u - v))) by lia.
    replace v with (u + - (u - v)) at 2 by ring.
    rewrite Z.pow_add_r by lia.
    pose proof (pow2_pos u Hu). pose proof (pow2_pos (- (u - v)) ltac:(lia)).
    rewrite Z.mul_1_r. split; intros; nia.
Qed.

Lemma ge_pow2_mono (p q x y : Z) :
  0 < p -> x <= y -> ge_pow2 p q y -> ge_pow2 p q x.
Proof.
  intros Hp Hxy Hy.
  replace x with (Z.max y 0 - (Z.max (- y) 0 + (y - x))) by lia.
  apply ge_pow2_alt; try lia.
  rewrite Z.pow_add_r by lia. unfold ge_pow2 in Hy.
  pose proof (pow2_pos (Z.max (- y) 0) ltac:(lia)).
  assert (1 <= 2 ^ (y - x)) by (pose proof (pow2_pos (y - x)); lia).
  nia.
Qed.

Lemma ilog2_ratio_spec (p q : Z) :
  0 < p -> 0 < q ->
  ge_pow2 p q (ilog2_ratio p q) /\ ~ ge_pow2 p q (ilog2_ratio p q + 1).
Proof.
  intros Hp Hq. unfold ilog2_ratio.
  pose proof (Z.log2_spec p Hp) as [Hp1 Hp2].
  pose proof (Z.log2_spec q Hq) as [Hq1 Hq2].
  pose proof (Z.log2_nonneg p) as Hlp. pose proof (Z.log2_nonneg q) as Hlq.
  set (lp := Z.log2 p) in *. set (lq := Z.log2 q) in *.
  unfold Z.succ in *.
  assert (Hlow : ge_pow2 p q (lp - lq - 1)).
  { replace (lp - lq - 1) with (lp - (lq + 1)) by ring.
    apply ge_pow2_alt; try lia.
    pose proof (pow2_pos lp Hlp). nia. }
  assert (Hhigh : ~ ge_pow2 p q (lp - lq + 1)).
  { replace (lp - lq + 1) with ((lp + 1) - lq) by ring.
    rewrite ge_pow2_alt by lia.
    pose proof (pow2_pos lq Hlq). nia. }
  rewrite scale2_eq.
  destruct (Z.leb_spec (q * 2 ^ Z.max (lp - lq) 0)
                       (p * 2 ^ Z.max (- (lp - lq)) 0)) as [H|H].
  - split; [ exact H | exact Hhigh ].
  - split; [ exact Hlow | ].
    replace (lp - lq - 1 + 1) with (lp - lq) by ring.
    unfold ge_pow2. lia.
Qed.

Lemma ilog2_ratio_unique (p q d : Z) :
  0 < p -> 0 < q ->
  ge_pow2 p q d -> ~ ge_pow2 p q (d + 1) -> ilog2_ratio p q = d.
Proof.
  intros Hp Hq Hd Hd1.
  destruct (ilog2_ratio_spec p q Hp Hq) as [Hr Hr1].
  destruct (Z.lt_trichotomy (ilog2_ratio p q) d) as [H|[H|H]]; auto.
  - elim Hr1. apply (ge_pow2_mono p q _ d); auto; lia.
  - elim Hd1. apply (ge_pow2_mono p q _ (ilog2_ratio p q)); auto; lia.
Qed.

Lemma digits2_pos_size (m : positive) : digits2_pos m = Pos.size m.
Proof. induction m; simpl; congruence. Qed.

Lemma digits2_log2 (m : positive) :
  Z.pos (digits2_pos m) = Z.log2 (Z.pos m) + 1.
Proof.
  rewrite digits2_pos_size. destruct m; simpl; try reflexivity;
    now rewrite Pos.add_1_r.
Qed.

(** Rounding the exact value of a binary64 number gives that number. *)
Lemma round_ratio_exact (neg : bool) (p q : Z) (m : positive) (e : Z) :
  0 < p -> 0 < q ->
  bounded prec emax m e = true ->
  same_value p q m e ->
  round_ratio neg p q = S754_finite neg m e.
Proof.
  intros Hp Hq Hb Hv. unfold same_value in Hv.
  unfold bounded, canonical_mantissa in Hb.
  apply andb_true_iff in Hb as [Hc He].
  apply Z.eqb_eq in Hc. apply Z.leb_le in He.
  rewrite digits2_log2 in Hc.
  pose proof (Z.log2_spec (Z.pos m) ltac:(lia)) as [Hm1 Hm2].
  pose proof (Z.log2_nonneg (Z.pos m)) as HL.
  set (L := Z.log2 (Z.pos m)) in *. unfold Z.succ in Hm2.
  pose proof (pow2_pos (Z.max e 0) ltac:(lia)) as Hpe.
  pose proof (pow2_pos (Z.max (- e) 0) ltac:(lia)) as Hne.
  assert (Hd : ilog2_ratio p q = L + e).
  { apply ilog2_ratio_unique; auto.
    - replace (L + e) with ((L + Z.max e 0) - Z.max (- e) 0) by lia.
      apply ge_pow2_alt; try lia.
      rewrite Z.pow_add_r by lia. rewrite Hv. nia.
    - replace (L + e + 1) with ((L + 1 + Z.max e 0) - Z.max (- e) 0) by lia.
      rewrite ge_pow2_alt by lia.
      rewrite Z.pow_add_r by lia. rewrite Hv. nia. }
  unfold round_ratio. rewrite Hd.
  replace (L + e + 1) with (L + 1 + e) by ring. rewrite Hc.
  rewrite scale2_eq, Hv.
  assert (Hb0 : 0 < q * 2 ^ Z.max e 0) by nia.
  set (b := q * 2 ^ Z.max e 0) in *.
  unfold round_half_even.
  rewrite Z.div_mul by lia. rewrite Z.mod_mul by lia.
  replace (2 * 0 ?= b) with Lt by (symmetry; apply Z.compare_lt_iff; lia).
  assert (Hlt : Z.pos m < 2 ^ prec).
  { unfold fexp in Hc.
    assert (L + 1 <= prec) by lia.
    apply Z.lt_le_trans with (2 ^ (L + 1)); [ exact Hm2 | ].
    apply Z.pow_le_mono_r; lia. }
  destruct (Z.eqb_spec (Z.pos m) (2 ^ prec)) as [E|_]; [ lia | ].
  destruct (Z.leb_spec e (emax - prec)); [ reflexivity | lia ].
Qed.

Lemma decimal_to_sf_exact (neg : bool) (n k : Z) (m : positive) (e : Z) :
  0 < n ->
  bounded prec emax m e = true ->
  decimal_is n k m e ->
  decimal_to_sf neg n k = S754_finite neg m e.
Proof.
  intros Hn Hb Hv. unfold decimal_is in Hv. unfold decimal_to_sf.
  destruct (Z.leb_spec n 0); [ lia | ].
  destruct (Z.leb_spec 0 k).
  - rewrite (Z.max_l k), (Z.max_r (- k)) in Hv by lia.
    apply round_ratio_exact; [ | lia | exact Hb | ].
    + apply Z.mul_pos_pos; [ lia | apply Z.pow_pos_nonneg; lia ].
    + unfold same_value. rewrite Hv. change (10 ^ 0) with 1. ring.
  - rewrite (Z.max_r k), (Z.max_l (- k)) in Hv by lia.
    apply round_ratio_exact; [ lia | | exact Hb | ].
    + apply Z.pow_pos_nonneg; lia.
    + unfold same_value. change (10 ^ 0) with 1 in Hv.
      rewrite Z.mul_1_r in Hv. rewrite Hv. ring.
Qed.

(** The exact expansion has the value it expands. *)
Lemma exact_decimal_is (m : positive) (e : Z) :
  decimal_is (fst (exact_decimal m e)) (snd (exact_decimal m e)) m e.
Proof.
  unfold exact_decimal, decimal_is.
  destruct (Z.leb_spec 0 e); cbn [fst snd].
  - rewrite (Z.max_r (- e)), (Z.max_l e) by lia.
    change (Z.max 0 0) with 0. change (Z.max (- 0) 0) with 0.
    change (10 ^ 0) with 1. change (2 ^ 0) with 1. ring.
  - rewrite (Z.max_l (- e) 0), (Z.max_r e 0) by lia.
    change (2 ^ 0) with 1.
    replace (10 ^ (- e)) with (5 ^ (- e) * 2 ^ (- e))
      by (rewrite <- Z.pow_mul_l; reflexivity).
    ring.
Qed.

Lemma exact_decimal_pos (m : positive) (e : Z) :
  0 < fst (exact_decimal m e).
Proof.
  unfold exact_decimal. destruct (Z.leb_spec 0 e); cbn [fst];
    apply Z.mul_pos_pos; try lia; apply Z.pow_pos_nonneg; lia.
Qed.

End Rounding.

(** * The value and the shape of a laid out decimal *)

Section Layout.

Local Open Scope Z_scope.

Lemma exp_digits_value (e : Z) : Z_of_digits 0 (exp_digits e) = Z.abs e.
Proof.
  unfold exp_digits. destruct (Z.abs e <? 10).
  - cbn [append Z_of_digits]. change (10 * 0 + digit_val "0") with 0.
    apply Z_of_digits_of_Z. lia.
  - apply Z_of_digits_of_Z. lia.
Qed.

Lemma exp_value_digits (e : Z) :
  exp_value (Some (e <? 0, exp_digits e)) = e.
Proof.
  unfold exp_value. rewrite exp_digits_value.
  destruct (Z.ltb_spec e 0); lia.
Qed.

Lemma exp_digits_ok (e : Z) : digits_ok (exp_digits e).
Proof.
  unfold exp_digits, digits_ok. destruct (Z.abs e <? 10).
  - split; [ | discriminate ]. cbn [append all_digits].
    now rewrite all_digits_of_Z.
  - split; [ apply all_digits_of_Z | ].
    destruct (Z.abs e); try discriminate; apply digits_of_pos_nonempty.
Qed.

(** The value a laid out digit string reads as: the digits scaled by the
    position of the point; only the positional form of an integer adds a
    fraction digit of its own. *)
Lemma layout_value (neg : bool) (ds : string) (decpt : Z) :
  all_digits ds = true -> ds <> "" ->
  let len := Z.of_nat (String.length ds) in
  let n := Z_of_digits 0 ds in
  sf_of_token (layout neg ds decpt) =
    if negb (uses_exponent decpt) && negb (decpt <=? 0) && (len <=? decpt)
    then decimal_to_sf neg (n * 10 ^ (decpt - len + 1)) (-1)
    else decimal_to_sf neg n (decpt - len).
Proof.
  intros Hd Hne len n. unfold layout, uses_exponent. fold len.
  assert (Hlen : 1 <= len).
  { subst len. destruct ds; [ congruence | simpl String.length; lia ]. }
  destruct ((decpt <=? -4) || (16 <? decpt)) eqn:Eexp; cbn [negb andb].
  - (* exponent form *)
    unfold sf_of_token. cbn [nt_neg nt_int nt_frac nt_exp].
    rewrite exp_value_digits.
    destruct (Z.ltb_spec 1 len) as [H1|H1]; cbn [frac_digits].
    + rewrite take_drop. fold n. rewrite length_drop.
      f_equal. subst len. lia.
    + rewrite append_nil_r, take_all by (subst len; lia). fold n.
      cbn [String.length]. f_equal. subst len. lia.
  - destruct (Z.leb_spec decpt 0) as [H0|H0]; cbn [negb andb].
    + (* 0.000ddd *)
      unfold sf_of_token. cbn [nt_neg nt_int nt_frac nt_exp frac_digits exp_value].
      cbn [append Z_of_digits]. change (10 * 0 + digit_val "0") with 0.
      rewrite Z_of_digits_app, Z_of_digits_zeros. cbn [Z.mul]. fold n.
      rewrite length_app, length_zeros. f_equal. subst len. lia.
    + destruct (Z.leb_spec len decpt) as [H2|H2].
      * (* ddd000.0 *)
        unfold sf_of_token. cbn [nt_neg nt_int nt_frac nt_exp frac_digits exp_value].
        rewrite !Z_of_digits_app, Z_of_digits_zeros. fold n.
        cbn [Z_of_digits String.length]. change (digit_val "0") with 0.
        rewrite Z2Nat.id by lia.
        replace (decpt - len + 1) with (Z.succ (decpt - len)) by ring.
        rewrite Z.pow_succ_r by lia.
        f_equal. ring.
      * (* dd.ddd *)
        unfold sf_of_token. cbn [nt_neg nt_int nt_frac nt_exp frac_digits exp_value].
        rewrite take_drop. fold n. rewrite length_drop.
        f_equal. subst len. lia.
Qed.

Lemma layout_ok (neg : bool) (c : ascii) (r : string) (decpt : Z) :
  all_digits (String c r) = true -> c <> "0"%char ->
  token_ok (layout neg (String c r) decpt).
Proof.
  intros Hd Hc.
  assert (Hlen : String.length (String c r) = S (String.length r))
    by reflexivity.
  unfold layout.
  destruct ((decpt <=? -4) || (16 <? decpt)).
  - split; [ split | split ]; cbn [nt_int nt_frac nt_exp].
    + now apply all_digits_take.
    + cbn [take]. intros _. reflexivity.
    + destruct (Z.ltb_spec 1 (Z.of_nat (String.length (String c r))));
        [ | exact I ].
      split; [ now apply all_digits_drop | ].
      intros E. apply (f_equal String.length) in E.
      rewrite length_drop in E. simpl in E. lia.
    + apply exp_digits_ok.
  - destruct (Z.leb_spec decpt 0).
    + split; [ split | split ]; cbn [nt_int nt_frac nt_exp]; auto.
      split.
      * rewrite all_digits_app, all_digits_zeros. exact Hd.
      * intros E. apply (f_equal String.length) in E.
        rewrite length_app in E. simpl in E. lia.
    + destruct (Z.leb_spec (Z.of_nat (String.length (String c r))) decpt).
      * split; [ split | split ]; cbn [nt_int nt_frac nt_exp]; auto.
        -- rewrite all_digits_app, all_digits_zeros, andb_true_r. exact Hd.
        -- cbn [append]. intros E. now elim Hc.
        -- split; [ reflexivity | discriminate ].
      * destruct (Z.to_nat decpt) as [|d] eqn:Ed; [ lia | ].
        split; [ split | split ]; cbn [nt_int nt_frac nt_exp]; auto.
        -- now apply all_digits_take.
        -- cbn [take]. intros E. now elim Hc.
        -- split; [ now apply all_digits_drop | ].
           intros E. apply (f_equal String.length) in E.
           rewrite length_drop in E. simpl in E. lia.
Qed.

Lemma sf_eqb_eq (x y : spec_float) : sf_eqb x y = true -> x = y.
Proof.
  destruct x as [| | |s1 m1 e1], y as [| | |s2 m2 e2]; simpl;
    try discriminate.
  intros H. apply andb_true_iff in H as [H He].
  apply andb_true_iff in H as [Hs Hm].
  apply Bool.eqb_prop in Hs. apply Pos.eqb_eq in Hm. apply Z.eqb_eq in He.
  congruence.
Qed.

(** A decimal token of a positive number is well formed. *)
Lemma decimal_token_ok (neg : bool) (n k : Z) :
  0 < n -> token_ok (decimal_token neg n k).
Proof.
  intros Hn. unfold decimal_token.
  destruct n as [|p|p]; try lia.
  destruct (digits_of_pos_head p) as (c & r & E & Hc).
  pose proof (all_digits_of_Z (Z.pos p)) as Hd.
  rewrite E in *. now apply layout_ok.
Qed.

(** A decimal token of a number that is not positive reads as a zero. *)
Lemma decimal_token_zero (neg : bool) (n k : Z) :
  n <= 0 -> sf_of_token (decimal_token neg n k) = S754_zero neg.
Proof.
  intros Hn. unfold decimal_token.
  replace (digits_of_Z n) with "0" by (destruct n; try reflexivity; lia).
  rewrite layout_value by (try reflexivity; discriminate).
  cbn [Z_of_digits]. change (10 * 0 + digit_val "0") with 0.
  destruct (_ && _); reflexivity.
Qed.

(** A decimal token whose decimal is the value of a binary64 number reads
    back as that number. *)
Lemma decimal_token_exact (neg : bool) (n k : Z) (m : positive) (e : Z) :
  0 < n ->
  bounded prec emax m e = true ->
  decimal_is n k m e ->
  sf_of_token (decimal_token neg n k) = S754_finite neg m e.
Proof.
  intros Hn Hb Hv. unfold decimal_token.
  pose proof (all_digits_of_Z n) as Hd.
  assert (Hne : digits_of_Z n <> "").
  { destruct n; try lia. apply digits_of_pos_nonempty. }
  rewrite layout_value by assumption.
  rewrite Z_of_digits_of_Z by lia.
  set (len := Z.of_nat (String.length (digits_of_Z n))).
  replace (len + k - len) with k by ring.
  destruct (negb (uses_exponent (len + k)) && negb (len + k <=? 0)
            && (len <=? len + k)) eqn:E.
  - apply andb_true_iff in E as [_ E]. apply Z.leb_le in E.
    apply decimal_to_sf_exact; auto.
    + apply Z.mul_pos_pos; [ lia | apply Z.pow_pos_nonneg; lia ].
    + unfold decimal_is in *.
      rewrite (Z.max_l k 0), (Z.max_r (- k) 0) in Hv by lia.
      change (Z.max (-1) 0) with 0. change (Z.max (- -1) 0) with 1.
      change (10 ^ 0) with 1 in *. change (10 ^ 1) with 10.
      replace (k + 1) with (Z.succ k) by ring.
      rewrite Z.pow_succ_r by lia. nia.
  - now apply decimal_to_sf_exact.
Qed.

End Layout.

(** * The shortest decimal reads back *)

(** Every token that is written has a fraction or an exponent, so it is
    read as a float. *)
Lemma layout_is_float (neg : bool) (ds : string) (decpt : Z) :
  number_value (layout neg ds decpt)
  = JFloat (float_of_token (layout neg ds decpt)).
Proof.
  unfold layout, number_value.
  destruct ((decpt <=? -4)%Z || (16 <? decpt)%Z); cbn [nt_frac nt_exp].
  - now destruct (1 <? Z.of_nat (String.length ds))%Z.
  - destruct (decpt <=? 0)%Z; [ reflexivity | ].
    now destruct (Z.of_nat (String.length ds) <=? decpt)%Z.
Qed.

Lemma layout_neg (neg : bool) (ds : string) (decpt : Z) :
  nt_neg (layout neg ds decpt) = neg.
Proof.
  unfold layout.
  destruct ((decpt <=? -4)%Z || (16 <? decpt)%Z); [ reflexivity | ].
  destruct (decpt <=? 0)%Z; [ reflexivity | ].
  now destruct (Z.of_nat (String.length ds) <=? decpt)%Z.
Qed.

Lemma first_reading_back_sound (neg : bool) (m : positive) (e : Z)
    (cs : list (Z * Z)) (t : number_token) :
  first_reading_back neg m e cs = Some t ->
  reads_back t (S754_finite neg m e).
Proof.
  induction cs as [|[n k] cs IH]; simpl; [ discriminate | ].
  destruct (sf_eqb (sf_of_token (decimal_token neg n k))
                   (S754_finite neg m e)) eqn:E; [ | exact IH ].
  intros H. injection H as <-. apply sf_eqb_eq in E.
  split; [ | split; [ apply layout_neg | split;
                      [ apply layout_is_float | exact E ] ] ].
  apply decimal_token_ok.
  destruct (Z.lt_ge_cases 0 n) as [Hn|Hn]; [ exact Hn | ].
  rewrite decimal_token_zero in E by lia. discriminate E.
Qed.

Lemma shortest_from_sound (fuel p : nat) (neg : bool) (m : positive) (e : Z) :
  bounded prec emax m e = true ->
  reads_back (shortest_from fuel p neg m e) (S754_finite neg m e).
Proof.
  intros Hb. revert p. induction fuel as [|fuel IH]; intros p; simpl.
  - pose proof (exact_decimal_is m e) as Hv.
    pose proof (exact_decimal_pos m e) as Hn.
    destruct (exact_decimal m e) as [n k]. simpl in *.
    split; [ now apply decimal_token_ok | ].
    split; [ apply layout_neg | ].
    split; [ apply layout_is_float | now apply decimal_token_exact ].
  - destruct (scale2 (Z.pos m) 1 (- e)) as [a b].
    destruct (first_reading_back neg m e (candidates a b p)) as [t|] eqn:E.
    + now apply first_reading_back_sound in E.
    + apply IH.
Qed.

(** The token written for a finite float is well formed and reads back
    as that float. *)
Lemma shortest_token_sound (neg : bool) (m : positive) (e : Z) :
  bounded prec emax m e = true ->
  reads_back (shortest_token neg m e) (S754_finite neg m e).
Proof.
  intros Hb. unfold shortest_token.
  destruct (exact_decimal m e) as [n k]. now apply shortest_from_sound.
Qed.

(** * Reading back what [json.dumps] wrote *)

(** A text starting with a minus sign or a digit is read as a number. *)
Lemma parse_value_number (fuel : nat) (c : ascii) (s : string)
    (t : number_token) (r : string) :
  c = "-"%char \/ is_digit c = true ->
  lex_number (String c s) = Some (t, r) ->
  parse_value (S fuel) (String c s) = Ok (number_value t, r).
Proof.
  intros Hc Hlex.
  assert (H : Ascii.eqb c "034" = false /\ Ascii.eqb c "{" = false /\
              Ascii.eqb c "[" = false /\ Ascii.eqb "n" c = false /\
              Ascii.eqb "t" c = false /\ Ascii.eqb "f" c = false).
  { destruct Hc as [->|Hc]; [ repeat split; reflexivity | ].
    rewrite (Ascii.eqb_sym "n"), (Ascii.eqb_sym "t"), (Ascii.eqb_sym "f").
    pose proof (digit_not_mark c Hc). tauto. }
  destruct H as (H1 & H2 & H3 & H4 & H5 & H6).
  cbn [parse_value starts_with]. rewrite H1, H2, H3.
  unfold parse_atom. cbn [strip_prefix]. rewrite H4, H5, H6.
  now rewrite Hlex.
Qed.

Lemma token_head (t : number_token) (r : string) :
  token_ok t ->
  exists c s, token_to_string t ++ r = String c s /\
              (c = "-"%char \/ is_digit c = true).
Proof.
  intros ((Hd & Hz) & _). rewrite token_to_string_split.
  destruct (nt_neg t); cbn [append].
  - eexists. eexists. split; [ reflexivity | now left ].
  - destruct (nt_int t) as [|c ds]; [ contradiction | ]. cbn [append].
    simpl in Hd. apply andb_true_iff in Hd as [Hc _].
    eexists. eexists. split; [ reflexivity | now right ].
Qed.

(** A written token followed by a delimiter is read as the float it
    stands for. *)
Lemma parse_token (fuel : nat) (t : number_token) (x : float) (r : string) :
  reads_back t (Prim2SF x) -> delimited r ->
  parse_value (S fuel) (token_to_string t ++ r) = Ok (JFloat x, r).
Proof.
  intros (Hok & _ & Hfl & Hsf) Hr.
  destruct (token_head t r Hok) as (c & s & E & Hc).
  pose proof (lex_number_token t r Hok Hr) as Hlex.
  rewrite E in *. rewrite (parse_value_number fuel c s t r Hc Hlex).
  rewrite Hfl. unfold float_of_token. rewrite Hsf.
  now rewrite SF2Prim_Prim2SF.
Qed.

Lemma zero_token_reads_back (s : bool) :
  reads_back {| nt_neg := s; nt_int := "0"; nt_frac := Some "0";
                nt_exp := None |} (S754_zero s).
Proof.
  repeat split; try discriminate; reflexivity.
Qed.

(** The text of a float, followed by a delimiter, is read as that very
    float; not-a-number and the infinities go through their names. *)
Lemma parse_float (fuel : nat) (x : float) (r : string) :
  delimited r ->
  parse_value (S fuel) (encode_float x ++ r) = Ok (JFloat x, r).
Proof.
  intros Hr. unfold encode_float, float_repr.
  pose proof (Prim2SF_valid x) as Hv.
  pose proof (SF2Prim_Prim2SF x) as Hx.
  destruct (Prim2SF x) as [s|s| |s m e] eqn:E.
  - pose proof (zero_token_reads_back s) as Hz. rewrite <- E in Hz.
    destruct s; exact (parse_token fuel _ x r Hz Hr).
  - destruct s; rewrite <- Hx; reflexivity.
  - rewrite <- Hx. reflexivity.
  - pose proof (shortest_token_sound s m e Hv) as Hs. rewrite <- E in Hs.
    exact (parse_token fuel _ x r Hs Hr).
Qed.

(** The text of a float starts with a character that is not white space
    and has at least one character. *)
Lemma encode_float_head (x : float) :
  exists c s, encode_float x = String c s /\ is_ws c = false.
Proof.
  unfold encode_float, float_repr.
  pose proof (Prim2SF_valid x) as Hv.
  destruct (Prim2SF x) as [s|s| |s m e] eqn:E.
  - destruct s; eexists; eexists; split; reflexivity.
  - destruct s; eexists; eexists; split; reflexivity.
  - eexists; eexists; split; reflexivity.
  - destruct (shortest_token_sound s m e Hv) as (Hok & _).
    destruct (token_head (shortest_token s m e) "" Hok) as (c & r & Eh & Hc).
    rewrite append_nil_r in Eh. exists c, r. split; [ exact Eh | ].
    destruct Hc as [->|Hc]; [ reflexivity | ].
    apply digit_cases in Hc. simpl in Hc.
    repeat (destruct Hc as [<-|Hc]; [ reflexivity | ]). contradiction.
Qed.

Section Strings.

Lemma plain_char_bounds (c : ascii) :
  plain_char c = true ->
  (32 <= N_of_ascii c <= 126 /\ N_of_ascii c <> 34 /\ N_of_ascii c <> 92)%N.
Proof.
  unfold plain_char. intros H.
  apply andb_true_iff in H as [H H4]. apply andb_true_iff in H as [H H3].
  apply andb_true_iff in H as [H1 H2].
  apply N.leb_le in H1, H2. apply negb_true_iff in H3, H4.
  apply N.eqb_neq in H3, H4. lia.
Qed.

Ltac settle_tests n :=
  repeat match goal with
  | |- context [(n =? ?k)%N] =>
      replace (n =? k)%N with false by (symmetry; apply N.eqb_neq; lia)
  | |- context [(n <? ?k)%N] =>
      replace (n <? k)%N with false by (symmetry; apply N.ltb_ge; lia)
  | |- context [(?k <=? n)%N] =>
      replace (k <=? n)%N with true by (symmetry; apply N.leb_le; lia)
  | |- context [(n <=? ?k)%N] =>
      replace (n <=? k)%N with true by (symmetry; apply N.leb_le; lia)
  end.

Lemma escape_plain (fuel : nat) (s : string) :
  plain s = true -> (String.length s <= fuel)%nat ->
  escape_chars fuel s = s.
Proof.
  revert s. induction fuel as [|fuel IH]; intros [|c s] Hp Hl;
    simpl in Hl; try reflexivity; try lia.
  simpl in Hp. apply andb_true_iff in Hp as [Hc Hp].
  apply plain_char_bounds in Hc.
  cbn [escape_chars]. set (n := N_of_ascii c) in *. cbv zeta.
  settle_tests n. cbn [andb]. rewrite IH; [ reflexivity | exact Hp | lia ].
Qed.

Lemma scan_plain (fuel : nat) (s rest : string) :
  plain s = true -> (String.length s < fuel)%nat ->
  scan_string fuel (s ++ String "034" rest) = Ok (s, rest).
Proof.
  revert s. induction fuel as [|fuel IH]; intros s Hp Hl; [ lia | ].
  destruct s as [|c s]; [ reflexivity | ].
  simpl in Hp. apply andb_true_iff in Hp as [Hc Hp].
  apply plain_char_bounds in Hc. simpl in Hl.
  cbn [append scan_string]. set (n := N_of_ascii c) in *. cbv zeta.
  settle_tests n.
  rewrite IH; [ reflexivity | exact Hp | lia ].
Qed.

Lemma plain_string_ok (s : string) : plain s = true -> string_ok s.
Proof.
  intros Hp rest. unfold string_body.
  rewrite escape_plain by (auto; lia).
  rewrite append_assoc. cbn [append].
  apply scan_plain; [ exact Hp | ].
  rewrite length_app. simpl. lia.
Qed.

End Strings.

Lemma skip_ws_head (c : ascii) (s : string) :
  is_ws c = false -> skip_ws (String c s) = String c s.
Proof. intros H. simpl. now rewrite H. Qed.

Lemma skip_ws_app (w s : string) :
  ws_only w = true -> skip_ws (w ++ s) = skip_ws s.
Proof.
  induction w as [|c w IH]; simpl; [ reflexivity | ].
  intros H. apply andb_true_iff in H as [Hc Hw]. rewrite Hc. now apply IH.
Qed.

Lemma ws_only_spaces (n : nat) : ws_only (spaces n) = true.
Proof. induction n; simpl; auto. Qed.

Lemma ws_only_opening (indent : option nat) (lvl : nat) :
  ws_only (opening indent lvl) = true.
Proof.
  destruct indent; simpl; [ apply ws_only_spaces | reflexivity ].
Qed.

Lemma ws_only_closing (indent : option nat) (lvl : nat) :
  ws_only (closing indent lvl) = true.
Proof.
  destruct indent; simpl; [ apply ws_only_spaces | reflexivity ].
Qed.

(** A separator is a comma followed by white space. *)
Lemma separator_split (indent : option nat) (lvl : nat) :
  exists w, separator indent lvl = String "," w /\ ws_only w = true.
Proof.
  destruct indent; simpl; eexists; (split; [ reflexivity | ]).
  - apply ws_only_spaces.
  - reflexivity.
Qed.

(** * Payloads are read back as they were written *)

Section Dicts.

Variable indent : option nat.

Lemma dumps_at_dict (lvl : nat) (k : string) (v : json)
    (d : list (string * json)) :
  dumps_at indent lvl (JDict ((k, v) :: d))
  = "{" ++ opening indent lvl ++ encode_string k ++ ": " ++
    dumps_at indent (S lvl) v ++ items_text indent lvl d ++
    closing indent lvl ++ "}".
Proof.
  cbn [dumps_at]. fold (opening indent lvl). fold (closing indent lvl).
  fold (separator indent lvl).
  do 5 f_equal. f_equal.
  induction d as [|[k' v'] d IH]; cbn [items_text]; [ reflexivity | ].
  now rewrite <- IH.
Qed.

Lemma dumps_head (lvl : nat) (j : json) :
  payload_like j ->
  exists c s, dumps_at indent lvl j = String c s /\ is_ws c = false.
Proof.
  destruct j as [| | |x|s|l|d]; simpl; try contradiction; intros _.
  - apply encode_float_head.
  - eexists. eexists. split; reflexivity.
  - destruct d as [|[k v] d]; eexists; eexists; split; reflexivity.
Qed.

Lemma dict_set_fresh {V} (acc : dict V) (k : string) (v : V) :
  ~ In k (map fst acc) -> dict_set acc k v = (acc ++ [(k, v)])%list.
Proof.
  induction acc as [|[k' v'] acc IH]; simpl; intros H; [ reflexivity | ].
  destruct (String.eqb_spec k' k) as [->|_]; [ tauto | ].
  rewrite IH; tauto.
Qed.

(** What follows a member: a separator, or the closing of the dict. *)
Lemma after_member_delimited (lvl : nat) (d : list (string * json))
    (rest : string) :
  delimited (items_text indent lvl d ++ closing indent lvl ++ "}" ++ rest).
Proof.
  destruct d as [|[k v] d]; cbn [items_text append].
  - destruct indent; simpl; repeat split; discriminate.
  - destruct (separator_split indent lvl) as (w & -> & _).
    simpl. repeat split; discriminate.
Qed.

Lemma parse_members_step (fuel : nat) (acc : list (string * json))
    (body k r1 : string) :
  scan_string (String.length body) body = Ok (k, r1) ->
  parse_members (S fuel) acc (String "034" body)
  = match starts_with ":" (skip_ws r1) with
    | Some r1' =>
        vr <- parse_value fuel (skip_ws r1') ;;
        let acc := dict_set acc k (fst vr) in
        let r2 := skip_ws (snd vr) in
        match starts_with "}" r2, starts_with "," r2 with
        | Some r3, _ => Ok (JDict acc, r3)
        | _, Some r3 => parse_members fuel acc (skip_ws r3)
        | None, None => Raise JSONDecodeError
        end
    | None => Raise JSONDecodeError
    end.
Proof.
  intros H. cbn [parse_members starts_with].
  change (Ascii.eqb "034" "034") with true. cbv iota.
  rewrite H. reflexivity.
Qed.

Lemma starts_with_hit (c : ascii) (s : string) :
  starts_with c (String c s) = Some s.
Proof. simpl. now rewrite Ascii.eqb_refl. Qed.

(** One member: its key, the colon, its value; what is left is [r]. *)
Lemma parse_one_member (n : nat) :
  reads_back_within indent n ->
  forall k v acc fuel lvl r,
    string_ok k -> payload_like v ->
    (steps v <= n)%nat -> (steps v <= fuel)%nat -> delimited r ->
    parse_members (S fuel) acc
      (encode_string k ++ ": " ++ dumps_at indent (S lvl) v ++ r)
    = match starts_with "}" (skip_ws r), starts_with "," (skip_ws r) with
      | Some r3, _ => Ok (JDict (dict_set acc k v), r3)
      | _, Some r3 => parse_members fuel (dict_set acc k v) (skip_ws r3)
      | None, None => Raise JSONDecodeError
      end.
Proof.
  intros IHn k v acc fuel lvl r Hk Hv Hn Hfuel Hr.
  change (encode_string k) with (String "034" (string_body k)).
  cbn [append].
  rewrite (parse_members_step fuel acc _ k _ (Hk _)).
  rewrite (skip_ws_head ":" _ eq_refl), starts_with_hit.
  destruct (dumps_head (S lvl) v Hv) as (c & s & Eh & Hc).
  assert (Hskip : skip_ws (String " " (dumps_at indent (S lvl) v ++ r))
                  = dumps_at indent (S lvl) v ++ r).
  { rewrite Eh. cbn [append]. change (skip_ws (String " " ?x)) with (skip_ws x).
    now apply skip_ws_head. }
  rewrite Hskip.
  rewrite (IHn v Hn Hv fuel (S lvl) r Hfuel Hr).
  reflexivity.
Qed.

Lemma items_text_cons_split (lvl : nat) (k : string) (v : json)
    (d : list (string * json)) (r : string) :
  exists w, ws_only w = true /\
    items_text indent lvl ((k, v) :: d) ++ r
    = String "," (w ++ encode_string k ++ ": " ++
                  dumps_at indent (S lvl) v ++ items_text indent lvl d ++ r).
Proof.
  cbn [items_text].
  destruct (separator_split indent lvl) as (w & E & Hw).
  exists w. split; [ exact Hw | ].
  rewrite E. rewrite !append_assoc. reflexivity.
Qed.

Lemma parse_members_text (n : nat) :
  reads_back_within indent n ->
  forall d k v acc fuel lvl rest,
    string_ok k -> payload_like v -> members_ok d ->
    (members_steps ((k, v) :: d) <= S n)%nat ->
    (members_steps ((k, v) :: d) <= fuel)%nat ->
    NoDup (map fst acc ++ k :: map fst d) ->
    parse_members fuel acc
      (encode_string k ++ ": " ++ dumps_at indent (S lvl) v ++
       items_text indent lvl d ++ closing indent lvl ++ "}" ++ rest)
    = Ok (JDict (acc ++ (k, v) :: d), rest).
Proof.
  intros IHn. induction d as [|[k' v'] d IHd];
    intros k v acc fuel lvl rest Hk Hv Hd Hn Hfuel Hnd;
    cbn [members_steps] in Hn, Hfuel;
    (destruct fuel as [|fuel]; [ lia | ]);
    rewrite (parse_one_member n IHn k v acc fuel lvl _ Hk Hv
               ltac:(lia) ltac:(lia) (after_member_delimited lvl _ rest));
    rewrite dict_set_fresh
      by (intros Hin; apply NoDup_remove_2 in Hnd; apply Hnd;
          apply in_or_app; left; exact Hin).
  - (* last member *)
    cbn [items_text append].
    rewrite (skip_ws_app _ _ (ws_only_closing indent lvl)).
    cbn [append]. rewrite (skip_ws_head "}" _ eq_refl), starts_with_hit.
    reflexivity.
  - (* a member followed by another *)
    destruct Hd as (Hk' & Hv' & Hd).
    destruct (items_text_cons_split lvl k' v' d
                (closing indent lvl ++ "}" ++ rest)) as (w & Hw & ->).
    rewrite (skip_ws_head "," _ eq_refl), starts_with_hit.
    replace (starts_with "}" (String "," _)) with (@None string)
      by reflexivity.
    rewrite (skip_ws_app _ _ Hw).
    change (encode_string k') with (String "034" (string_body k')) at 1.
    cbn [append]. rewrite (skip_ws_head "034" _ eq_refl).
    change (String "034" (string_body k' ++ ?x))
      with (encode_string k' ++ x).
    replace (acc ++ (k, v) :: (k', v') :: d)%list
      with ((acc ++ [(k, v)]) ++ (k', v') :: d)%list
      by (now rewrite <- List.app_assoc).
    apply IHd; auto; try (cbn [members_steps]; lia).
    rewrite map_app. cbn [map fst]. rewrite <- List.app_assoc. exact Hnd.
Qed.

Lemma steps_dict (d : list (string * json)) :
  steps (JDict d) = S (members_steps d).
Proof.
  reflexivity.
Qed.

Lemma payload_like_dict (d : list (string * json)) :
  payload_like (JDict d) <-> NoDup (map fst d) /\ members_ok d.
Proof.
  reflexivity.
Qed.

Lemma steps_pos (j : json) : (1 <= steps j)%nat.
Proof. destruct j; simpl; lia. Qed.

Lemma dict_text (lvl : nat) (k : string) (v : json)
    (d : list (string * json)) (rest : string) :
  dumps_at indent lvl (JDict ((k, v) :: d)) ++ rest
  = String "{" (opening indent lvl ++ encode_string k ++ ": " ++
                dumps_at indent (S lvl) v ++ items_text indent lvl d ++
                closing indent lvl ++ "}" ++ rest).
Proof.
  rewrite dumps_at_dict. rewrite !append_assoc. reflexivity.
Qed.

Lemma parse_value_brace (fuel : nat) (s : string) :
  parse_value (S fuel) (String "{" s)
  = match starts_with "}" (skip_ws s) with
    | Some r' => Ok (JDict [], r')
    | None => parse_members fuel [] (skip_ws s)
    end.
Proof. reflexivity. Qed.

Lemma skip_ws_key (k r : string) :
  skip_ws (encode_string k ++ r) = encode_string k ++ r.
Proof. reflexivity. Qed.

Lemma starts_with_key (k r : string) :
  starts_with "}" (encode_string k ++ r) = None.
Proof. reflexivity. Qed.

(** Every payload-like value, followed by a delimiter, is read back as
    itself, whatever the indentation it was written with. *)
Lemma reads_back_all (n : nat) : reads_back_within indent n.
Proof.
  induction n as [|n IHn]; intros j Hn Hj fuel lvl rest Hfuel Hr.
  - pose proof (steps_pos j). lia.
  - destruct j as [| | |x|s|l|d]; try contradiction.
    + destruct fuel as [|fuel]; [ simpl in Hfuel; lia | ].
      now apply parse_float.
    + destruct fuel as [|fuel]; [ simpl in Hfuel; lia | ].
      change (dumps_at indent lvl (JStr s))
        with (String "034" (string_body s)).
      cbn [append parse_value]. rewrite starts_with_hit.
      simpl in Hj. rewrite (Hj rest). reflexivity.
    + rewrite steps_dict in Hn, Hfuel.
      apply payload_like_dict in Hj as [Hnd Hd].
      destruct fuel as [|fuel]; [ lia | ].
      destruct d as [|[k v] d]; [ reflexivity | ].
      destruct Hd as (Hk & Hv & Hd).
      rewrite dict_text, parse_value_brace.
      rewrite (skip_ws_app _ _ (ws_only_opening indent lvl)).
      rewrite skip_ws_key, starts_with_key.
      change (JDict ((k, v) :: d)) with (JDict ([] ++ (k, v) :: d)).
      apply (parse_members_text n IHn); auto; lia.
Qed.

Lemma members_long_enough (n : nat) :
  long_enough_within indent n ->
  forall d k v lvl r,
    payload_like v -> members_ok d ->
    (members_steps ((k, v) :: d) <= S n)%nat ->
    (members_steps ((k, v) :: d)
     <= String.length (encode_string k ++ ": " ++ dumps_at indent (S lvl) v
                       ++ items_text indent lvl d ++ r))%nat.
Proof.
  intros IHn. induction d as [|[k' v'] d IHd]; intros k v lvl r Hv Hd Hn;
    cbn [members_steps] in *;
    pose proof (IHn v ltac:(lia) Hv (S lvl)) as Hlen;
    change (encode_string k) with (String "034" (string_body k));
    cbn [append String.length]; rewrite length_app;
    cbn [String.length]; rewrite length_app.
  - lia.
  - destruct Hd as (_ & Hv' & Hd).
    specialize (IHd k' v' lvl r Hv' Hd ltac:(cbn [members_steps]; lia)).
    cbn [members_steps] in IHd.
    assert (E : items_text indent lvl ((k', v') :: d) ++ r
                = separator indent lvl ++
                  (encode_string k' ++ ": " ++ dumps_at indent (S lvl) v'
                   ++ items_text indent lvl d ++ r)).
    { cbn [items_text]. now rewrite !append_assoc. }
    rewrite E, length_app. lia.
Qed.

Lemma long_enough_all (n : nat) : long_enough_within indent n.
Proof.
  induction n as [|n IHn]; intros j Hn Hj lvl.
  - pose proof (steps_pos j). lia.
  - destruct j as [| | |x|s|l|d]; try contradiction.
    + destruct (encode_float_head x) as (c & s & E & _).
      change (dumps_at indent lvl (JFloat x)) with (encode_float x).
      rewrite E. simpl. lia.
    + simpl. lia.
    + rewrite steps_dict in *. apply payload_like_dict in Hj as [_ Hd].
      destruct d as [|[k v] d]; [ simpl; lia | ].
      destruct Hd as (_ & Hv & Hd).
      rewrite <- (append_nil_r (dumps_at indent lvl (JDict ((k, v) :: d)))).
      rewrite dict_text. cbn [String.length]. rewrite length_app.
      pose proof (members_long_enough n IHn d k v lvl
                    (closing indent lvl ++ "}" ++ "") Hv Hd ltac:(lia)).
      lia.
Qed.

(** [json.loads (json.dumps j)] is [j], with or without indentation. *)
Lemma loads_dumps (j : json) :
  payload_like j -> json_loads (dumps_at indent 0%nat j) = Ok j.
Proof.
  intros Hj. unfold json_loads.
  destruct (dumps_head 0%nat j Hj) as (c & s & E & Hc).
  assert (Hskip : skip_ws (dumps_at indent 0%nat j) = dumps_at indent 0%nat j)
    by (rewrite E; now apply skip_ws_head).
  rewrite Hskip.
  rewrite <- (append_nil_r (dumps_at indent 0%nat j)) at 2.
  rewrite (reads_back_all (steps j) j (le_n _) Hj _ 0%nat "");
    [ reflexivity | | exact I ].
  pose proof (long_enough_all (steps j) j (le_n _) Hj 0%nat). lia.
Qed.

End Dicts.

(** * The payloads of the script *)

Lemma custom_label_ok : string_ok custom_label.
Proof. intros rest. reflexivity. Qed.

Lemma option_strings_ok (w : widgets) :
  options_ok w ->
  string_ok (w_distance_unit w) /\ string_ok (w_currency w) /\
  string_ok (w_country_choice w).
Proof.
  intros (Hu & Hc & Hg). simpl in Hu, Hc, Hg.
  repeat split.
  - destruct Hu as [<-|[<-|[]]]; now apply plain_string_ok.
  - destruct Hc as [<-|[<-|[]]]; now apply plain_string_ok.
  - destruct Hg as [<-|[<-|[<-|[]]]];
      [ now apply plain_string_ok | now apply plain_string_ok
      | apply custom_label_ok ].
Qed.

Lemma read_sidebar_strings (w : widgets) (i : inputs) :
  read_sidebar w = Ok i ->
  distance_unit i = w_distance_unit w /\ currency i = w_currency w /\
  country_choice i = w_country_choice w.
Proof.
  unfold read_sidebar.
  destruct (read_car w) as [[[mi km] kg]|e]; simpl; try discriminate.
  destruct (read_grid_factor w) as [g|e]; simpl; try discriminate.
  destruct (read_spend w) as [u|e]; simpl; try discriminate.
  intros H; injection H as <-. simpl. auto.
Qed.

Lemma totals_payload_like (t : totals) : payload_like (totals_payload t).
Proof.
  split.
  - simpl. repeat constructor; simpl; intuition discriminate.
  - repeat split; now apply plain_string_ok.
Qed.

Lemma inputs_payload_like (i : inputs) :
  string_ok (distance_unit i) -> string_ok (currency i) ->
  string_ok (country_choice i) ->
  payload_like (inputs_payload i).
Proof.
  intros Hu Hc Hg. split.
  - simpl. repeat constructor; simpl; intuition discriminate.
  - repeat split; try assumption; now apply plain_string_ok.
Qed.

Lemma export_document_like (i : inputs) (t : totals) :
  payload_like (inputs_payload i) ->
  payload_like (export_document i t).
Proof.
  intros Hi. split.
  - simpl. repeat constructor; simpl; intuition discriminate.
  - split; [ now apply plain_string_ok | ].
    split; [ exact Hi | ].
    split; [ now apply plain_string_ok | ].
    split; [ apply totals_payload_like | exact I ].
Qed.

(** The five values the history loop reads from a stored payload. *)
Lemma parse_saved_row (id : Z) (now : string) (i : inputs) (t : totals) :
  parse_history_row (saved_row id now i t)
  = Ok {| h_timestamp := now;
          annual_kg := JFloat (grand_total_kg t);
          transport_kg := JFloat (transport_total t);
          electricity_kg := JFloat (electricity_total t);
          diet_kg := JFloat (diet_total t);
          shopping_kg := JFloat (shopping_total t) |}.
Proof.
  unfold parse_history_row, saved_row. cbn [r_totals_json r_timestamp].
  unfold json_dumps.
  rewrite (loads_dumps None _ (totals_payload_like t)).
  reflexivity.
Qed.

(** Each of the six keys of a payload holds its float. *)
Lemma totals_payload_float (t : totals) (k : string) (x : float) :
  json_getitem (totals_payload t) k = Ok (JFloat x) ->
  In x [ transport_total t; electricity_total t; diet_total t;
         shopping_total t; grand_total_kg t; grand_total_t t ].
Proof.
  cbn [json_getitem totals_payload]. unfold getitem. cbn [dict_get].
  repeat match goal with
  | |- context [String.eqb ?a k] => destruct (String.eqb a k)
  end; intros H; try discriminate H; injection H as <-; simpl; tauto.
Qed.

Lemma not_nan_same_number (x : float) : not_nan x -> same_number x x.
Proof.
  intros H. split; [ now apply eqb_refl_not_nan | reflexivity ].
Qed.

(** C9 (amended): for a result none of whose six figures is NaN,
    writing it and reading it back gives the same floats. The totals
    payload as [save_run] stores it is read back as the same payload,
    every figure as the same number (it compares equal and is the same
    binary64 value, the sign of a zero and the infinities included), so
    the history loop gets the very floats of the four subtotals and of
    the total in kg; and the JSON download (indent 2, inputs and
    totals), for a sidebar whose radios and select box hold one of
    their options and whose numbers are not NaN either, is read back as
    the same document. *)
Theorem json_round_trip_without_nan (w : widgets) (i : inputs) (t : totals) :
  options_ok w ->
  read_sidebar w = Ok i ->
  totals_not_nan t ->
  json_loads (json_dumps (totals_payload t)) = Ok (totals_payload t) /\
  totals_read_back_same t /\
  (forall id now,
     parse_history_row (saved_row id now i t)
     = Ok {| h_timestamp := now;
             annual_kg := JFloat (grand_total_kg t);
             transport_kg := JFloat (transport_total t);
             electricity_kg := JFloat (electricity_total t);
             diet_kg := JFloat (diet_total t);
             shopping_kg := JFloat (shopping_total t) |}) /\
  (inputs_not_nan i ->
   json_loads (export_json i t) = Ok (export_document i t)) /\
  json_getitem (export_document i t) "totals" = Ok (totals_payload t) /\
  json_getitem (totals_payload t) "transport_total"
    = Ok (JFloat (transport_total t)) /\
  json_getitem (totals_payload t) "electricity_total"
    = Ok (JFloat (electricity_total t)) /\
  json_getitem (totals_payload t) "diet_total"
    = Ok (JFloat (diet_total t)) /\
  json_getitem (totals_payload t) "shopping_total"
    = Ok (JFloat (shopping_total t)) /\
  json_getitem (totals_payload t) "grand_total_kg"
    = Ok (JFloat (grand_total_kg t)) /\
  json_getitem (totals_payload t) "grand_total_t"
    = Ok (JFloat (grand_total_t t)).
Proof.
  intros Hopt Hread Hnan.
  destruct (option_strings_ok w Hopt) as (Hu & Hc & Hg).
  destruct (read_sidebar_strings w i Hread) as (Eu & Ec & Eg).
  rewrite <- Eu in Hu. rewrite <- Ec in Hc. rewrite <- Eg in Hg.
  pose proof (loads_dumps None _ (totals_payload_like t)) as Hloads.
  split; [ exact Hloads | ].
  split.
  { exists (totals_payload t). split; [ exact Hloads | ].
    intros k x Hk. exists x. split; [ exact Hk | ].
    apply not_nan_same_number.
    destruct Hnan as (H1 & H2 & H3 & H4 & H5 & H6).
    destruct (totals_payload_float t k x Hk)
      as [<-|[<-|[<-|[<-|[<-|[<-|[]]]]]]]; assumption. }
  split; [ intros; apply parse_saved_row | ].
  split; [ | repeat split ].
  intros _.
  exact (loads_dumps (Some 2%nat) _
           (export_document_like i t (inputs_payload_like i Hu Hc Hg))).
Qed.

(** The texts written for some floats, as [repr] gives them. *)
Lemma float_repr_samples :
  float_repr 0.1 = "0.1" /\
  float_repr 1656 = "1656.0" /\
  float_repr 4182.039999999999 = "4182.039999999999" /\
  float_repr 1e16 = "1e+16" /\
  float_repr 0.00001 = "1e-05" /\
  float_repr (-2.5) = "-2.5" /\
  encode_float (1e308 * 12) = "Infinity" /\
  encode_float (1e308 * 12 * 0) = "NaN".
Proof. repeat split; vm_compute; reflexivity. Qed.

Lemma default_options_ok : options_ok default_widgets.
Proof. simpl. unfold options_ok. simpl. tauto. Qed.

Lemma sample_totals_not_nan : totals_not_nan sample_totals.
Proof. repeat split. Qed.

Lemma json_round_trip_without_nan_witness :
  exists i,
    read_sidebar default_widgets = Ok i /\
    json_loads (json_dumps (totals_payload sample_totals))
      = Ok (totals_payload sample_totals) /\
    totals_read_back_same sample_totals.
Proof.
  eexists. split; [ reflexivity | ].
  match goal with |- _ /\ _ =>
    destruct (json_round_trip_without_nan default_widgets _ sample_totals
                default_options_ok eq_refl sample_totals_not_nan)
      as (H1 & H2 & _)
  end.
  split; [ exact H1 | exact H2 ].
Defined.

(** C9 as stated fails for a result the sidebar can produce: with 1e308
    kWh a month and a custom grid factor of 0.0 the electricity
    subtotal and both totals are NaN; each is written as the text NaN
    and read back as a NaN, and the NaN read back does not compare equal
    to the figure that was written (nor need it have its bits). *)
Lemma nan_total_not_read_back_same :
  ~ (forall w i t,
       widgets_ok w -> read_sidebar w = Ok i -> calculate i = Ok t ->
       totals_read_back_same t).
Proof.
  intros H.
  assert (Hok : widgets_ok overflow_widgets) by (repeat split).
  destruct (H overflow_widgets _ _ Hok eq_refl eq_refl) as (j & Hj & Hk).
  destruct (Hk "electricity_total" nan eq_refl) as (y & Hy & Heq & _).
  vm_compute in Hj. injection Hj as <-.
  vm_compute in Hy. injection Hy as <-.
  vm_compute in Heq. discriminate Heq.
Qed.

(** * More on the sidebar, the calculation and the suggestions *)

(** ** When the sidebar can be read *)

Lemma read_car_ok (w : widgets) : exists c, read_car w = Ok c.
Proof.
  unfold read_car. destruct (String.eqb (w_distance_unit w) "miles");
    eexists; reflexivity.
Qed.

Lemma known_choice_cases (c : string) :
  In c (dict_keys COUNTRY_GRID_FACTORS) <->
  c = "Global average" \/ c = "Nigeria" \/ c = custom_label.
Proof.
  simpl. intuition congruence.
Qed.

Lemma read_grid_factor_known (w : widgets) :
  In (w_country_choice w) (dict_keys COUNTRY_GRID_FACTORS) ->
  exists g, read_grid_factor w = Ok g.
Proof.
  rewrite known_choice_cases. unfold read_grid_factor.
  intros [E|[E|E]]; rewrite E; eexists; reflexivity.
Qed.

Lemma read_grid_factor_unknown (w : widgets) :
  ~ In (w_country_choice w) (dict_keys COUNTRY_GRID_FACTORS) ->
  read_grid_factor w = Raise (KeyError (w_country_choice w)).
Proof.
  rewrite known_choice_cases. intros Hn.
  cbv [read_grid_factor getitem dict_get COUNTRY_GRID_FACTORS rbind].
  destruct (String.eqb (w_country_choice w) custom_label) eqn:E0;
    [ apply String.eqb_eq in E0; tauto | ].
  destruct (String.eqb "Global average" (w_country_choice w)) eqn:E1;
    [ apply String.eqb_eq in E1; symmetry in E1; tauto | ].
  destruct (String.eqb "Nigeria" (w_country_choice w)) eqn:E2;
    [ apply String.eqb_eq in E2; symmetry in E2; tauto | ].
  rewrite String.eqb_sym, E0. reflexivity.
Qed.

Lemma read_spend_cases (w : widgets) :
  read_spend w =
    if String.eqb (w_currency w) "USD" then Ok (w_spend_usd w)
    else if (w_fx_rate w =? 0) then Raise ZeroDivisionError
    else Ok (w_ngn_per_month w / w_fx_rate w).
Proof. reflexivity. Qed.

(** X1: the sidebar is read without an exception exactly when the grid
    choice is a key of the grid table and, unless USD is selected, the
    exchange rate is not zero. An unknown grid choice raises the key
    error for that choice (it is looked up before the spend is read); a
    zero rate with a known choice raises the division error. *)
Theorem read_sidebar_outcome (w : widgets) :
  let known := In (w_country_choice w) (dict_keys COUNTRY_GRID_FACTORS) in
  let divides := w_currency w = "USD" \/ (w_fx_rate w =? 0) = false in
  ((exists i, read_sidebar w = Ok i) <-> known /\ divides) /\
  (~ known -> read_sidebar w = Raise (KeyError (w_country_choice w))) /\
  (known -> ~ divides -> read_sidebar w = Raise ZeroDivisionError).
Proof.
  intros known divides. subst known divides.
  assert (Hdec : In (w_country_choice w) (dict_keys COUNTRY_GRID_FACTORS) \/
                 ~ In (w_country_choice w) (dict_keys COUNTRY_GRID_FACTORS)).
  { rewrite known_choice_cases.
    destruct (String.eqb_spec (w_country_choice w) "Global average");
      [ tauto | ].
    destruct (String.eqb_spec (w_country_choice w) "Nigeria"); [ tauto | ].
    destruct (String.eqb_spec (w_country_choice w) custom_label); tauto. }
  unfold read_sidebar.
  destruct (read_car_ok w) as ([[mi km] kg] & ->). cbn [rbind].
  destruct Hdec as [Hk|Hk].
  - destruct (read_grid_factor_known w Hk) as (g & ->). cbn [rbind].
    rewrite read_spend_cases.
    destruct (String.eqb_spec (w_currency w) "USD") as [Hc|Hc].
    + cbn [rbind]. split; [ split | split ].
      * intros _. tauto.
      * intros _. eexists. reflexivity.
      * tauto.
      * intros _ Hn. exfalso. apply Hn. now left.
    + destruct (w_fx_rate w =? 0) eqn:Hz; cbn [rbind].
      * split; [ split | split ].
        -- intros (i & Hi). discriminate Hi.
        -- intros (_ & [H|H]); [ contradiction | discriminate ].
        -- tauto.
        -- reflexivity.
      * split; [ split | split ].
        -- intros _. tauto.
        -- intros _. eexists. reflexivity.
        -- tauto.
        -- intros _ Hn. exfalso. apply Hn. now right.
  - rewrite (read_grid_factor_unknown w Hk). cbn [rbind].
    split; [ split | split ].
    + intros (i & Hi). discriminate Hi.
    + tauto.
    + reflexivity.
    + tauto.
Qed.

(** ** Widgets that are not shown *)

(** X2: a value left in a box that the current selection hides (the car
    box of the other unit, the custom grid box under a preset, the spend
    boxes of the other currency) has no effect: two sidebars that agree
    on what is shown are read alike, and the whole run is the same. *)
Theorem hidden_widgets_ignored (w w' : widgets) :
  same_visible w w' ->
  read_sidebar w = read_sidebar w' /\
  forall now wd, page now w wd = page now w' wd.
Proof.
  intros (Hu & Hc & Hg & Hcar & Hf & Hb & Hcust & Hk & Hbeef & Hch & Hsp & Hs).
  assert (Hread : read_sidebar w = read_sidebar w').
  { unfold read_sidebar, read_car, read_grid_factor, read_spend.
    rewrite <- Hu, <- Hc, <- Hg, <- Hf, <- Hb, <- Hk, <- Hbeef, <- Hch.
    destruct (String.eqb (w_currency w) "USD").
    - rewrite <- Hsp.
      destruct (String.eqb (w_distance_unit w) "miles");
        destruct (String.eqb (w_country_choice w) custom_label);
        rewrite <- ?Hcar, <- ?Hcust; reflexivity.
    - destruct Hsp as [Hn Hfx]. rewrite <- Hn, <- Hfx.
      destruct (String.eqb (w_distance_unit w) "miles");
        destruct (String.eqb (w_country_choice w) custom_label);
        rewrite <- ?Hcar, <- ?Hcust; reflexivity. }
  split; [ exact Hread | ].
  intros now wd. unfold page. now rewrite Hread, Hs.
Qed.

Lemma hidden_widgets_ignored_witness :
  same_visible miles_120 miles_120_other_hidden /\
  read_sidebar miles_120 = read_sidebar miles_120_other_hidden.
Proof.
  assert (H : same_visible miles_120 miles_120_other_hidden)
    by (repeat split; reflexivity).
  split; [ exact H | exact (proj1 (hidden_widgets_ignored _ _ H)) ].
Defined.

(** ** Zero inputs *)

Lemma is_zero_spec (x : float) :
  is_zero x <-> exists s, Prim2SF x = S754_zero s.
Proof.
  unfold is_zero. rewrite eqb_spec.
  change (Prim2SF 0) with (S754_zero false).
  destruct (Prim2SF x) as [s|s| |s m e]; split;
    try (intros (s' & H); discriminate H); eauto;
    try discriminate; try (destruct s; discriminate).
Qed.

Lemma mul_zero_finite (x y : float) :
  is_zero x -> sf_finite (Prim2SF y) = true -> is_zero (x * y).
Proof.
  rewrite !is_zero_spec. intros (s & Hx) Hy.
  rewrite mul_spec, Hx.
  destruct (Prim2SF y) as [s'|s'| |s' m e]; try discriminate;
    simpl; eauto.
Qed.

Lemma add_zero (x y : float) : is_zero x -> is_zero y -> is_zero (x + y).
Proof.
  rewrite !is_zero_spec. intros (s & Hx) (s' & Hy).
  rewrite add_spec, Hx, Hy. destruct s, s'; simpl; eauto.
Qed.

Lemma div_zero_posfin (x y : float) :
  is_zero x -> sf_posfin (Prim2SF y) = true -> is_zero (x / y).
Proof.
  rewrite !is_zero_spec. intros (s & Hx) Hy.
  rewrite div_spec, Hx.
  destruct (Prim2SF y) as [s'|s'| |[] m e]; try discriminate; simpl; eauto.
Qed.

Lemma zero_not_gt (x c : float) :
  is_zero x -> sf_posfin (Prim2SF c) = true -> gt x c = false.
Proof.
  rewrite is_zero_spec. intros (s & Hx) Hc. unfold gt.
  rewrite ltb_spec, Hx.
  destruct (Prim2SF c) as [s'|s'| |[] m e]; try discriminate.
  destruct s; reflexivity.
Qed.

(** X3: when every quantity the script reads is zero, whatever the
    units, the currency and the grid choice, every subtotal and both
    totals compare equal to zero, and the only suggestion is the
    fallback. *)
Theorem zero_inputs_zero_totals (w : widgets) (i : inputs) :
  zero_quantities w ->
  number_input_ok 0 (w_custom_grid_factor w) ->
  number_input_ok 1 (w_fx_rate w) ->
  read_sidebar w = Ok i ->
  exists t, calculate i = Ok t /\
    is_zero (transport_total t) /\ is_zero (electricity_total t) /\
    is_zero (diet_total t) /\ is_zero (shopping_total t) /\
    is_zero (grand_total_kg t) /\ is_zero (grand_total_t t) /\
    suggestions i = [msg_fallback].
Proof.
  intros (Hcar & Hfl & Hbus & Hkwh & Hbeef & Hch & Hsp) Hcust Hfx Hread.
  destruct (read_sidebar_fields w i Hread)
    as (Hu & Hmi & Hkm & Hkg & Ef & Eb & Ek & Ebeef & Ech & Hgrid & Hspend).
  destruct (grid_factor_nonneg_finite w _ Hcust Hgrid) as [_ Hgfin].
  assert (Hfxpos : sf_posfin (Prim2SF (w_fx_rate w)) = true)
    by (apply at_least_one_posfin; exact Hfx).
  assert (Hspend0 : is_zero (spend_usd i)).
  { rewrite read_spend_cases in Hspend.
    destruct (String.eqb (w_currency w) "USD").
    - injection Hspend as <-. exact Hsp.
    - destruct (w_fx_rate w =? 0); [ discriminate | ].
      injection Hspend as <-. now apply div_zero_posfin. }
  assert (Hcarkg : is_zero (car_per_week_kg i)).
  { rewrite Hkg. destruct (String.eqb (w_distance_unit w) "miles");
      apply mul_zero_finite; try exact Hcar; reflexivity. }
  assert (Htr : is_zero (car_per_week_kg i * 52 + flight_km_per_year i * 0.115
                         + bus_km_per_week i * 52 * 0.089)).
  { rewrite Ef, Eb. repeat apply add_zero;
      repeat (apply mul_zero_finite; [ | reflexivity ]); assumption. }
  assert (Hel : is_zero (kwh_per_month i * 12 * selected_grid_factor i)).
  { rewrite Ek. apply mul_zero_finite; [ | exact Hgfin ].
    apply mul_zero_finite; [ exact Hkwh | reflexivity ]. }
  assert (Hdi : is_zero (beef_kg_per_week i * 52 * 27.0
                         + chicken_kg_per_week i * 52 * 6.9)).
  { rewrite Ebeef, Ech. apply add_zero;
      repeat (apply mul_zero_finite; [ | reflexivity ]); assumption. }
  assert (Hsh : is_zero (spend_usd i * 12 * 0.6)).
  { repeat (apply mul_zero_finite; [ | reflexivity ]). exact Hspend0. }
  eexists. split; [ reflexivity | ]. cbn [transport_total electricity_total
    diet_total shopping_total grand_total_kg grand_total_t].
  assert (Hsum : is_zero
    (car_per_week_kg i * 52 + flight_km_per_year i * 0.115
     + bus_km_per_week i * 52 * 0.089
     + kwh_per_month i * 12 * selected_grid_factor i
     + (beef_kg_per_week i * 52 * 27.0 + chicken_kg_per_week i * 52 * 6.9)
     + spend_usd i * 12 * 0.6))
    by (apply add_zero; [ apply add_zero; [ apply add_zero | ] | ];
        assumption).
  repeat split; try assumption.
  - apply div_zero_posfin; [ exact Hsum | reflexivity ].
  - rewrite suggestions_cases. rewrite Hu, Hmi, Hkm, Ebeef, Ek, Ef.
    rewrite (zero_not_gt _ 0.5 Hbeef eq_refl),
      (zero_not_gt _ 200 Hkwh eq_refl), (zero_not_gt _ 3000 Hfl eq_refl).
    destruct (String.eqb (w_distance_unit w) "miles").
    + now rewrite (zero_not_gt _ 100 Hcar eq_refl).
    + now rewrite (zero_not_gt _ 160 Hcar eq_refl).
Qed.

Lemma zero_inputs_zero_totals_witness :
  exists i t,
    read_sidebar zero_widgets = Ok i /\ calculate i = Ok t /\
    is_zero (grand_total_kg t) /\ suggestions i = [msg_fallback].
Proof.
  assert (Hz : zero_quantities zero_widgets) by (repeat split; reflexivity).
  assert (Hc : number_input_ok 0 (w_custom_grid_factor zero_widgets))
    by (split; reflexivity).
  assert (Hf : number_input_ok 1 (w_fx_rate zero_widgets))
    by (split; reflexivity).
  eexists.
  destruct (zero_inputs_zero_totals zero_widgets _ Hz Hc Hf eq_refl)
    as (t & Hcalc & _ & _ & _ & _ & Hkg & _ & Hs).
  exists t. repeat split; assumption.
Defined.

(** ** Suggestions *)

Lemma suggestions_fired (i : inputs) :
  suggestions i =
    let fired :=
      ((if gt (beef_kg_per_week i) 0.5 then [msg_beef] else []) ++
       (if car_rule i then [msg_car] else []) ++
       (if gt (kwh_per_month i) 200 then [msg_power] else []) ++
       (if gt (flight_km_per_year i) 3000 then [msg_flight] else []))%list in
    if is_empty fired then [msg_fallback] else fired.
Proof. apply suggestions_cases. Qed.

Ltac settle_membership :=
  cbv [app is_empty In]; split; intros H; try reflexivity; auto;
  try discriminate;
  repeat (destruct H as [H|H]; try discriminate H); try contradiction.

(** X4: each rule speaks for its own quantity only. The beef message is
    in the list exactly when beef exceeds 0.5, the electricity message
    exactly when the monthly kWh exceed 200, the flight message exactly
    when the yearly flight distance exceeds 3000, whatever the other
    inputs; and the fallback is in the list exactly when none of the
    four rules fires. *)
Theorem rules_fire_on_own_threshold (i : inputs) :
  (In msg_beef (suggestions i) <-> gt (beef_kg_per_week i) 0.5 = true) /\
  (In msg_power (suggestions i) <-> gt (kwh_per_month i) 200 = true) /\
  (In msg_flight (suggestions i) <-> gt (flight_km_per_year i) 3000 = true) /\
  (In msg_fallback (suggestions i) <->
     gt (beef_kg_per_week i) 0.5 = false /\ car_rule i = false /\
     gt (kwh_per_month i) 200 = false /\
     gt (flight_km_per_year i) 3000 = false).
Proof.
  rewrite suggestions_fired.
  destruct (gt (beef_kg_per_week i) 0.5), (car_rule i),
    (gt (kwh_per_month i) 200), (gt (flight_km_per_year i) 3000);
    (split; [ | split; [ | split ] ]); settle_membership;
    try (destruct H as (? & ? & ? & ?); discriminate); tauto.
Qed.

(** X5: the list of suggestions is never empty, holds no message twice,
    and is either the fallback alone or some of the four rule messages
    in the fixed order beef, car, electricity, flights; the fallback
    never comes with another message. *)
Theorem suggestions_shape (i : inputs) :
  suggestions i <> [] /\
  NoDup (suggestions i) /\
  (suggestions i = [msg_fallback] \/ subseq (suggestions i) rule_messages) /\
  (In msg_fallback (suggestions i) -> suggestions i = [msg_fallback]).
Proof.
  rewrite suggestions_fired.
  destruct (gt (beef_kg_per_week i) 0.5), (car_rule i),
    (gt (kwh_per_month i) 200), (gt (flight_km_per_year i) 3000);
    cbv [app is_empty];
    (split; [ discriminate | ]);
    (split; [ repeat constructor; cbv [In]; intuition discriminate | ]);
    (split;
      [ first [ left; reflexivity
              | right; unfold rule_messages;
                repeat first [ apply subseq_nil | apply subseq_keep
                             | apply subseq_drop ] ]
      | cbv [In]; intros H;
        repeat (destruct H as [H|H]; try discriminate H);
        try contradiction; reflexivity ]).
Qed.

(** * More on the history store *)

(** X6: [init_db] can be called any number of times. It never removes
    or changes a row and shows nothing, and a second call right after
    the first returns the same connection and leaves the store as the
    first call left it. *)
Theorem init_db_idempotent (w : world) :
  exists w1 r,
    init_db w = (w1, r) /\
    init_db w1 = (w1, r) /\
    stored_rows (db w1) = stored_rows (db w) /\
    shown w1 = shown w.
Proof.
  destruct w as [s sh]. unfold init_db. simpl.
  destruct s as [| |rows seq]; eexists; eexists;
    (split; [ reflexivity | ]); simpl; auto.
Qed.

Lemma order_by_id_desc_snoc (rows : list row) (r : row) :
  Forall (fun x => (r_id x < r_id r)%Z) rows ->
  order_by_id_desc (rows ++ [r]) = r :: order_by_id_desc rows.
Proof.
  induction rows as [|x rows IH]; intros H; simpl; [ reflexivity | ].
  apply Forall_cons_iff in H. destruct H as [Hx H].
  rewrite (IH H). simpl.
  destruct (r_id r <=? r_id x)%Z eqn:E; [ | reflexivity ].
  apply Z.leb_le in E. lia.
Qed.

Lemma next_id_above (rows : list row) (seq : Z) :
  Forall (fun x => (r_id x < next_id rows seq)%Z) rows.
Proof.
  rewrite Forall_forall. intros x Hx.
  pose proof (max_id_bound rows x Hx). unfold next_id. lia.
Qed.

Lemma save_run_available (now : string) (i t : json) (w : world)
    (rows : list row) :
  stored_rows (db w) = Some rows ->
  save_run now i t w =
    ({| db := Runs (rows ++ [ {| r_id := next_id rows (store_seq (db w));
                                 r_timestamp := now;
                                 r_inputs_json := json_dumps i;
                                 r_totals_json := json_dumps t |} ])
                   (next_id rows (store_seq (db w)));
        shown := shown w |}, Ok tt).
Proof.
  destruct w as [s sh]. simpl. unfold save_run, bind, init_db. simpl.
  destruct s as [| |rs seq]; simpl; try discriminate;
    intros H; injection H as <-; reflexivity.
Qed.

Lemma load_runs_available (w : world) (rows : list row) :
  stored_rows (db w) = Some rows ->
  load_runs w =
    ({| db := opened (db w); shown := shown w |}, Ok (order_by_id_desc rows)).
Proof.
  destruct w as [s sh]. simpl. unfold load_runs, bind, init_db, ret. simpl.
  destruct s as [| |rs seq]; simpl; try discriminate;
    intros H; injection H as <-; reflexivity.
Qed.

(** X7: when [save_run] has returned without raising, the row it wrote
    is the first one [load_runs] returns right after, followed by the
    rows that were there before in their listing order; it carries the
    given time and the two payloads as [json.dumps] writes them, and its
    id is larger than every id already in the table. *)
Theorem saved_run_is_listed_first
    (now : string) (i t : json) (w w1 : world) (rows : list row) :
  stored_rows (db w) = Some rows ->
  save_run now i t w = (w1, Ok tt) ->
  exists w2 r,
    load_runs w1 = (w2, Ok (r :: order_by_id_desc rows)) /\
    db w2 = db w1 /\
    r_timestamp r = now /\
    r_inputs_json r = json_dumps i /\
    r_totals_json r = json_dumps t /\
    Forall (fun x => (r_id x < r_id r)%Z) rows.
Proof.
  intros Hrows Hsave.
  rewrite (save_run_available now i t w rows Hrows) in Hsave.
  injection Hsave as <-.
  eexists. eexists.
  rewrite (load_runs_available
             {| db := Runs _ _; shown := shown w |} _ eq_refl).
  cbn [db shown opened].
  rewrite order_by_id_desc_snoc by apply next_id_above.
  repeat split. apply next_id_above.
Qed.

Lemma saved_run_is_listed_first_witness :
  exists w2 r,
    load_runs
      (fst (save_run "2024-05-04T09:00:00" (JDict []) (JDict [])
              {| db := Runs [good_row 1; good_row 3] 3; shown := [] |}))
    = (w2, Ok (r :: order_by_id_desc [good_row 1; good_row 3])) /\
    r_timestamp r = "2024-05-04T09:00:00".
Proof.
  destruct (saved_run_is_listed_first "2024-05-04T09:00:00"
              (JDict []) (JDict [])
              {| db := Runs [good_row 1; good_row 3] 3; shown := [] |}
              (fst (save_run "2024-05-04T09:00:00" (JDict []) (JDict [])
                      {| db := Runs [good_row 1; good_row 3] 3;
                         shown := [] |}))
              [good_row 1; good_row 3] eq_refl eq_refl)
    as (w2 & r & Hload & _ & Htime & _).
  exists w2, r. split; [ exact Hload | exact Htime ].
Defined.

(** ** Ids *)

Lemma max_id_le (rows : list row) (n : Z) :
  (0 <= n)%Z -> Forall (fun x => (r_id x <= n)%Z) rows ->
  (max_id rows <= n)%Z.
Proof.
  intros Hn. induction rows as [|x rows IH]; simpl; intros H; [ lia | ].
  apply Forall_cons_iff in H. destruct H as [Hx H]. specialize (IH H). lia.
Qed.

Lemma counted_ids_bound (rows : list row) :
  map r_id rows = map Z.of_nat (seq 1 (List.length rows)) ->
  Forall (fun x => (r_id x <= Z.of_nat (List.length rows))%Z) rows.
Proof.
  intros H. rewrite Forall_forall. intros x Hx.
  apply (in_map r_id) in Hx. rewrite H in Hx.
  apply in_map_iff in Hx. destruct Hx as (k & <- & Hk).
  apply in_seq in Hk. lia.
Qed.

Lemma reachable_counted (s : store) :
  reachable s ->
  s = NoTable \/
  exists rows, s = Runs rows (Z.of_nat (List.length rows)) /\
    map r_id rows = map Z.of_nat (seq 1 (List.length rows)).
Proof.
  induction 1 as [|s now i t sh w' Hs IH Hsave]; [ now left | ].
  right. destruct IH as [->|(rows & -> & Hids)].
  - rewrite (save_run_available now i t {| db := NoTable; shown := sh |}
               [] eq_refl) in Hsave.
    injection Hsave as <-. cbn [db store_seq].
    exists [ {| r_id := 1; r_timestamp := now;
                r_inputs_json := json_dumps i;
                r_totals_json := json_dumps t |} ].
    split; reflexivity.
  - rewrite (save_run_available now i t
               {| db := Runs rows (Z.of_nat (List.length rows)); shown := sh |}
               rows eq_refl) in Hsave.
    injection Hsave as <-. cbn [db store_seq].
    assert (Hnext : next_id rows (Z.of_nat (List.length rows))
                    = Z.of_nat (S (List.length rows))).
    { unfold next_id.
      pose proof (max_id_le rows (Z.of_nat (List.length rows))
                    ltac:(lia) (counted_ids_bound rows Hids)).
      lia. }
    eexists. split.
    + rewrite Hnext. f_equal. rewrite List.length_app. simpl. f_equal. lia.
    + rewrite map_app, List.length_app. simpl List.length.
      rewrite Nat.add_1_r, seq_S, map_app, Hids. reflexivity.
Qed.

(** X8: in a history file that only [save_run] has written, starting
    from a new file, the ids are 1, 2, 3, ... in the order of the
    saves, with no gap and no repetition. *)
Theorem ids_count_from_one (s : store) :
  reachable s ->
  exists rows,
    stored_rows s = Some rows /\
    map r_id rows = map Z.of_nat (seq 1 (List.length rows)).
Proof.
  intros H. destruct (reachable_counted s H) as [->|(rows & -> & Hids)].
  - exists []. split; reflexivity.
  - exists rows. split; [ reflexivity | exact Hids ].
Qed.

Lemma ids_count_from_one_witness :
  exists rows,
    stored_rows
      (db (fst (save_run "2024-05-01T10:05:00" (JDict []) (JDict [])
                  (fst (save_run "2024-05-01T10:00:00" (JDict []) (JDict [])
                          {| db := NoTable; shown := [] |})))))
    = Some rows /\
    map r_id rows = [1; 2]%Z.
Proof.
  destruct (ids_count_from_one _
              (reach_save _ "2024-05-01T10:05:00" (JDict []) (JDict []) [] _
                 (reach_save _ "2024-05-01T10:00:00" (JDict []) (JDict []) [] _
                    reach_new eq_refl) eq_refl))
    as (rows & Hrows & Hids).
  exists rows. split; [ exact Hrows | ].
  injection Hrows as <-. reflexivity.
Defined.

(** * More on the JSON payloads *)

Lemma plain_payload_dict (d : list (string * json)) :
  plain_payload (JDict d) <-> NoDup (map fst d) /\ plain_members d.
Proof.
  split; intros [Hn H]; (split; [ exact Hn | ]); clear Hn;
    induction d as [|[k v] d IH]; simpl in *; intuition.
Qed.

Lemma plain_payload_like_within (n : nat) (j : json) :
  (steps j <= n)%nat -> plain_payload j -> payload_like j.
Proof.
  revert j. induction n as [|n IHn]; intros j Hn Hj.
  - pose proof (steps_pos j). lia.
  - destruct j as [| | |x|s|l|d]; try contradiction.
    + exact I.
    + now apply plain_string_ok.
    + rewrite steps_dict in Hn.
      apply plain_payload_dict in Hj. destruct Hj as [Hnd Hd].
      apply payload_like_dict. split; [ exact Hnd | ]. clear Hnd.
      assert (Hm : (members_steps d <= n)%nat) by lia. clear Hn.
      induction d as [|[k v] d IH]; [ exact I | ].
      cbn [members_steps] in Hm. destruct Hd as (Hk & Hv & Hd).
      cbn [members_ok]. split; [ now apply plain_string_ok | ].
      split; [ apply IHn; [ lia | exact Hv ] | ].
      apply IH; [ exact Hd | lia ].
Qed.

Lemma plain_payload_like (j : json) : plain_payload j -> payload_like j.
Proof. apply (plain_payload_like_within (steps j)). lia. Qed.

(** X9: what [json.dumps] writes, [json.loads] reads back. For any
    nest of dicts with distinct keys that holds strings and floats other
    than NaN (keys and strings of printable ASCII characters other than
    the quote and the backslash), written compactly or with any indent,
    reading the text gives back the same value: the same keys in the
    same order and the same floats, bit for bit. *)
Theorem payload_round_trip (indent : option nat) (j : json) :
  plain_payload j ->
  nan_free j ->
  json_loads (dumps_at indent 0 j) = Ok j.
Proof.
  intros Hj _. apply loads_dumps. now apply plain_payload_like.
Qed.

Lemma payload_round_trip_witness :
  json_loads (json_dumps sample_document) = Ok sample_document /\
  json_loads (json_dumps_indent 2 sample_document) = Ok sample_document.
Proof.
  assert (H : plain_payload sample_document).
  { simpl. repeat split; try reflexivity;
      repeat constructor; simpl; intuition discriminate. }
  assert (Hn : nan_free sample_document) by (simpl; repeat split).
  split.
  - exact (payload_round_trip None sample_document H Hn).
  - exact (payload_round_trip (Some 2%nat) sample_document H Hn).
Defined.

(** X10: the inputs column of a saved row can be read back. For a
    sidebar whose radios and select box hold one of their options, the
    text that [save_run] stores for the inputs is read by [json.loads]
    as the inputs payload itself: the unit, the currency and the grid
    choice as typed (the custom entry with its ellipsis included) and
    every number as the same float. *)
Theorem saved_inputs_read_back (w : widgets) (i : inputs) :
  options_ok w ->
  read_sidebar w = Ok i ->
  forall id now t,
    json_loads (r_inputs_json (saved_row id now i t)) = Ok (inputs_payload i).
Proof.
  intros Hopt Hread id now t.
  destruct (option_strings_ok w Hopt) as (Hu & Hc & Hg).
  destruct (read_sidebar_strings w i Hread) as (Eu & Ec & Eg).
  rewrite <- Eu in Hu. rewrite <- Ec in Hc. rewrite <- Eg in Hg.
  cbn [saved_row r_inputs_json].
  exact (loads_dumps None _ (inputs_payload_like i Hu Hc Hg)).
Qed.

Lemma saved_inputs_read_back_witness :
  exists i,
    read_sidebar default_widgets = Ok i /\
    json_loads (r_inputs_json (saved_row 1 "2024-05-04T09:00:00" i sample_totals))
    = Ok (inputs_payload i).
Proof.
  eexists. split; [ reflexivity | ].
  exact (saved_inputs_read_back default_widgets _ default_options_ok eq_refl
           1%Z "2024-05-04T09:00:00" sample_totals).
Defined.

(** * The page as a whole *)

(** ** Running the sections one after the other *)

Lemma bind_ok {A B : Type} (c : script A) (k : A -> script B)
    (w w' : world) (a : A) :
  c w = (w', Ok a) -> bind c k w = k a w'.
Proof. intros H. unfold bind. now rewrite H. Qed.

Lemma bind_raise {A B : Type} (c : script A) (k : A -> script B)
    (w w' : world) (e : exn) :
  c w = (w', Raise e) -> bind c k w = (w', Raise e).
Proof. intros H. unfold bind. now rewrite H. Qed.

Lemma calculate_ok (i : inputs) : exists t, calculate i = Ok t.
Proof. eexists. reflexivity. Qed.

Lemma render_summary_spec (t : totals) (w : world) :
  render_summary t w =
    ({| db := db w;
        shown := shown w ++
          [ Subheader "Summary";
            Summary (grand_total_kg t) (grand_total_t t);
            Metric "Daily" (grand_total_kg t / 365);
            Metric "Weekly" (grand_total_kg t / 52);
            Metric "Monthly" (grand_total_kg t / 12);
            Metric "Annual" (grand_total_kg t) ] |}, Ok tt).
Proof.
  unfold render_summary, bind, emit. simpl.
  now rewrite <- !List.app_assoc.
Qed.

Lemma render_breakdown_spec (t : totals) (w : world) :
  render_breakdown t w =
    ({| db := db w;
        shown := shown w ++
          [ Subheader "🌱 Breakdown by category";
            BarChart [ ("Transport", transport_total t);
                       ("Electricity", electricity_total t);
                       ("Diet", diet_total t);
                       ("Shopping", shopping_total t) ] ] |}, Ok tt).
Proof.
  unfold render_breakdown, bind, emit. simpl.
  now rewrite <- !List.app_assoc.
Qed.

Lemma render_download_only (now : string) (i : inputs) (t : totals)
    (w : world) :
  render_save_download now false i t w =
    ({| db := db w;
        shown := shown w ++
          Subheader "💾 Save & Download" :: download_events i t |}, Ok tt).
Proof.
  unfold render_save_download, bind, emit, ret. simpl.
  now rewrite <- !List.app_assoc.
Qed.

Lemma render_save_available (now : string) (i : inputs) (t : totals)
    (w : world) (rows : list row) :
  stored_rows (db w) = Some rows ->
  render_save_download now true i t w =
    ({| db := Runs (rows_after_save now true i t (db w) rows)
                   (next_id rows (store_seq (db w)));
        shown := shown w ++
          Subheader "💾 Save & Download" :: SavedNotice ::
          download_events i t |}, Ok tt).
Proof.
  intros Hrows. unfold render_save_download.
  rewrite (bind_ok _ _ _ _ tt (eq_refl : emit _ w = _)).
  rewrite (bind_ok _ _ _
             {| db := Runs (rows_after_save now true i t (db w) rows)
                           (next_id rows (store_seq (db w)));
                shown := (shown w ++ [Subheader "💾 Save & Download"])
                         ++ [SavedNotice] |} tt).
  - unfold bind, emit. simpl. now rewrite <- !List.app_assoc.
  - rewrite (bind_ok _ _ _ _ tt
               (save_run_available now (inputs_payload i) (totals_payload t)
                  {| db := db w;
                     shown := shown w ++ [Subheader "💾 Save & Download"] |}
                  rows Hrows)).
    reflexivity.
Qed.

Lemma render_save_unavailable (now : string) (i : inputs) (t : totals)
    (w : world) :
  db w = Unavailable ->
  render_save_download now true i t w =
    ({| db := db w; shown := shown w ++ [Subheader "💾 Save & Download"] |},
     Raise OperationalError).
Proof.
  intros Hdb. unfold render_save_download.
  rewrite (bind_ok _ _ _ _ tt (eq_refl : emit _ w = _)).
  apply bind_raise. apply bind_raise.
  now apply save_run_unavailable.
Qed.

Lemma is_empty_order (rows : list row) :
  is_empty (order_by_id_desc rows) = is_empty rows.
Proof.
  destruct rows as [|r rows]; [ reflexivity | ].
  now apply order_by_id_desc_not_empty.
Qed.

Lemma render_history_available (w : world) (rows : list row) :
  stored_rows (db w) = Some rows ->
  render_history w =
    ({| db := opened (db w);
        shown := shown w ++ fst (history_outcome rows) |},
     snd (history_outcome rows)).
Proof.
  intros Hrows. unfold render_history.
  rewrite (bind_ok _ _ _ _ tt (eq_refl : emit _ w = _)).
  rewrite (bind_ok _ _ _ _ _
             (load_runs_available
                {| db := db w; shown := shown w ++ [Subheader "📈 History"] |}
                rows Hrows)).
  cbn [db shown]. unfold history_outcome.
  rewrite is_empty_order.
  destruct (is_empty rows); cbn [negb].
  - unfold emit. simpl. now rewrite <- !List.app_assoc.
  - unfold bind, lift. rewrite parse_history_spec.
    destruct (first_error (order_by_id_desc rows)); cbn [fst snd].
    + reflexivity.
    + unfold emit. simpl. now rewrite <- !List.app_assoc.
Qed.

Lemma render_history_unavailable (w : world) :
  db w = Unavailable ->
  render_history w =
    ({| db := db w; shown := shown w ++ [Subheader "📈 History"] |},
     Raise OperationalError).
Proof.
  intros Hdb. unfold render_history.
  rewrite (bind_ok _ _ _ _ tt (eq_refl : emit _ w = _)).
  apply bind_raise. now apply load_runs_unavailable.
Qed.

Lemma for_each_bullets (l : list string) (w : world) :
  for_each l (fun s => emit (Bullet s)) w =
    ({| db := db w; shown := shown w ++ map Bullet l |}, Ok tt).
Proof.
  revert w. induction l as [|s l IH]; intros w; simpl.
  - unfold ret. rewrite List.app_nil_r. now destruct w.
  - unfold bind, emit. rewrite IH. simpl. now rewrite <- List.app_assoc.
Qed.

Lemma render_suggestions_spec (i : inputs) (w : world) :
  render_suggestions i w =
    ({| db := db w; shown := shown w ++ suggestion_events i |}, Ok tt).
Proof.
  unfold render_suggestions, suggestion_events.
  rewrite (bind_ok _ _ _ _ tt (eq_refl : emit _ w = _)).
  rewrite for_each_bullets. simpl. now rewrite <- List.app_assoc.
Qed.

Lemma page_unread (now : string) (w : widgets) (wd : world) (e : exn) :
  read_sidebar w = Raise e -> page now w wd = (wd, Raise e).
Proof. intros H. unfold page, bind, lift. now rewrite H. Qed.

Lemma page_sections (now : string) (w : widgets) (i : inputs) (t : totals)
    (wd : world) :
  read_sidebar w = Ok i ->
  calculate i = Ok t ->
  page now w wd =
    (render_save_download now (w_save_clicked w) i t ;;;
     render_history ;;;
     render_suggestions i)
      {| db := db wd; shown := shown wd ++ summary_events t |}.
Proof.
  intros Hread Hcalc. unfold page.
  rewrite (bind_ok _ _ wd wd i) by (unfold lift; now rewrite Hread).
  rewrite (bind_ok _ _ wd wd t) by (unfold lift; now rewrite Hcalc).
  rewrite (bind_ok _ _ _ _ tt (render_summary_spec t wd)).
  rewrite (bind_ok _ _ _ _ tt (render_breakdown_spec t _)).
  cbn [db shown]. unfold summary_events.
  now rewrite <- !List.app_assoc.
Qed.

(** The whole run on a store that can be opened. *)
Lemma page_on_available_store
    (now : string) (w : widgets) (i : inputs) (t : totals)
    (wd : world) (rows : list row) :
  read_sidebar w = Ok i ->
  calculate i = Ok t ->
  stored_rows (db wd) = Some rows ->
  page now w wd =
    let clicked := w_save_clicked w in
    let rows' := rows_after_save now clicked i t (db wd) rows in
    let out := history_outcome rows' in
    ({| db := if clicked
              then Runs rows' (next_id rows (store_seq (db wd)))
              else opened (db wd);
        shown := shown wd ++ summary_events t ++
          [Subheader "💾 Save & Download"] ++
          (if clicked then [SavedNotice] else []) ++
          download_events i t ++ fst out ++
          match snd out with
          | Ok _ => suggestion_events i
          | Raise _ => []
          end |},
     snd out).
Proof.
  intros Hread Hcalc Hrows. rewrite (page_sections now w i t wd Hread Hcalc).
  cbv zeta. destruct (w_save_clicked w).
  - rewrite (bind_ok _ _ _ _ tt
               (render_save_available now i t
                  {| db := db wd; shown := shown wd ++ summary_events t |}
                  rows Hrows)).
    cbn [db shown].
    set (rows' := rows_after_save now true i t (db wd) rows).
    set (w1 := {| db := Runs rows' (next_id rows (store_seq (db wd)));
                  shown := _ |}).
    pose proof (render_history_available w1 rows' eq_refl) as Hh.
    destruct (history_outcome rows') as [evs [[]|e]]; cbn [fst snd] in *.
    + rewrite (bind_ok _ _ _ _ tt Hh), render_suggestions_spec.
      subst w1. cbn [db shown opened]. do 2 f_equal.
      rewrite <- !List.app_assoc. reflexivity.
    + rewrite (bind_raise _ _ _ _ e Hh).
      subst w1. cbn [db shown opened]. do 2 f_equal.
      rewrite <- !List.app_assoc, List.app_nil_r. reflexivity.
  - rewrite (bind_ok _ _ _ _ tt (render_download_only now i t _)).
    cbn [db shown rows_after_save].
    set (w1 := {| db := db wd; shown := _ |}).
    pose proof (render_history_available w1 rows Hrows) as Hh.
    destruct (history_outcome rows) as [evs [[]|e]]; cbn [fst snd] in *.
    + rewrite (bind_ok _ _ _ _ tt Hh), render_suggestions_spec.
      subst w1. cbn [db shown]. do 2 f_equal.
      rewrite <- !List.app_assoc. reflexivity.
    + rewrite (bind_raise _ _ _ _ e Hh).
      subst w1. cbn [db shown]. do 2 f_equal.
      rewrite <- !List.app_assoc, List.app_nil_r. reflexivity.
Qed.

(** ** Rows the history loop can read *)

Lemma first_error_none_iff (l : list row) :
  first_error l = None <-> Forall readable l.
Proof.
  induction l as [|r l IH]; simpl.
  - split; [ constructor | reflexivity ].
  - destruct (parse_history_row r) as [h|e] eqn:E.
    + rewrite IH. split.
      * intros H. constructor; [ now exists h | exact H ].
      * intros H. now apply Forall_cons_iff in H.
    + split; [ discriminate | ].
      intros H. apply Forall_cons_iff in H. destruct H as [(h & Hh) _].
      rewrite E in Hh. discriminate Hh.
Qed.

Lemma readable_listing (rows : list row) :
  Forall readable (order_by_id_desc rows) <-> Forall readable rows.
Proof.
  rewrite !Forall_forall. split; intros H r Hr; apply H.
  - now apply (Permutation_in _ (Permutation_sym (order_by_id_desc_perm rows))).
  - now apply (Permutation_in _ (order_by_id_desc_perm rows)).
Qed.

Lemma history_outcome_ok (rows : list row) :
  snd (history_outcome rows) = Ok tt <-> Forall readable rows.
Proof.
  unfold history_outcome. destruct rows as [|r rows]; cbn [is_empty].
  - split; [ constructor | reflexivity ].
  - rewrite <- readable_listing, <- first_error_none_iff.
    destruct (first_error (order_by_id_desc (r :: rows))); cbn [snd];
      split; congruence.
Qed.

Lemma saved_row_readable (id : Z) (now : string) (i : inputs) (t : totals) :
  readable (saved_row id now i t).
Proof. eexists. apply parse_saved_row. Qed.

Lemma parsed_rows_length (l : list row) :
  first_error l = None -> List.length (parsed_rows l) = List.length l.
Proof.
  induction l as [|r l IH]; simpl; [ reflexivity | ].
  destruct (parse_history_row r); [ | discriminate ].
  intros H. simpl. now rewrite IH.
Qed.

Lemma stored_rows_opened (s : store) :
  stored_rows (opened s) = stored_rows s.
Proof. now destruct s. Qed.

(** ** Saving *)

(** X11: a run in which the save button was not pressed never writes to
    the history: whatever the sidebar holds, whatever state the store is
    in and however the run ends, the stored rows are the same after the
    run as before. *)
Theorem run_without_save_writes_nothing
    (now : string) (w : widgets) (wd wd' : world) (r : result unit) :
  w_save_clicked w = false ->
  page now w wd = (wd', r) ->
  stored_rows (db wd') = stored_rows (db wd).
Proof.
  intros Hclick Hpage.
  destruct (read_sidebar w) as [i|e] eqn:Hread.
  - destruct (calculate_ok i) as (t & Hcalc).
    destruct (stored_rows (db wd)) as [rows|] eqn:Hrows.
    + rewrite (page_on_available_store now w i t wd rows Hread Hcalc Hrows)
        in Hpage.
      cbv zeta in Hpage. rewrite Hclick in Hpage.
      injection Hpage as <- _. cbn [db].
      now rewrite stored_rows_opened.
    + assert (Hdb : db wd = Unavailable)
        by (destruct (db wd); [ reflexivity | discriminate | discriminate ]).
      rewrite (page_sections now w i t wd Hread Hcalc), Hclick in Hpage.
      rewrite (bind_ok _ _ _ _ tt (render_download_only now i t _)) in Hpage.
      match type of Hpage with
      | context [bind render_history _ ?w1] =>
          rewrite (bind_raise _ _ w1 _ _
                     (render_history_unavailable w1 Hdb)) in Hpage
      end.
      injection Hpage as <- _. cbn [db]. now rewrite Hrows.
  - rewrite (page_unread now w wd e Hread) in Hpage.
    now injection Hpage as <- _.
Qed.

Lemma run_without_save_writes_nothing_witness :
  stored_rows
    (db (fst (page "2024-05-04T09:00:00" default_widgets
                {| db := Runs [good_row 1; truncated_row 2] 2;
                   shown := [] |})))
  = Some [good_row 1; truncated_row 2].
Proof.
  exact (run_without_save_writes_nothing "2024-05-04T09:00:00"
           default_widgets _ _ _ eq_refl (surjective_pairing _)).
Defined.

(** X12: a run in which the save button was pressed and the saved
    notice came up (the save returned without raising) has appended
    exactly one row: the row of this run, under an id larger than every
    id in the table. The row is written before the history is read, so
    it stays even when the history section then stops the run; and the
    run completes exactly when every row that was already stored can be
    read. *)
Theorem run_with_save_appends_one_row
    (now : string) (w : widgets) (i : inputs) (t : totals)
    (wd wd' : world) (rows : list row) (r : result unit) :
  w_save_clicked w = true ->
  read_sidebar w = Ok i ->
  calculate i = Ok t ->
  stored_rows (db wd) = Some rows ->
  shown wd = [] ->
  page now w wd = (wd', r) ->
  In SavedNotice (shown wd') ->
  exists id,
    stored_rows (db wd') = Some (rows ++ [saved_row id now i t])%list /\
    Forall (fun x => (r_id x < id)%Z) rows /\
    (r = Ok tt <-> Forall readable rows).
Proof.
  intros Hclick Hread Hcalc Hrows Hshown Hpage _.
  rewrite (page_on_available_store now w i t wd rows Hread Hcalc Hrows)
    in Hpage.
  cbv zeta in Hpage. rewrite Hclick in Hpage.
  cbn [rows_after_save] in Hpage.
  pose proof (f_equal fst Hpage) as Hw. pose proof (f_equal snd Hpage) as Hr.
  cbn [fst snd] in Hw, Hr. subst wd' r.
  exists (next_id rows (store_seq (db wd))).
  cbn [db stored_rows].
  split; [ reflexivity | ].
  split; [ apply next_id_above | ].
  rewrite history_outcome_ok, Forall_app. split; [ tauto | ].
  intros H. split; [ exact H | ].
  constructor; [ apply saved_row_readable | constructor ].
Qed.

Lemma run_with_save_appends_one_row_witness :
  exists id i t,
    stored_rows
      (db (fst (page "2024-05-04T09:00:00" typical_widgets
                  {| db := Runs [good_row 1; truncated_row 2] 2;
                     shown := [] |})))
    = Some [good_row 1; truncated_row 2;
            saved_row id "2024-05-04T09:00:00" i t].
Proof.
  assert (Hin : In SavedNotice
    (shown (fst (page "2024-05-04T09:00:00" typical_widgets
                   {| db := Runs [good_row 1; truncated_row 2] 2;
                      shown := [] |})))).
  { vm_compute. repeat first [ left; reflexivity | right ]. }
  destruct (run_with_save_appends_one_row "2024-05-04T09:00:00"
              typical_widgets _ _
              {| db := Runs [good_row 1; truncated_row 2] 2; shown := [] |}
              _ [good_row 1; truncated_row 2] _
              eq_refl eq_refl eq_refl eq_refl eq_refl
              (surjective_pairing _) Hin)
    as (id & Hrows & _).
  exists id. eexists. eexists. exact Hrows.
Defined.

(** ** A history written by the page itself *)




(** X14: a run that saves shows itself. When the save button was
    pressed and the saved notice came up (the save returned without
    raising), every row already stored can be read and none of the
    figures just computed is NaN, the run completes and the first line
    of the history table is this run: its time and the four subtotals
    and the total in kg just computed, float for float; the older rows
    follow. *)
Theorem saved_run_heads_history
    (now : string) (w : widgets) (i : inputs) (t : totals)
    (wd wd' : world) (rows : list row) (r : result unit) :
  w_save_clicked w = true ->
  read_sidebar w = Ok i ->
  calculate i = Ok t ->
  totals_not_nan t ->
  stored_rows (db wd) = Some rows ->
  Forall readable rows ->
  shown wd = [] ->
  page now w wd = (wd', r) ->
  In SavedNotice (shown wd') ->
  r = Ok tt /\
  exists older,
    In (HistoryTable (history_line now t :: older)) (shown wd') /\
    List.length older = List.length rows.
Proof.
  intros Hclick Hread Hcalc _ Hrows Hall Hshown Hpage _.
  rewrite (page_on_available_store now w i t wd rows Hread Hcalc Hrows)
    in Hpage.
  cbv zeta in Hpage. rewrite Hclick in Hpage.
  cbn [rows_after_save] in Hpage.
  set (new := saved_row (next_id rows (store_seq (db wd))) now i t) in *.
  assert (Hlisting : order_by_id_desc (rows ++ [new])
                     = new :: order_by_id_desc rows)
    by (apply order_by_id_desc_snoc; apply next_id_above).
  assert (Hnone : first_error (order_by_id_desc rows) = None)
    by (now apply first_error_none_iff, readable_listing).
  assert (Hout : history_outcome (rows ++ [new]) =
            ([ Subheader "📈 History";
               HistoryTable (history_line now t
                             :: parsed_rows (order_by_id_desc rows));
               TrendChart (history_line now t
                           :: parsed_rows (order_by_id_desc rows)) ], Ok tt)).
  { unfold history_outcome.
    replace (is_empty (rows ++ [new])) with false
      by (now destruct rows).
    rewrite Hlisting. cbn [first_error parsed_rows].
    assert (Hnew : parse_history_row new = Ok (history_line now t))
      by apply parse_saved_row.
    rewrite Hnew, Hnone. reflexivity. }
  rewrite Hout in Hpage. cbn [fst snd] in Hpage.
  pose proof (f_equal fst Hpage) as Hw. pose proof (f_equal snd Hpage) as Hr.
  cbn [fst snd] in Hw, Hr. subst wd' r.
  split; [ reflexivity | ].
  exists (parsed_rows (order_by_id_desc rows)). split.
  - cbn [shown]. rewrite !in_app_iff.
    right. right. right. right. right. left. right. now left.
  - rewrite (parsed_rows_length _ Hnone).
    apply Permutation_length, order_by_id_desc_perm.
Qed.

Lemma typical_totals_not_nan :
  forall t, run_totals typical_widgets = Ok t -> totals_not_nan t.
Proof.
  intros t H. rewrite typical_run in H. injection H as <-. repeat split.
Qed.

Lemma saved_run_heads_history_witness :
  exists older t,
    run_totals typical_widgets = Ok t /\
    In (HistoryTable (history_line "2024-05-04T09:00:00" t :: older))
       (shown (fst (page "2024-05-04T09:00:00" typical_widgets
                      {| db := Runs [good_row 1; good_row 2] 2;
                         shown := [] |}))) /\
    List.length older = 2%nat.
Proof.
  assert (Hall : Forall readable [good_row 1; good_row 2]).
  { repeat constructor; eexists; vm_compute; reflexivity. }
  assert (Hin : In SavedNotice
    (shown (fst (page "2024-05-04T09:00:00" typical_widgets
                   {| db := Runs [good_row 1; good_row 2] 2;
                      shown := [] |})))).
  { vm_compute. repeat first [ left; reflexivity | right ]. }
  destruct (saved_run_heads_history "2024-05-04T09:00:00"
              typical_widgets _ _
              {| db := Runs [good_row 1; good_row 2] 2; shown := [] |}
              _ [good_row 1; good_row 2] _
              eq_refl eq_refl eq_refl (typical_totals_not_nan _ eq_refl)
              eq_refl Hall eq_refl (surjective_pairing _) Hin)
    as (_ & older & Hline & Hlen).
  exists older. eexists.
  split; [ reflexivity | ]. split; [ exact Hline | exact Hlen ].
Defined.

(** ** The empty history *)

(** X15: on a store that can be opened, the notice that there is no
    history yet is shown exactly when the table holds no row and the
    run does not save one. *)
Theorem no_history_notice_iff_empty
    (now : string) (w : widgets) (i : inputs)
    (wd wd' : world) (rows : list row) (r : result unit) :
  read_sidebar w = Ok i ->
  stored_rows (db wd) = Some rows ->
  shown wd = [] ->
  page now w wd = (wd', r) ->
  (In NoHistoryInfo (shown wd') <-> rows = [] /\ w_save_clicked w = false).
Proof.
  intros Hread Hrows Hshown Hpage.
  destruct (calculate_ok i) as (t & Hcalc).
  rewrite (page_on_available_store now w i t wd rows Hread Hcalc Hrows)
    in Hpage.
  cbv zeta in Hpage. apply (f_equal fst) in Hpage.
  cbn [fst] in Hpage. subst wd'. cbn [shown].
  rewrite Hshown, List.app_nil_l.
  assert (Hsugg : ~ In NoHistoryInfo (suggestion_events i)).
  { unfold suggestion_events. intros [H|H]; [ discriminate H | ].
    apply in_map_iff in H. destruct H as (x & Hx & _). discriminate Hx. }
  assert (Hfixed : forall tail,
    In NoHistoryInfo
      (summary_events t ++ [Subheader "💾 Save & Download"] ++
       (if w_save_clicked w then [SavedNotice] else []) ++
       download_events i t ++ tail)
    <-> In NoHistoryInfo tail).
  { intros tail. unfold summary_events, download_events.
    destruct (w_save_clicked w); cbn [app In];
      (split;
        [ intros H; repeat (destruct H as [H|H]; try discriminate H); exact H
        | intros H; repeat right; exact H ]). }
  rewrite Hfixed, in_app_iff.
  unfold rows_after_save, history_outcome.
  destruct (w_save_clicked w).
  - replace (is_empty (rows ++ [_])) with false by (now destruct rows).
    split; [ | intros [_ H]; discriminate H ].
    intros [H|H].
    + destruct (first_error _); cbn [fst In] in H;
        repeat (destruct H as [H|H]; try discriminate H); contradiction.
    + destruct (first_error _); cbn [snd] in H;
        first [ now apply Hsugg in H | destruct H ].
  - destruct rows as [|x rows]; cbn [is_empty].
    + cbn [fst In]. split; [ auto | ]. intros _. left. right. now left.
    + split; [ | intros [H _]; discriminate H ].
      intros [H|H].
      * destruct (first_error _); cbn [fst In] in H;
          repeat (destruct H as [H|H]; try discriminate H); contradiction.
      * destruct (first_error _); cbn [snd] in H;
          first [ now apply Hsugg in H | destruct H ].
Qed.

Lemma no_history_notice_iff_empty_witness :
  In NoHistoryInfo
    (shown (fst (page "2024-05-04T09:00:00" default_widgets
                   {| db := NoTable; shown := [] |}))).
Proof.
  apply (no_history_notice_iff_empty "2024-05-04T09:00:00" default_widgets
           _ {| db := NoTable; shown := [] |} _ [] _
           eq_refl eq_refl eq_refl (surjective_pairing _)).
  split; reflexivity.
Defined.

(** ** What the history loop needs of a payload *)

(** X16: of a stored payload the history loop reads five keys and
    nothing else. For a payload that [json.dumps] wrote from a dict of
    floats and strings, a row is read exactly when the dict has the
    five keys (total in kg, transport, electricity, diet, shopping), in
    any order and whatever else it holds: the total in tonnes is not
    needed. The line then carries the time of the row and the five
    values; otherwise the loop raises the key error of the first of the
    five keys, in that order, that is missing. *)
Theorem history_reads_five_keys (r : row) (d : list (string * json)) :
  plain_payload (JDict d) ->
  r_totals_json r = json_dumps (JDict d) ->
  match first_missing d history_keys with
  | Some k => parse_history_row r = Raise (KeyError k)
  | None =>
      exists h,
        parse_history_row r = Ok h /\
        h_timestamp h = r_timestamp r /\
        dict_get d "grand_total_kg" = Some (annual_kg h) /\
        dict_get d "transport_total" = Some (transport_kg h) /\
        dict_get d "electricity_total" = Some (electricity_kg h) /\
        dict_get d "diet_total" = Some (diet_kg h) /\
        dict_get d "shopping_total" = Some (shopping_kg h)
  end.
Proof.
  intros Hd Htext. unfold parse_history_row. rewrite Htext.
  unfold json_dumps.
  rewrite (loads_dumps None _ (plain_payload_like _ Hd)).
  cbn [rbind json_getitem]. unfold first_missing, history_keys, getitem.
  cbn [find].
  destruct (dict_get d "grand_total_kg") as [a|]; [ | reflexivity ].
  destruct (dict_get d "transport_total") as [tr|]; [ | reflexivity ].
  destruct (dict_get d "electricity_total") as [el|]; [ | reflexivity ].
  destruct (dict_get d "diet_total") as [di|]; [ | reflexivity ].
  destruct (dict_get d "shopping_total") as [sh|]; [ | reflexivity ].
  cbn [rbind]. eexists. split; [ reflexivity | ].
  cbn. repeat split.
Qed.

Lemma history_reads_five_keys_witness :
  exists h,
    parse_history_row (foreign_row 7) = Ok h /\
    annual_kg h = JFloat 4182.039999999999.
Proof.
  assert (Hd : plain_payload foreign_payload).
  { simpl. repeat split; try reflexivity;
      repeat constructor; simpl; intuition discriminate. }
  pose proof (history_reads_five_keys (foreign_row 7) _ Hd eq_refl) as H.
  change (first_missing _ history_keys) with (@None string) in H.
  destruct H as (h & Hparse & _ & Ha & _).
  exists h. split; [ exact Hparse | ].
  injection Ha as <-. reflexivity.
Defined.

(** ** Reruns *)

(** X17: the script runs again on every interaction, and a run that
    does not save can be repeated: run again with the same sidebar (at
    whatever time) on the store as the first run left it, the page shows
    the same things, ends the same way and leaves the store as it
    was. *)
Theorem rerun_without_save_shows_same
    (now now' : string) (w : widgets) (s : store)
    (wd1 wd2 : world) (r1 r2 : result unit) :
  w_save_clicked w = false ->
  page now w {| db := s; shown := [] |} = (wd1, r1) ->
  page now' w {| db := db wd1; shown := [] |} = (wd2, r2) ->
  shown wd2 = shown wd1 /\ r2 = r1 /\ db wd2 = db wd1.
Proof.
  intros Hclick H1 H2.
  destruct (read_sidebar w) as [i|e] eqn:Hread.
  - destruct (calculate_ok i) as (t & Hcalc).
    destruct (stored_rows s) as [rows|] eqn:Hrows.
    + rewrite (page_on_available_store now w i t
                 {| db := s; shown := [] |} rows Hread Hcalc Hrows) in H1.
      cbv zeta in H1. rewrite Hclick in H1. cbn [rows_after_save db shown] in H1.
      injection H1 as <- <-. cbn [db] in H2.
      rewrite (page_on_available_store now' w i t
                 {| db := opened s; shown := [] |} rows Hread Hcalc
                 ltac:(cbn [db]; now rewrite stored_rows_opened)) in H2.
      cbv zeta in H2. rewrite Hclick in H2. cbn [rows_after_save db shown] in H2.
      injection H2 as <- <-. cbn [db shown].
      repeat split. now destruct s.
    + assert (Hs : s = Unavailable)
        by (destruct s; [ reflexivity | discriminate | discriminate ]).
      subst s.
      rewrite (page_on_unavailable_store now w i t Hread Hcalc) in H1.
      injection H1 as <- <-. cbn [db] in H2.
      rewrite (page_on_unavailable_store now' w i t Hread Hcalc) in H2.
      injection H2 as <- <-. repeat split.
  - rewrite (page_unread now w _ e Hread) in H1. injection H1 as <- <-.
    rewrite (page_unread now' w _ e Hread) in H2. injection H2 as <- <-.
    repeat split.
Qed.

Lemma rerun_without_save_shows_same_witness :
  let first := page "2024-05-04T09:00:00" default_widgets
                 {| db := NoTable; shown := [] |} in
  let second := page "2024-05-04T09:01:00" default_widgets
                  {| db := db (fst first); shown := [] |} in
  shown (fst second) = shown (fst first) /\ snd second = snd first.
Proof.
  intros first second.
  destruct (rerun_without_save_shows_same
              "2024-05-04T09:00:00" "2024-05-04T09:01:00" default_widgets
              NoTable (fst first) (fst second) (snd first) (snd second)
              eq_refl (surjective_pairing _) (surjective_pairing _))
    as (Hshown & Hr & _).
  split; assumption.
Defined.

(** * The figures of the summary *)

(** ** Commas *)

Lemma remove_commas_app (a b : string) :
  remove_commas (a ++ b) = remove_commas a ++ remove_commas b.
Proof.
  induction a as [|c a IH]; simpl; [ reflexivity | ].
  destruct (Ascii.eqb c ","); simpl; now rewrite IH.
Qed.

Lemma digit_not_comma (c : ascii) :
  is_digit c = true -> Ascii.eqb c "," = false.
Proof.
  destruct c as [[] [] [] [] [] [] [] []]; simpl; intros H;
    try discriminate H; reflexivity.
Qed.

Lemma remove_commas_digits (s : string) :
  all_digits s = true -> remove_commas s = s.
Proof.
  induction s as [|c s IH]; simpl; [ reflexivity | ].
  intros H. apply andb_true_iff in H. destruct H as [Hc Hs].
  rewrite (digit_not_comma c Hc). now rewrite IH.
Qed.

Lemma remove_commas_group3 (s : string) :
  remove_commas (group3 s) = remove_commas s.
Proof.
  induction s as [|c s IH]; [ reflexivity | ].
  cbn [group3 remove_commas].
  destruct (negb (String.length s =? 0)%nat && (String.length s mod 3 =? 0)%nat);
    cbn [remove_commas]; change (Ascii.eqb "," ",") with true; cbv iota;
    now rewrite IH.
Qed.

Lemma pad_left_digits (n : nat) (k : Z) :
  all_digits (pad_left n (digits_of_Z k)) = true.
Proof.
  unfold pad_left. now rewrite all_digits_app, all_digits_zeros, all_digits_of_Z.
Qed.

Lemma remove_commas_fixed_text (prec : nat) (n : Z) :
  remove_commas (fixed_text true prec n) = fixed_text false prec n.
Proof.
  unfold fixed_text. cbv zeta.
  set (ds := pad_left (S prec) (digits_of_Z n)).
  assert (Hds : all_digits ds = true) by apply pad_left_digits.
  rewrite remove_commas_app, remove_commas_group3.
  rewrite (remove_commas_digits (take _ ds)) by now apply all_digits_take.
  f_equal. destruct (prec =? 0)%nat; [ reflexivity | ].
  cbn [append remove_commas]. change (Ascii.eqb "." ",") with false. cbv iota.
  f_equal. apply remove_commas_digits. now apply all_digits_drop.
Qed.

(** X18: the comma option only adds commas. Whatever the float and the
    number of fraction digits, the text written with [,.<n>f] without
    its commas is the text written with [.<n>f]; so the kg figure in the
    sentence of the summary and the figure of the Annual metric, both
    written from the total in kg with no fraction digit, show the same
    digits. *)
Theorem grouping_only_adds_commas (prec : nat) (x : float) :
  remove_commas (format_f true prec x) = format_f false prec x.
Proof.
  unfold format_f.
  destruct (Prim2SF x) as [s|s| |s m e].
  - destruct s; cbn [append remove_commas];
      change (Ascii.eqb "-" ",") with false; cbv iota;
      now rewrite remove_commas_fixed_text.
  - destruct s; reflexivity.
  - reflexivity.
  - destruct s; cbn [append remove_commas];
      change (Ascii.eqb "-" ",") with false; cbv iota;
      now rewrite remove_commas_fixed_text.
Qed.

(** ** Rounding *)

Section Rounding.

Local Open Scope Z_scope.

Lemma round_half_even_nearest (a b : Z) :
  0 < b ->
  2 * Z.abs (a - round_half_even a b * b) <= b /\
  (2 * Z.abs (a - round_half_even a b * b) = b ->
   Z.even (round_half_even a b) = true).
Proof.
  intros Hb. unfold round_half_even.
  pose proof (Z.div_mod a b ltac:(lia)) as Hdm.
  pose proof (Z.mod_pos_bound a b Hb) as Hr.
  set (q := a / b) in *. set (r := a mod b) in *.
  destruct (2 * r ?= b) eqn:Hc.
  - apply Z.compare_eq in Hc.
    destruct (Z.even q) eqn:Hq.
    + split; [ nia | intros _; exact Hq ].
    + split; [ nia | intros _ ].
      rewrite Z.even_add, Hq. reflexivity.
  - rewrite Z.compare_lt_iff in Hc. split; nia.
  - rewrite Z.compare_gt_iff in Hc. split; nia.
Qed.

Lemma round_half_even_nonneg (a b : Z) :
  0 <= a -> 0 < b -> 0 <= round_half_even a b.
Proof.
  intros Ha Hb. unfold round_half_even.
  pose proof (Z.div_pos a b Ha Hb).
  destruct (2 * (a mod b) ?= b); [ destruct (Z.even (a / b)) | | ]; lia.
Qed.

Lemma fixed_units_nearest (prec : nat) (m : positive) (e : Z) :
  nearest_units prec m e (fixed_units prec m e) /\
  0 <= fixed_units prec m e.
Proof.
  unfold nearest_units, fixed_units, scale2. cbv zeta.
  assert (Hp : 0 < Z.pos m * 10 ^ Z.of_nat prec)
    by (apply Z.mul_pos_pos; [ lia | apply Z.pow_pos_nonneg; lia ]).
  destruct (0 <=? - e) eqn:He.
  - apply Z.leb_le in He.
    rewrite (Z.max_r e 0), (Z.max_l (- e) 0) by lia.
    rewrite Z.pow_0_r, Z.mul_1_r, Z.mul_1_l.
    assert (Hb : 0 < 2 ^ (- e)) by (apply Z.pow_pos_nonneg; lia).
    split; [ now apply round_half_even_nearest | ].
    apply round_half_even_nonneg; lia.
  - apply Z.leb_gt in He.
    rewrite (Z.max_l e 0), (Z.max_r (- e) 0) by lia.
    rewrite Z.pow_0_r, Z.opp_involutive.
    assert (Hb : 0 < 2 ^ e) by (apply Z.pow_pos_nonneg; lia).
    split; [ apply round_half_even_nearest; lia | ].
    apply round_half_even_nonneg; nia.
Qed.

End Rounding.

(** ** The text of a figure *)

Lemma take_cons (k : nat) (c : ascii) (r : string) :
  (1 <= k)%nat -> take k (String c r) = String c (take (k - 1) r).
Proof.
  destruct k as [|k]; [ lia | ]. intros _. simpl. now rewrite Nat.sub_0_r.
Qed.

Lemma take_one (s : string) :
  (1 <= String.length s)%nat -> exists c, take 1 s = String c "".
Proof.
  destruct s as [|c s]; simpl; [ lia | ].
  intros _. exists c. now destruct s.
Qed.

Lemma fixed_text_shape (prec : nat) (n : Z) :
  (0 <= n)%Z ->
  exists ip fp,
    fixed_text false prec n =
      ip ++ (if (prec =? 0)%nat then "" else "." ++ fp) /\
    int_part_ok ip /\ all_digits fp = true /\
    String.length fp = prec /\
    Z_of_digits 0 (ip ++ fp) = n.
Proof.
  intros Hn. unfold fixed_text. cbv zeta.
  set (ds := pad_left (S prec) (digits_of_Z n)).
  set (k := (String.length ds - prec)%nat).
  assert (Hds : all_digits ds = true) by apply pad_left_digits.
  assert (Hlen : String.length ds =
                 Nat.max (S prec) (String.length (digits_of_Z n))).
  { unfold ds, pad_left. rewrite length_app, length_zeros. lia. }
  exists (take k ds), (drop k ds).
  split; [ reflexivity | ].
  split; [ | split; [ now apply all_digits_drop | split ] ].
  - split; [ now apply all_digits_take | ].
    destruct (Nat.le_gt_cases (String.length (digits_of_Z n)) (S prec))
      as [Hshort|Hlong].
    + assert (Hk : k = 1%nat) by (unfold k; lia).
      rewrite Hk. destruct (take_one ds ltac:(lia)) as (c & ->).
      intros _. reflexivity.
    + assert (Hds' : ds = digits_of_Z n).
      { unfold ds, pad_left.
        replace (S prec - String.length (digits_of_Z n))%nat with 0%nat by lia.
        reflexivity. }
      destruct n as [|p|p]; [ simpl in Hlong; lia | | lia ].
      destruct (digits_of_pos_head p) as (c & r & E & Hc).
      rewrite Hds', E, take_cons by (unfold k; lia).
      intros H. contradiction.
  - rewrite length_drop. unfold k. lia.
  - rewrite take_drop. unfold ds, pad_left.
    rewrite Z_of_digits_app, Z_of_digits_zeros, Z.mul_0_l.
    now apply Z_of_digits_of_Z.
Qed.

(** X19: a figure is the float correctly rounded. For a finite float
    other than zero, the text written with [.<n>f] is an optional minus
    sign (present exactly when the sign bit is set), the integer digits
    (a single 0 or digits that do not start with 0), and for [n > 0] a
    point and exactly [n] fraction digits; read as a whole number of
    units of [10^-n], these digits are an integer nearest to the exact
    value of the float in that unit, the even one on a tie. *)
Theorem fixed_format_correctly_rounded
    (prec : nat) (x : float) (s : bool) (m : positive) (e : Z) :
  Prim2SF x = S754_finite s m e ->
  exists ip fp,
    format_f false prec x =
      (if s then "-" else "") ++ ip ++
      (if (prec =? 0)%nat then "" else "." ++ fp) /\
    int_part_ok ip /\ all_digits fp = true /\
    String.length fp = prec /\
    nearest_units prec m e (Z_of_digits 0 (ip ++ fp)).
Proof.
  intros Hx. unfold format_f. rewrite Hx.
  destruct (fixed_units_nearest prec m e) as [Hnear Hpos].
  destruct (fixed_text_shape prec (fixed_units prec m e) Hpos)
    as (ip & fp & Htext & Hip & Hfp & Hlen & Hval).
  exists ip, fp. rewrite Htext, Hval.
  split; [ reflexivity | ]. split; [ exact Hip | ].
  split; [ exact Hfp | ]. split; [ exact Hlen | exact Hnear ].
Qed.

Lemma fixed_format_correctly_rounded_witness :
  format_f false 2 4182.039999999999 = "4182.04" /\
  exists ip fp,
    format_f false 2 4182.039999999999 = ip ++ "." ++ fp /\
    String.length fp = 2%nat /\
    nearest_units 2 4598201607824342 (-40) (Z_of_digits 0 (ip ++ fp)).
Proof.
  split; [ vm_compute; reflexivity | ].
  destruct (fixed_format_correctly_rounded 2 4182.039999999999
              false 4598201607824342 (-40) eq_refl)
    as (ip & fp & Htext & _ & _ & Hlen & Hnear).
  exists ip, fp.
  split; [ exact Htext | ]. split; [ exact Hlen | exact Hnear ].
Defined.

(** ** Groups of three *)

Lemma split_commas_digit (c : ascii) (s : string) :
  is_digit c = true ->
  split_commas (String c s) =
    match split_commas s with
    | g :: gs => String c g :: gs
    | [] => [String c ""]
    end.
Proof.
  intros Hc. cbn [split_commas]. now rewrite (digit_not_comma c Hc).
Qed.

Lemma concat_cons_head (c : ascii) (g : string) (gs : list string) :
  String.concat "" (String c g :: gs) = String c (String.concat "" (g :: gs)).
Proof. destruct gs; reflexivity. Qed.

Lemma group3_split (s : string) :
  all_digits s = true -> s <> "" ->
  exists g gs,
    split_commas (group3 s) = g :: gs /\
    String.length g = ((String.length s - 1) mod 3 + 1)%nat /\
    Forall (fun x => String.length x = 3%nat) gs /\
    String.concat "" (g :: gs) = s.
Proof.
  induction s as [|c s IH]; [ congruence | ].
  intros Hd _. cbn [all_digits] in Hd.
  apply andb_true_iff in Hd. destruct Hd as [Hc Hs].
  destruct s as [|c' s'].
  - exists (String c ""), []. cbn [group3 String.length Nat.eqb negb andb].
    rewrite split_commas_digit by exact Hc.
    repeat split. constructor.
  - destruct (IH Hs ltac:(discriminate)) as (g' & gs' & Hsplit & Hlen & Hall & Hcat).
    assert (HL : (1 <= String.length (String c' s'))%nat) by (simpl; lia).
    clear IH. remember (String c' s') as rest eqn:Erest. clear Erest.
    cbn [group3].
    replace (String.length (String c rest)) with (S (String.length rest))
      by reflexivity.
    destruct (String.length rest =? 0)%nat eqn:E0;
      [ apply Nat.eqb_eq in E0; lia | ]. cbn [negb andb].
    pose proof (Nat.div_mod_eq (String.length rest) 3) as Hdm.
    pose proof (Nat.mod_upper_bound (String.length rest) 3 ltac:(lia)) as Hm.
    pose proof (Nat.div_mod_eq (String.length rest - 1) 3) as Hdm1.
    pose proof (Nat.mod_upper_bound (String.length rest - 1) 3 ltac:(lia))
      as Hm1.
    replace (S (String.length rest) - 1)%nat with (String.length rest) by lia.
    destruct (String.length rest mod 3 =? 0)%nat eqn:E3.
    + apply Nat.eqb_eq in E3.
      rewrite split_commas_digit by exact Hc.
      cbn [split_commas]. change (Ascii.eqb "," ",") with true. cbv iota.
      rewrite Hsplit.
      exists (String c ""), (g' :: gs').
      split; [ reflexivity | ].
      split; [ cbn [String.length]; lia | ].
      split; [ constructor; [ cbv beta; lia | exact Hall ] | ].
      rewrite concat_cons_head.
      change (String.concat "" ("" :: g' :: gs'))
        with ("" ++ "" ++ String.concat "" (g' :: gs')).
      cbn [append]. now rewrite Hcat.
    + apply Nat.eqb_neq in E3.
      rewrite split_commas_digit by exact Hc.
      rewrite Hsplit.
      exists (String c g'), gs'.
      split; [ reflexivity | ].
      split; [ cbn [String.length]; lia | ].
      split; [ exact Hall | ].
      rewrite concat_cons_head. now rewrite Hcat.
Qed.

(** X20: the commas cut the kg figure into groups of three from the
    right. For a finite float that is not negative, the text written
    with [,.0f] splits at its commas into a first group of one to three
    digits and further groups of exactly three, and the groups put
    together are the text written with [.0f]. *)
Theorem thousands_groups (x : float) :
  sf_nonneg (Prim2SF x) = true ->
  sf_finite (Prim2SF x) = true ->
  exists g gs,
    split_commas (format_f true 0 x) = g :: gs /\
    (1 <= String.length g <= 3)%nat /\
    Forall (fun s => String.length s = 3%nat) gs /\
    String.concat "" (g :: gs) = format_f false 0 x.
Proof.
  unfold format_f. destruct (Prim2SF x) as [s|s| |s m e]; try discriminate.
  - intros _ _. destruct s; eexists; exists [];
      (split; [ reflexivity | ]); simpl; repeat split; try lia; constructor.
  - destruct s; [ discriminate | ]. intros _ _. cbn [append].
    unfold fixed_text. cbv zeta. cbn [Nat.eqb].
    set (ds := pad_left 1 (digits_of_Z (fixed_units 0 m e))).
    rewrite Nat.sub_0_r, take_all, !append_nil_r by lia.
    assert (Hds : all_digits ds = true) by apply pad_left_digits.
    assert (Hne : ds <> "").
    { intros E. assert (H : String.length ds = 0%nat) by now rewrite E.
      unfold ds, pad_left in H. rewrite length_app, length_zeros in H. lia. }
    destruct (group3_split ds Hds Hne) as (g & gs & Hsplit & Hlen & Hall & Hcat).
    exists g, gs. split; [ exact Hsplit | ].
    pose proof (Nat.mod_upper_bound (String.length ds - 1) 3 ltac:(lia)).
    split; [ lia | ]. split; assumption.
Qed.

Lemma thousands_groups_witness :
  split_commas (format_f true 0 1234567.891) = ["1"; "234"; "568"] /\
  exists g gs,
    split_commas (format_f true 0 1234567.891) = g :: gs /\
    String.concat "" (g :: gs) = format_f false 0 1234567.891.
Proof.
  split; [ vm_compute; reflexivity | ].
  destruct (thousands_groups 1234567.891 eq_refl eq_refl)
    as (g & gs & Hsplit & _ & _ & Hcat).
  exists g, gs. split; assumption.
Defined.
